(** * foolhardy-admin: cash drawer, dashboard, goals, events and inventory logic

    A shallow embedding of the computations of the admin tool:
    - [CashDrawer.tsx]: [computeTotal], [netCash], the saved session row and
      the re-derived [net];
    - [Dashboard.tsx] and the inventory page: [isLow], [eventCounts],
      [adjustQuantity];
    - the goals page: [groupActiveByMonth], [completedGoals];
    - the new-event page: [addDays], [formatDateForDB], [handleSubmit].

    JavaScript values are modelled as the language defines them:
    - a [number] is an IEEE-754 binary64 value ([spec_float] at precision 53,
      exponent bound 1024, round to nearest even, one NaN);
    - a string is a sequence of code units; the strings of this development
      stay in the Latin-1 range, where [String.compare] is the code-unit
      order that [<] uses on strings;
    - an object used as a dictionary keeps its own keys in creation order
      and falls back to [Object.prototype] on a miss. *)

From Stdlib Require Import ZArith Lia Bool List Ascii String.
From Stdlib Require Import Sorting.Sorted Sorting.Permutation.
From Stdlib Require Import Structures.OrdersEx.
From Stdlib Require Import Floats.SpecFloat.
From Stdlib Require Import Numbers.DecimalString.
From stdpp Require Import base option list strings gmap.

Local Open Scope string_scope.
Local Open Scope Z_scope.

(** ** JavaScript numbers *)

Module JS.

Definition number := spec_float.

Definition prec : Z := 53.
Definition emax : Z := 1024.

Definition pzero : number := S754_zero false.
Definition NaN : number := S754_nan.
Definition Infinity : number := S754_infinity false.

Definition add : number -> number -> number := SFadd prec emax.
Definition sub : number -> number -> number := SFsub prec emax.
Definition mul : number -> number -> number := SFmul prec emax.

(** [x < y], [x <= y], [x > y], [x >= y] and [x === y] on numbers. *)
Definition ltb (x y : number) : bool := SFltb x y.
Definition leb (x y : number) : bool := SFleb x y.
Definition gtb (x y : number) : bool := SFltb y x.
Definition geb (x y : number) : bool := SFleb y x.
Definition eqb (x y : number) : bool := SFeqb x y.

Declare Scope js_scope.
Delimit Scope js_scope with js.
Bind Scope js_scope with number.
Infix "+" := add : js_scope.
Infix "-" := sub : js_scope.
Infix "*" := mul : js_scope.
Infix "<?" := ltb : js_scope.
Infix "<=?" := leb : js_scope.
Infix ">?" := gtb : js_scope.
Infix ">=?" := geb : js_scope.
Infix "=?" := eqb : js_scope.

(** Truthiness of a number: [0], [-0] and NaN are falsy. *)
Definition truthy (x : number) : bool :=
  match x with
  | S754_zero _ | S754_nan => false
  | _ => true
  end.

(** [Number.isNaN]. *)
Definition isNaN (x : number) : bool :=
  match x with S754_nan => true | _ => false end.

(** The number denoted by an integer literal of the source. *)
Definition of_Z (z : Z) : number := binary_normalize prec emax z 0 false.

(** [Math.max(x, y)]: NaN if either is NaN, and [+0] is larger than [-0]. *)
Definition Math_max (x y : number) : number :=
  match x, y with
  | S754_nan, _ | _, S754_nan => S754_nan
  | S754_zero sx, S754_zero sy => S754_zero (sx && sy)
  | _, _ => if SFltb x y then y else x
  end.


(** [-0], the one number that adding [+0] changes. *)
Definition nzero : number := S754_zero true.

(** [x >= 0]: a zero of either sign, a positive number or +Infinity. *)
Definition nonneg (x : number) : Prop := geb x pzero = true.

(** The least exponent of a double, and the exponent at which a value of
    [k] binary digits is rounded. *)
Definition emin : Z := SpecFloat.emin prec emax.
Definition fexp (k : Z) : Z := SpecFloat.fexp prec emax k.

(** A finite number has its exponent in range: so are all results of the
    arithmetic. *)
Definition in_range (x : number) : Prop :=
  match x with
  | S754_finite _ _ e => emin <= e
  | _ => True
  end.

(** What rounding a non-negative mantissa to sign [s] yields. *)
Inductive rounded (s : bool) : number -> Prop :=
| rounded_zero : rounded s (S754_zero s)
| rounded_infinity : rounded s (S754_infinity s)
| rounded_finite m e : emin <= e -> rounded s (S754_finite s m e).

(** *** Whole numbers

    A whole number of magnitude below 2^53 is a double. *)

(** The integers that doubles hold exactly, with all their neighbours. *)
Definition safe (z : Z) : Prop := (Z.abs z < 2 ^ 53)%Z.

(** The double of a positive integer below 2^53: its digits moved up to 53
    bits. *)
Definition canon (s : bool) (n : Z) : number :=
  S754_finite s (Z.to_pos (n * 2 ^ (53 - Zdigits2 n))) (Zdigits2 n - 53).

(** [n.toString()] for a number that is an integer literal of the source:
    its decimal digits. *)
Definition toString (z : Z) : string := NilZero.string_of_int (Z.to_int z).

(** *** [Number(s)]: StringToNumber

    Leading and trailing white space is dropped; the empty rest is [+0];
    otherwise the rest must be a StrNumericLiteral: an optionally signed
    decimal literal or [Infinity], or an unsigned binary, octal or
    hexadecimal integer.  Anything else is NaN.  The mathematical value is
    rounded to the nearest double. *)

Definition is_ws (c : ascii) : bool :=
  let n := N_of_ascii c in
  ((9 <=? n) && (n <=? 13))%N || (n =? 32)%N || (n =? 160)%N.

Fixpoint chars (s : string) : list ascii :=
  match s with
  | EmptyString => []
  | String c r => c :: chars r
  end.

Fixpoint drop_ws (l : list ascii) : list ascii :=
  match l with
  | c :: r => if is_ws c then drop_ws r else l
  | [] => []
  end.

Definition trim (l : list ascii) : list ascii :=
  rev (drop_ws (rev (drop_ws l))).

Definition digit_of (base : Z) (c : ascii) : option Z :=
  let n := Z.of_N (N_of_ascii c) in
  let v := if (48 <=? n) && (n <=? 57) then n - 48
           else if (97 <=? n) && (n <=? 102) then n - 87
           else if (65 <=? n) && (n <=? 70) then n - 55
           else base in
  if v <? base then Some v else None.

(** The character of a decimal digit. *)
Definition digit_char (v : Z) : ascii := ascii_of_N (Z.to_N (48 + v)).

(** The longest prefix of digits in [base], and the rest. *)
Fixpoint span_digits (base : Z) (l : list ascii) : list Z * list ascii :=
  match l with
  | c :: r =>
      match digit_of base c with
      | Some d => let '(ds, rest) := span_digits base r in (d :: ds, rest)
      | None => ([], l)
      end
  | [] => ([], [])
  end.

Definition digits_value (base : Z) (ds : list Z) : Z :=
  fold_left (fun acc d => base * acc + d) ds 0.

(** The double nearest to [m * 10^e], with sign [s]. *)
Definition round_decimal (s : bool) (m e : Z) : number :=
  match m with
  | Zpos p =>
      if 0 <=? e then binary_round prec emax s (Z.to_pos (m * 10 ^ e)) 0
      else
        let '(q, e', l) := SFdiv_core_binary prec emax m 0 (10 ^ (- e)) 0 in
        binary_round_aux prec emax s q e' l
  | _ => S754_zero s
  end.

(** ExponentPart, optional: the exponent it denotes. *)
Definition exponent_part (l : list ascii) : option Z :=
  match l with
  | [] => Some 0
  | c :: r =>
      if (Ascii.eqb c "e" || Ascii.eqb c "E")%char then
        let '(neg, r') :=
          match r with
          | s :: t =>
              if Ascii.eqb s "-"%char then (true, t)
              else if Ascii.eqb s "+"%char then (false, t)
              else (false, r)
          | [] => (false, r)
          end in
        match span_digits 10 r' with
        | ((_ :: _) as ds, []) =>
            Some (if neg then - digits_value 10 ds else digits_value 10 ds)
        | _ => None
        end
      else None
  end.

Definition Infinity_chars : list ascii := chars "Infinity".

(** StrUnsignedDecimalLiteral with sign [s] already read. *)
Definition unsigned_decimal (s : bool) (l : list ascii) : number :=
  if decide (l = Infinity_chars) then S754_infinity s
  else
    let '(ip, r1) := span_digits 10 l in
    match r1 with
    | c :: r2 =>
        if Ascii.eqb c "."%char then
          let '(fp, r3) := span_digits 10 r2 in
          match ip, fp with
          | [], [] => S754_nan
          | _, _ =>
              match exponent_part r3 with
              | Some e =>
                  round_decimal s (digits_value 10 (ip ++ fp))
                                (e - Z.of_nat (length fp))
              | None => S754_nan
              end
          end
        else
          match ip, exponent_part r1 with
          | _ :: _, Some e => round_decimal s (digits_value 10 ip) e
          | _, _ => S754_nan
          end
    | [] =>
        match ip with
        | [] => S754_nan
        | _ => round_decimal s (digits_value 10 ip) 0
        end
    end.

(** NonDecimalIntegerLiteral: [0b], [0o] or [0x] and digits of that base. *)
Definition non_decimal (l : list ascii) : option number :=
  match l with
  | z :: p :: r =>
      if Ascii.eqb z "0"%char then
        let base :=
          if (Ascii.eqb p "x" || Ascii.eqb p "X")%char then Some 16
          else if (Ascii.eqb p "o" || Ascii.eqb p "O")%char then Some 8
          else if (Ascii.eqb p "b" || Ascii.eqb p "B")%char then Some 2
          else None in
        match base with
        | Some b =>
            match span_digits b r with
            | ((_ :: _) as ds, []) => Some (of_Z (digits_value b ds))
            | _ => Some S754_nan
            end
        | None => None
        end
      else None
  | _ => None
  end.

Definition Number (str : string) : number :=
  match trim (chars str) with
  | [] => pzero
  | (c :: r) as l =>
      match non_decimal l with
      | Some x => x
      | None =>
          if Ascii.eqb c "-"%char then unsigned_decimal true r
          else if Ascii.eqb c "+"%char then unsigned_decimal false r
          else unsigned_decimal false l
      end
  end.

(** The integer that a string of decimal digits denotes. *)
Definition decimal (s : string) : option Z :=
  match span_digits 10 (chars s) with
  | ((_ :: _) as ds, []) => Some (digits_value 10 ds)
  | _ => None
  end.

(** *** Strings *)

(** [s.trim()]. *)
Definition String_trim (s : string) : string :=
  string_of_list_ascii (trim (chars s)).

(** [s || null] on a string: the empty string is falsy. *)
Definition or_null (s : string) : option string :=
  if decide (s = "") then None else Some s.

(** White space only. *)
Definition white (l : list ascii) : Prop := List.Forall (fun c => is_ws c = true) l.

(** A cleaned field, [s.trim() || null]: null, or a string that is not empty
    and neither starts nor ends with white space. *)
Definition clean (o : option string) : Prop :=
  match o with
  | None => True
  | Some t =>
      t <> ""
      /\ (forall c r, chars t = c :: r -> is_ws c = false)
      /\ (forall c r, chars t = (r ++ [c])%list -> is_ws c = false)
  end.

(** [stored] is [raw] cleaned: null when [raw] is white space only, else
    [raw] without the white space at its two ends. *)
Definition cleaned (raw : string) (stored : option string) : Prop :=
  clean stored
  /\ (stored = None <-> white (chars raw))
  /\ (forall t, stored = Some t ->
        exists a b, chars raw = (a ++ chars t ++ b)%list /\ white a /\ white b).

(** [x || d] on a string that may be null. *)
Definition or_default (x : option string) (d : string) : string :=
  match x with
  | Some s => if decide (s = "") then d else s
  | None => d
  end.

(** The decimal digits of [n], padded with zeros on the left to [width]. *)
Definition pad (width : nat) (n : Z) : string :=
  let s := toString n in
  string_of_list_ascii (repeat "0"%char (width - String.length s)) +:+ s.

(** [pad width n] shows the digits [ds]. *)
Definition pad_ok (width : nat) (n : Z) (ds : list Z) : bool :=
  String.eqb (pad width n) (string_of_list_ascii (map digit_char ds)).

Definition decimal_digits : list Z := [0; 1; 2; 3; 4; 5; 6; 7; 8; 9]%Z.

(** *** Splitting, [parseInt] and array reads *)

(** [s.split(sep)] for a separator of one character. *)
Fixpoint String_split (sep : ascii) (l : list ascii) : list (list ascii) :=
  match l with
  | [] => [[]]
  | c :: r =>
      if Ascii.eqb c sep then [] :: String_split sep r
      else match String_split sep r with
           | h :: t => (c :: h) :: t
           | [] => [[c]]
           end
  end.

(** [parseInt(s, 10)]: white space, a sign, and the longest run of decimal
    digits; NaN when there is no digit.  The value is rounded to the nearest
    double (beyond twenty digits an engine may round the digits first). *)
Definition parseInt (l : list ascii) : number :=
  let l := drop_ws l in
  let '(sign, l) :=
    match l with
    | c :: r => if Ascii.eqb c "-"%char then (true, r)
                else if Ascii.eqb c "+"%char then (false, r)
                else (false, l)
    | [] => (false, l)
    end in
  match span_digits 10 l with
  | ([], _) => NaN
  | (ds, _) =>
      let v := digits_value 10 ds in
      if sign then (if (v =? 0)%Z then nzero else of_Z (- v)) else of_Z v
  end.

(** The array index that a number names as a property key, if any: the
    number is a whole number that is not negative. *)
Definition index_of (x : number) : option Z :=
  match x with
  | S754_zero _ => Some 0%Z
  | S754_finite false m e =>
      if (0 <=? e)%Z then Some (Zpos m * 2 ^ e)%Z
      else if (Zpos m mod 2 ^ (- e) =? 0)%Z then Some (Zpos m / 2 ^ (- e))%Z
      else None
  | _ => None
  end.

(** [a[x]] on an array: undefined off the array. *)
Definition Array_get {A} (a : list A) (x : number) : option A :=
  match index_of x with
  | Some i => nth_error a (Z.to_nat i)
  | None => None
  end.

(** *** Completions: a value, or a thrown exception *)

Inductive exn :=
| TypeError (message : string)
| RangeError (message : string)
| Error (message : string).

Definition message_of (e : exn) : string :=
  match e with TypeError m | RangeError m | Error m => m end.

Inductive completion (A : Type) :=
| Normal (a : A)
| Throw (e : exn).
Arguments Normal {A} a.
Arguments Throw {A} e.

Definition bind {A B} (c : completion A) (k : A -> completion B) : completion B :=
  match c with
  | Normal a => k a
  | Throw e => Throw e
  end.

Notation "'let*' x := c 'in' k" := (bind c (fun x => k))
  (at level 10, x name, c at level 100, k at level 200) : js_scope.

(** *** Objects used as dictionaries

    An object created by [{}] holds its own properties in creation order and
    inherits the properties of [Object.prototype].  Reading a key that is
    not an own property finds the inherited property when the key names one
    (a function, or the prototype itself for [__proto__]), and [undefined]
    otherwise. *)

Definition prototype_keys : list string :=
  [ "constructor"; "__defineGetter__"; "__defineSetter__"; "hasOwnProperty";
    "__lookupGetter__"; "__lookupSetter__"; "isPrototypeOf";
    "propertyIsEnumerable"; "toString"; "valueOf"; "__proto__";
    "toLocaleString" ].

Definition inherited (k : string) : bool :=
  existsb (String.eqb k) prototype_keys.

Section Objects.
Context {V : Type}.

Definition obj := list (string * V).

Inductive property :=
| Own (v : V)
| Inherited
| Undefined.

Fixpoint own (o : obj) (k : string) : option V :=
  match o with
  | [] => None
  | (k', v) :: r => if String.eqb k' k then Some v else own r k
  end.

(** [o[k]]. *)
Definition get (o : obj) (k : string) : property :=
  match own o k with
  | Some v => Own v
  | None => if inherited k then Inherited else Undefined
  end.

(** [o[k] = v] for a key that is an own property or is not inherited: the
    own property is replaced where it stands, a new one is created last. *)
Fixpoint set (o : obj) (k : string) (v : V) : obj :=
  match o with
  | [] => [(k, v)]
  | (k', v') :: r => if String.eqb k' k then (k', v) :: r else (k', v') :: set r k v
  end.

(** A key is an array index when it is the decimal form of an integer
    between 0 and 2^32 - 2. *)
Definition array_index (k : string) : option Z :=
  match span_digits 10 (chars k) with
  | ((_ :: _) as ds, []) =>
      let n := digits_value 10 ds in
      if (n <=? 4294967294) && String.eqb (toString n) k then Some n else None
  | _ => None
  end.

End Objects.

(** Insertion sort: [x] goes before the first [y] with [before x y]. *)
Section Sort.
Context {A : Type} (before : A -> A -> bool).

Fixpoint insert (x : A) (l : list A) : list A :=
  match l with
  | [] => [x]
  | y :: r => if before x y then x :: l else y :: insert x r
  end.

Definition isort (l : list A) : list A := fold_right insert [] l.

End Sort.

(** [Object.entries(o)]: the own properties, array indices first in
    ascending numeric order, then the other keys in creation order. *)
Definition index_before {V} (x y : string * V) : bool :=
  match array_index (fst x), array_index (fst y) with
  | Some i, Some j => i <=? j
  | _, _ => true
  end.

Definition Object_entries {V} (o : @obj V) : list (string * V) :=
  isort index_before (filter (fun e => is_Some (array_index (fst e))) o)
  ++ filter (fun e => ~ is_Some (array_index (fst e))) o.

(** [a.sort(comparefn)].  The order of the result is fixed by the language
    when [comparefn] is a consistent comparator on the elements; insertion
    sort stands for the engine's algorithm. *)
Definition Array_sort {A} (comparefn : A -> A -> Z) (a : list A) : list A :=
  isort (fun x y => comparefn x y <=? 0) a.

(** *** Dates

    A time value is a number of milliseconds since 1970-01-01T00:00:00Z;
    an invalid date has none.  Days are counted from the same epoch. *)

Module Date.

Definition msPerDay : Z := 86400000.
Definition msPerHour : Z := 3600000.
Definition msPerMinute : Z := 60000.

Definition Day (t : Z) : Z := t / msPerDay.
Definition TimeWithinDay (t : Z) : Z := t mod msPerDay.

(** The day number of the civil date [y]-[m]-[d] ([m] from 1 to 12) in the
    proleptic Gregorian calendar. *)
Definition days_from_civil (y m d : Z) : Z :=
  let y' := if m <=? 2 then y - 1 else y in
  let era := y' / 400 in
  let yoe := y' - era * 400 in
  let doy := (153 * (if 2 <? m then m - 3 else m + 9) + 2) / 5 + d - 1 in
  let doe := yoe * 365 + yoe / 4 - yoe / 100 + doy in
  era * 146097 + doe - 719468.

(** The civil date (year, month from 1 to 12, day of the month) of a day
    number. *)
Definition civil_from_days (z : Z) : Z * Z * Z :=
  let z' := z + 719468 in
  let era := z' / 146097 in
  let doe := z' - era * 146097 in
  let yoe := (doe - doe / 1460 + doe / 36524 - doe / 146096) / 365 in
  let doy := doe - (365 * yoe + yoe / 4 - yoe / 100) in
  let mp := (5 * doy + 2) / 153 in
  let d := doy - (153 * mp + 2) / 5 + 1 in
  let m := if mp <? 10 then mp + 3 else mp - 9 in
  (if m <=? 2 then yoe + era * 400 + 1 else yoe + era * 400, m, d).

Definition YearFromTime (t : Z) : Z := fst (fst (civil_from_days (Day t))).
(** Months count from 0. *)
Definition MonthFromTime (t : Z) : Z := snd (fst (civil_from_days (Day t))) - 1.
Definition DateFromTime (t : Z) : Z := snd (civil_from_days (Day t)).

(** [MakeDay(year, month, date)]: the day number of the first of the month,
    moved by [date - 1] days. *)
Definition MakeDay (year month date : Z) : Z :=
  days_from_civil (year + month / 12) (month mod 12 + 1) 1 + date - 1.

(** The number of days of month [m] (from 1 to 12) of year [y], as
    [of_string] below counts them: from the first of the month to the first
    of the next. *)
Definition days_in_month (y m : Z) : Z :=
  (days_from_civil (y + m / 12) (m mod 12 + 1) 1 - days_from_civil y m 1)%Z.

(** Leap years, and the lengths of the months by the calendar's rule. *)
Definition leap (y : Z) : bool :=
  ((y mod 4 =? 0) && negb (y mod 100 =? 0) || (y mod 400 =? 0))%Z.

Definition month_length (y m : Z) : Z :=
  if (m =? 2)%Z then (if leap y then 29 else 28)%Z
  else if ((m =? 4) || (m =? 6) || (m =? 9) || (m =? 11))%Z then 30%Z
  else 31%Z.

Definition MakeDate (day time : Z) : Z := day * msPerDay + time.

Definition TimeClip (t : Z) : option Z :=
  if Z.abs t <=? 8640000000000000 then Some t else None.

(** The local time zone: its offset from UTC in milliseconds, at a UTC time
    and at a local time. *)
Record TimeZone := {
  offset_at_utc : Z -> Z;
  offset_at_local : Z -> Z;
}.

Definition LocalTime (tz : TimeZone) (t : Z) : Z := t + offset_at_utc tz t.
Definition UTC (tz : TimeZone) (t : Z) : Z := t - offset_at_local tz t.

(** A zone that keeps one offset all year. *)
Definition fixed_zone (offset : Z) : TimeZone :=
  {| offset_at_utc := fun _ => offset; offset_at_local := fun _ => offset |}.

Definition UTC_zone : TimeZone := fixed_zone 0.

(** America/New_York during 2025: UTC-5, and UTC-4 from 2025-03-09T07:00Z
    (02:00 local, skipped to 03:00) until 2025-11-02T06:00Z (02:00 local,
    set back to 01:00).  A local time that does not exist or exists twice
    is read with the offset in force before the transition. *)
Definition New_York_2025 : TimeZone :=
  let est := -5 * msPerHour in
  let edt := -4 * msPerHour in
  let spring := days_from_civil 2025 3 9 * msPerDay in
  let autumn := days_from_civil 2025 11 2 * msPerDay in
  {| offset_at_utc := fun t =>
       if (spring + 7 * msPerHour <=? t) && (t <? autumn + 6 * msPerHour)
       then edt else est;
     offset_at_local := fun t =>
       if (spring + 3 * msPerHour <=? t) && (t <? autumn + 2 * msPerHour)
       then edt else est |}.

(** A [Date] object: its time value, if it is valid. *)
Definition t := option Z.

Definition two_digits (a b : ascii) : option Z :=
  match digit_of 10 a, digit_of 10 b with
  | Some x, Some y => Some (10 * x + y)
  | _, _ => None
  end.

(** [new Date(s)] for the date-only form [YYYY-MM-DD] of a calendar date,
    which is read as midnight UTC.  This is what a date input holds; what
    other strings parse to is left to the engine and is not modelled: they
    yield an invalid date here. *)
Definition of_string (s : string) : t :=
  match chars s with
  | [y1; y2; y3; y4; h1; m1; m2; h2; d1; d2] =>
      match two_digits y1 y2, two_digits y3 y4, two_digits m1 m2, two_digits d1 d2 with
      | Some yh, Some yl, Some m, Some d =>
          let y := 100 * yh + yl in
          if Ascii.eqb h1 "-"%char && Ascii.eqb h2 "-"%char
             && (1 <=? m) && (m <=? 12) && (1 <=? d)
             && (d <=? days_from_civil (y + m / 12) (m mod 12 + 1) 1
                        - days_from_civil y m 1)
          then Some (days_from_civil y m d * msPerDay)
          else None
      | _, _, _, _ => None
      end
  | _ => None
  end.

(** The ISO form of a calendar date: four, two and two digits. *)
Definition date_only (y1 y2 y3 y4 m1 m2 d1 d2 : Z) : string :=
  string_of_list_ascii
    [digit_char y1; digit_char y2; digit_char y3; digit_char y4; "-"%char;
     digit_char m1; digit_char m2; "-"%char; digit_char d1; digit_char d2].

(** [d.getDate()]: the day of the month in local time. *)
Definition getDate (tz : TimeZone) (d : t) : option Z :=
  match d with
  | Some tv => Some (DateFromTime (LocalTime tz tv))
  | None => None
  end.

(** [d.setDate(dt)]: the same local month and time of day, on day [dt] of
    the month (days outside the month carry over). *)
Definition setDate (tz : TimeZone) (d : t) (dt : option Z) : t :=
  match d, dt with
  | Some tv, Some dt =>
      let tl := LocalTime tz tv in
      let newDate :=
        MakeDate (MakeDay (YearFromTime tl) (MonthFromTime tl) dt) (TimeWithinDay tl) in
      TimeClip (UTC tz newDate)
  | _, _ => None
  end.

(** [d.toISOString()]: [YYYY-MM-DDTHH:mm:ss.sssZ] in UTC, the year with a
    sign and six digits outside 0..9999; a RangeError on an invalid date. *)
Definition toISOString (d : t) : completion string :=
  match d with
  | None => Throw (RangeError "Invalid time value")
  | Some tv =>
      let y := YearFromTime tv in
      let w := TimeWithinDay tv in
      let year :=
        if (0 <=? y) && (y <=? 9999) then pad 4 y
        else if y <? 0 then "-" +:+ pad 6 (Z.abs y)
        else "+" +:+ pad 6 y in
      Normal (year +:+ "-" +:+ pad 2 (MonthFromTime tv + 1)
              +:+ "-" +:+ pad 2 (DateFromTime tv)
              +:+ "T" +:+ pad 2 (w / msPerHour)
              +:+ ":" +:+ pad 2 (w mod msPerHour / msPerMinute)
              +:+ ":" +:+ pad 2 (w mod msPerMinute / 1000)
              +:+ "." +:+ pad 3 (w mod 1000) +:+ "Z")
  end.

End Date.

End JS.

Import JS.
Local Open Scope js_scope.

(** ** Cash drawer ([src/pages/CashDrawer.tsx]) *)

Module CashDrawer.

Record CashSession := {
  id : string;
  date : string;
  opening_total : number;
  closing_total : number;
  stall_fee : number;
  payouts : number;
  notes : option string;
}.

(** The face values are integer literals: [value] holds the integer, which
    is read as a double where the code multiplies by it ([of_Z]) and printed
    in decimal where the code calls [toString()]. *)
Record Denom := { label : string; value : Z }.

Definition DENOMS : list Denom :=
  [ {| label := "$100"; value := 100 |};
    {| label := "$50"; value := 50 |};
    {| label := "$20"; value := 20 |};
    {| label := "$10"; value := 10 |};
    {| label := "$5"; value := 5 |};
    {| label := "$1"; value := 1 |} ].

(** [s || d] on the entry of a [Record<string, string>]: [undefined] and the
    empty string are falsy. *)
Definition or_string (o : option string) (d : string) : string :=
  match o with
  | Some s => if decide (s = "") then d else s
  | None => d
  end.

(** The callback of [DENOMS.reduce]. *)
Definition reducer (counts : gmap string string) (sum : number) (d : Denom) : number :=
  let raw := or_string (counts !! toString (value d)) "0" in
  let num := Number raw in
  if isNaN num then sum else sum + num * of_Z (value d).

Definition computeTotal (counts : gmap string string) : number :=
  fold_left (reducer counts) DENOMS pzero.

(** The sum of a list of numbers, added from the left starting at 0. *)
Definition sum_of (terms : list number) : number := fold_left add terms pzero.

(** The count of a denomination as the specification reads it: the entry
    under its face value as a number, and 0 when the entry is missing, empty
    or not numeric. *)
Definition count (counts : gmap string string) (faceValue : Z) : number :=
  match counts !! toString faceValue with
  | None => pzero
  | Some s =>
      if decide (s = "") then pzero
      else if isNaN (Number s) then pzero
      else Number s
  end.

Definition faceValues : list Z := [100; 50; 20; 10; 5; 1]%Z.

(** The total as the specification words it: the sum over the six
    denominations of count times face value. *)
Definition total_spec (counts : gmap string string) : number :=
  sum_of (map (fun v => count counts v * of_Z v) faceValues).

(** What the running sum of the reduction satisfies at every step: it is
    in range, and it is not [-0]. *)
Definition good (sum : number) : Prop := in_range sum /\ sum <> nzero.

(** The counts of the specification's first example. *)
Definition example1 : gmap string string :=
  <["100" := "1"]> (<["20" := "2"]> (<["1" := "5"]> ∅)).

(** [Number(s || 0)] for the fee and payouts fields: the empty field is the
    number 0. *)
Definition Number_or_0 (s : string) : number :=
  if decide (s = "") then pzero else Number s.

(** [x || 0] on a number. *)
Definition or_0 (x : number) : number := if truthy x then x else pzero.

(** What the component derives from its state on every render: the two
    count tables and the text of the fee and payouts fields. *)
Definition openingTotal (openingCounts : gmap string string) : number :=
  computeTotal openingCounts.

Definition closingTotal (closingCounts : gmap string string) : number :=
  computeTotal closingCounts.

Definition stallFeeNum (stallFee : string) : number := Number_or_0 stallFee.

Definition payoutsNum (payouts : string) : number := Number_or_0 payouts.

Definition netCash (openingCounts closingCounts : gmap string string)
    (stallFee payouts : string) : number :=
  closingTotal closingCounts - openingTotal openingCounts
  - stallFeeNum stallFee - payoutsNum payouts.

(** The row [handleSave] inserts; the store adds the [id]. *)
Definition saved_session (openingCounts closingCounts : gmap string string)
    (stallFee payouts date notes new_id : string) : CashSession :=
  {| id := new_id;
     date := date;
     opening_total := openingTotal openingCounts;
     closing_total := closingTotal closingCounts;
     stall_fee := or_0 (stallFeeNum stallFee);
     payouts := or_0 (payoutsNum payouts);
     notes := or_null (String_trim notes) |}.

(** The net cash shown in the table of stored sessions. *)
Definition net (s : CashSession) : number :=
  closing_total s - opening_total s - stall_fee s - payouts s.

(** *** Counts and amounts in whole numbers *)

(** The entry of a face value as an integer: 0 when it is missing or
    empty, the integer its decimal digits denote otherwise. *)
Definition entry (counts : gmap string string) (v : Z) : option Z :=
  match counts !! toString v with
  | None => Some 0%Z
  | Some s => if decide (s = "") then Some 0%Z else decimal s
  end.

(** The field of an amount as an integer. *)
Definition amount (field : string) : option Z :=
  if decide (field = "") then Some 0%Z else decimal field.

(** The total in integers: every count times its face value, added up. *)
Definition integer_total (counts : gmap string string) : option Z :=
  fold_left (fun acc v =>
               match acc, entry counts v with
               | Some a, Some n => Some (a + n * v)%Z
               | _, _ => None
               end) faceValues (Some 0%Z).

(** *** The count fields

    The two drawers' counts, and [handleCountChange(which, denomValue, value)],
    which writes [value] under the key of the face value. *)

Inductive drawer := opening | closing.

Record Counts := {
  openingCounts : gmap string string;
  closingCounts : gmap string string;
}.

Definition handleCountChange (which : drawer) (denomValue : Z) (value : string)
    (s : Counts) : Counts :=
  let key := toString denomValue in
  match which with
  | opening => {| openingCounts := <[key := value]> (openingCounts s);
                  closingCounts := closingCounts s |}
  | closing => {| openingCounts := openingCounts s;
                  closingCounts := <[key := value]> (closingCounts s) |}
  end.

(** The counts of a drawer, and the other drawer. *)
Definition counts_of (which : drawer) (s : Counts) : gmap string string :=
  match which with opening => openingCounts s | closing => closingCounts s end.

Definition other (which : drawer) : drawer :=
  match which with opening => closing | closing => opening end.

(** Five-dollar bills to open with, and the first example's counts at closing. *)
Definition drawer1 : Counts :=
  {| openingCounts := {["5" := "2"]}; closingCounts := example1 |}.

(** [todayStr], the date a session starts with: the first ten characters of
    the ISO string of the time [now]. *)
Definition todayStr (now : Z) : completion string :=
  let* iso := Date.toISOString (Some now) in Normal (substring 0 10 iso).

End CashDrawer.

(** ** Dashboard ([src/pages/Dashboard.tsx]) *)

Module Dashboard.

Record Event := {
  id : string;
  title : string;
  date : string;
  type : option string;
  status : option string;
  location : option string;
}.

Record InventoryItem := {
  item_id : string;
  name : string;
  category : string;
  quantity : number;
  reorder_threshold : number;
}.

Definition isLow (item : InventoryItem) : bool :=
  (reorder_threshold item >? pzero) && (quantity item <=? reorder_threshold item).

Definition lowItems (inventory : list InventoryItem) : list InventoryItem :=
  filter (fun i => isLow i = true) inventory.

(** The tallies are counters of array elements: integers below 2^32, on
    which [+= 1] is exact. *)
Record Counts := {
  total : Z;
  market : Z;
  popup : Z;
  catering : Z;
  booked : Z;
}.

(** [x === "s"] on a [string | null]. *)
Definition equals (x : option string) (s : string) : bool :=
  bool_decide (x = Some s).

(** The body of the [for ... of] loop. *)
Definition tally (counts : Counts) (e : Event) : Counts :=
  let counts :=
    if equals (type e) "market"
    then {| total := total counts; market := market counts + 1; popup := popup counts;
            catering := catering counts; booked := booked counts |}%Z
    else counts in
  let counts :=
    if equals (type e) "popup"
    then {| total := total counts; market := market counts; popup := popup counts + 1;
            catering := catering counts; booked := booked counts |}%Z
    else counts in
  let counts :=
    if equals (type e) "catering"
    then {| total := total counts; market := market counts; popup := popup counts;
            catering := catering counts + 1; booked := booked counts |}%Z
    else counts in
  if equals (status e) "booked"
  then {| total := total counts; market := market counts; popup := popup counts;
          catering := catering counts; booked := booked counts + 1 |}%Z
  else counts.

Definition eventCounts (events : list Event) : Counts :=
  fold_left tally events
    {| total := Z.of_nat (length events); market := 0; popup := 0;
       catering := 0; booked := 0 |}.

(** The item of the specification's third example, at a given threshold. *)
Definition example3 (threshold : Z) : InventoryItem :=
  {| item_id := "i1"; name := "Oat milk"; category := "milk";
     quantity := of_Z 2; reorder_threshold := of_Z threshold |}.

(** Three events of a month. *)
Definition sample_events : list Event :=
  [ {| id := "e1"; title := "Saturday market"; date := "2025-06-07";
       type := Some "market"; status := Some "booked"; location := None |};
    {| id := "e2"; title := "Pop-up"; date := "2025-06-10";
       type := Some "popup"; status := Some "inquiry"; location := Some "Pier" |};
    {| id := "e3"; title := "Wedding"; date := "2025-06-14";
       type := Some "wedding"; status := Some "booked"; location := None |} ].

(** The number of events that satisfy [P]. *)
Definition number_of (P : Event -> Prop) `{!forall e, Decision (P e)}
    (events : list Event) : Z :=
  Z.of_nat (length (filter P events)).

(** *** Goals on the dashboard *)

Record Goal := {
  goal_id : string;
  goal_title : string;
  month : string;
  is_done : bool;
  notes : option string;
}.

Definition openGoals (goals : list Goal) : list Goal :=
  filter (fun g => is_done g = false) goals.

Definition monthNames : list string :=
  [ ""; "January"; "February"; "March"; "April"; "May"; "June"; "July";
    "August"; "September"; "October"; "November"; "December" ].

Definition formatMonthLabel (monthStr : string) : string :=
  let parts := String_split "-" (chars monthStr) in
  match nth_error parts 0, nth_error parts 1 with
  | Some yearStr, Some monthPart =>
      match yearStr, monthPart with
      | [], _ | _, [] => monthStr
      | _, _ =>
          let yearShort := string_of_list_ascii (skipn 2 yearStr) in
          let monthNum := parseInt monthPart in
          let name := or_default (Array_get monthNames monthNum) monthStr in
          name +:+ " " +:+ yearShort
      end
  | _, _ => monthStr
  end.

(** [currentMonthLabel]: the label of the first goal's month, or of the
    current month when there is no goal. *)
Definition currentMonthLabel (goals : list Goal) (today : Date.t)
  : completion string :=
  match goals with
  | anyGoal :: _ => Normal (formatMonthLabel (month anyGoal))
  | [] => let* iso := Date.toISOString today in Normal (formatMonthLabel (substring 0 7 iso))
  end.

(** The name that the table holds for a month part of two digits. *)
Definition name_of (n : Z) : option string :=
  if ((1 <=? n) && (n <=? 12))%Z then nth_error monthNames (Z.to_nat n)
  else if (n =? 0)%Z then Some "" else None.

(** [loadData]'s window of dates: [today] and [in30] are two readings of the
    clock, [now] and [now']; the strings are the bounds of the query. *)
Definition window (tz : Date.TimeZone) (now now' : Z) : completion (string * string) :=
  let today := Some now in
  let in30 := Some now' in
  let in30 := Date.setDate tz in30 (option_map (fun d => d + 30)%Z (Date.getDate tz today)) in
  let* todayIso := Date.toISOString today in
  let todayStr := substring 0 10 todayIso in
  let* in30Iso := Date.toISOString in30 in
  let in30Str := substring 0 10 in30Iso in
  Normal (todayStr, in30Str).

End Dashboard.

(** ** Inventory (the inventory page, second part of [src/auth/RequireAuth.tsx]) *)

Module Inventory.

Record InventoryItem := {
  id : string;
  name : string;
  category : string;
  unit : string;
  quantity : number;
  reorder_threshold : number;
  notes : option string;
}.

Definition isLow (item : InventoryItem) : bool :=
  (reorder_threshold item >? pzero) && (quantity item <=? reorder_threshold item).

Definition lowCount (items : list InventoryItem) : nat :=
  length (filter (fun item =>
                    (reorder_threshold item >? pzero)
                    && (quantity item <=? reorder_threshold item) = true) items).

(** [{ ...i, quantity: q }]. *)
Definition with_quantity (i : InventoryItem) (q : number) : InventoryItem :=
  {| id := id i; name := name i; category := category i; unit := unit i;
     quantity := q; reorder_threshold := reorder_threshold i; notes := notes i |}.

(** The page and the store it talks to: the rows of [inventory_items], the
    component's [items] and [updatingQtyId], and the alerts shown. *)
Record World := {
  rows : list InventoryItem;
  items : list InventoryItem;
  updatingQtyId : option string;
  alerts : list string;
}.

(** [update({ quantity: q }).eq("id", key)] as the store applies it. *)
Definition update_quantity (key : string) (q : number)
    (l : list InventoryItem) : list InventoryItem :=
  map (fun i => if String.eqb (id i) key then with_quantity i q else i) l.

(** [adjustQuantity(item, delta)].  [failure] is the store's answer: the
    error it reports, in which case it has written nothing. *)
Definition newQty (item : InventoryItem) (delta : number) : number :=
  Math_max pzero (quantity item + delta).

Definition adjustQuantity (item : InventoryItem) (delta : number)
    (failure : option string) (w : World) : World :=
  match failure with
  | None =>
      {| rows := update_quantity (id item) (newQty item delta) (rows w);
         items := update_quantity (id item) (newQty item delta) (items w);
         updatingQtyId := None;
         alerts := alerts w |}
  | Some message =>
      {| rows := rows w;
         items := items w;
         updatingQtyId := None;
         alerts := alerts w ++ [if decide (message = "") then "Error updating quantity"
                                else message] |}
  end.


(** An item with nothing left. *)
Definition sold_out : InventoryItem :=
  {| id := "i7"; name := "Vanilla syrup"; category := "syrup"; unit := "bottle";
     quantity := pzero; reorder_threshold := of_Z 2; notes := None |}.

(** Three items in stock, as the store and the page hold them. *)
Definition oat_milk : InventoryItem :=
  {| id := "i3"; name := "Oat milk"; category := "milk"; unit := "carton";
     quantity := of_Z 3; reorder_threshold := of_Z 4; notes := Some "keep cold" |}.

Definition cups : InventoryItem :=
  {| id := "i9"; name := "12 oz cups"; category := "cups"; unit := "sleeve";
     quantity := of_Z 40; reorder_threshold := of_Z 10; notes := None |}.


(** *** Editing an item *)

(** What a quantity field of the form holds: the number that [startEdit]
    put there, or the text typed since. *)
Inductive field :=
| Num (n : number)
| Str (s : string).

(** [x === "" ? 0 : Number(x)]. *)
Definition field_value (x : field) : number :=
  match x with
  | Str s => if decide (s = "") then pzero else Number s
  | Num n => n
  end.

(** The state of the edit form. *)
Record Edit := {
  editingId : option string;
  editName : string;
  editCategory : string;
  editUnit : string;
  editQuantity : field;
  editThreshold : field;
  editNotes : string;
}.

Definition startEdit (item : InventoryItem) : Edit :=
  {| editingId := Some (id item);
     editName := name item;
     editCategory := category item;
     editUnit := unit item;
     editQuantity := Num (quantity item);
     editThreshold := Num (reorder_threshold item);
     editNotes := or_default (notes item) "" |}.

Definition cancelEdit (e : Edit) : Edit :=
  {| editingId := None;
     editName := "";
     editCategory := editCategory e;
     editUnit := "";
     editQuantity := Str "";
     editThreshold := Str "";
     editNotes := "" |}.

(** [{ ...item, name: editName, ... }]. *)
Definition edited (e : Edit) (item : InventoryItem) : InventoryItem :=
  {| id := id item;
     name := editName e;
     category := editCategory e;
     unit := editUnit e;
     quantity := field_value (editQuantity e);
     reorder_threshold := field_value (editThreshold e);
     notes := or_null (String_trim (editNotes e)) |}.

(** [saveEdit(itemId)]: the form and the items afterwards.  [failure] is the
    store's answer. *)
Definition saveEdit (itemId : string) (failure : option string) (e : Edit)
    (items : list InventoryItem) : Edit * list InventoryItem :=
  if decide (editName e = "" \/ editUnit e = "") then (e, items)
  else
    match failure with
    | Some _ => (e, items)
    | None =>
        (cancelEdit e,
         map (fun item => if String.eqb (id item) itemId then edited e item else item)
             items)
    end.

(** Six bottles typed in for the syrup, to be reordered at two. *)
Definition restock : Edit :=
  {| editingId := Some "i7"; editName := "Vanilla syrup"; editCategory := "syrup";
     editUnit := "bottle"; editQuantity := Str "6"; editThreshold := Str "2";
     editNotes := "" |}.

(** *** The list shown *)

(** [filteredItems]: the items shown under the two filters. *)
Definition filteredItems (items : list InventoryItem) (categoryFilter : string)
    (showLowOnly : bool) : list InventoryItem :=
  filter (fun item =>
            (if bool_decide (categoryFilter <> "all")
                && bool_decide (category item <> categoryFilter) then false
             else if showLowOnly && negb (isLow item) then false
             else true) = true) items.

(** [deleteItem(id)], once confirmed.  [failure] is the store's answer. *)
Definition deleteItem (key : string) (failure : option string)
    (items : list InventoryItem) : list InventoryItem :=
  match failure with
  | Some _ => items
  | None => filter (fun i => id i <> key) items
  end.

End Inventory.

(** ** Goals (the goals page, [src/unnamed/part_001]) *)

Module Goals.

Record Goal := {
  id : string;
  title : string;
  month : string;
  is_done : bool;
  notes : option string;
}.

(** The body of the [for ... of] loop on the dictionary [map]:
    [!map[goal.month]] holds only when the read finds nothing, and [push]
    is a method of arrays only. *)
Definition visit (map : @obj (list Goal)) (goal : Goal) : completion (@obj (list Goal)) :=
  if negb (is_done goal) then
    let map :=
      match get map (month goal) with
      | Undefined => set map (month goal) []
      | _ => map
      end in
    match get map (month goal) with
    | Own bucket => Normal (set map (month goal) (bucket ++ [goal])%list)
    | _ => Throw (TypeError "map[goal.month].push is not a function")
    end
  else Normal map.

Fixpoint for_of (goals : list Goal) (map : @obj (list Goal))
  : completion (@obj (list Goal)) :=
  match goals with
  | [] => Normal map
  | goal :: rest => let* map' := visit map goal in for_of rest map'
  end.

(** The comparator [([a], [b]) => (a < b ? -1 : 1)]. *)
Definition by_month (x y : string * list Goal) : Z :=
  if String.ltb (fst x) (fst y) then -1 else 1.

Definition groupActiveByMonth (goals : list Goal)
  : completion (list (string * list Goal)) :=
  let* map := for_of goals [] in
  Normal (Array_sort by_month (Object_entries map)).

Definition completedGoals (goals : list Goal) : list Goal :=
  filter (fun g => is_done g = true) goals.

(** The months the loop can file a goal under: every goal that is not done
    has a month that names no property of [Object.prototype]. *)
Definition fileable (goals : list Goal) : Prop :=
  Forall (fun g => is_done g = false -> inherited (month g) = false) goals.

(** The shape [YYYY-MM] of a month, as the month input writes it. *)
Definition is_year_month (s : string) : bool :=
  match chars s with
  | [y1; y2; y3; y4; h; m1; m2] =>
      forallb (fun c => bool_decide (is_Some (digit_of 10 c))) [y1; y2; y3; y4; m1; m2]
      && Ascii.eqb h "-"%char
  | _ => false
  end.

(** The goals of the specification's fourth example. *)
Definition goal_march : Goal :=
  {| id := "g1"; title := "Order cups"; month := "2025-03"; is_done := false;
     notes := None |}.
Definition goal_january : Goal :=
  {| id := "g2"; title := "Book markets"; month := "2025-01"; is_done := false;
     notes := None |}.
Definition goal_january_done : Goal :=
  {| id := "g3"; title := "Renew permit"; month := "2025-01"; is_done := true;
     notes := None |}.
Definition example4 : list Goal := [goal_march; goal_january; goal_january_done].

(** The goals of month [m] that are not done, in the order of the input. *)
Definition active_in (m : string) (goals : list Goal) : list Goal :=
  filter (fun g => is_done g = false /\ month g = m) goals.


(** *** The page's handlers *)

(** [{ ...g, is_done: b }]. *)
Definition with_done (g : Goal) (b : bool) : Goal :=
  {| id := id g; title := title g; month := month g; is_done := b; notes := notes g |}.

(** [toggleDone(goal)]: the list of goals afterwards.  [failure] is the
    store's answer; on an error the list stays as it is. *)
Definition toggleDone (goal : Goal) (failure : option string) (goals : list Goal)
  : list Goal :=
  match failure with
  | Some _ => goals
  | None =>
      map (fun g => if String.eqb (id g) (id goal)
                    then with_done g (negb (is_done goal)) else g) goals
  end.

(** Whether the page says that there are no goals yet:
    [!loading && activeByMonth.length === 0 && completedGoals.length === 0]. *)
Definition no_goals_yet (loading : bool) (activeByMonth : list (string * list Goal))
    (completedGoals : list Goal) : bool :=
  negb loading && (length activeByMonth =? 0)%nat && (length completedGoals =? 0)%nat.

(** [formatMonthLabel], the page's own copy. *)
Definition monthNames : list string :=
  [ ""; "January"; "February"; "March"; "April"; "May"; "June"; "July";
    "August"; "September"; "October"; "November"; "December" ].

Definition formatMonthLabel (monthStr : string) : string :=
  let parts := String_split "-" (chars monthStr) in
  match nth_error parts 0, nth_error parts 1 with
  | Some yearStr, Some monthPart =>
      match yearStr, monthPart with
      | [], _ | _, [] => monthStr
      | _, _ =>
          let yearShort := string_of_list_ascii (skipn 2 yearStr) in
          let monthNum := parseInt monthPart in
          let name := or_default (Array_get monthNames monthNum) monthStr in
          name +:+ " " +:+ yearShort
      end
  | _, _ => monthStr
  end.

End Goals.

(** ** New event (the new-event page, [src/unnamed/part_000]) *)

Module NewEvent.

Definition EVENT_TYPES : list (string * string) :=
  [ ("market", "Farmers Market"); ("wedding", "Wedding");
    ("corporate", "Corporate"); ("private", "Private Event");
    ("popup", "Pop-up"); ("other", "Other") ].

Definition STATUS_OPTIONS : list (string * string) :=
  [ ("inquiry", "Inquiry"); ("proposal_sent", "Proposal Sent");
    ("booked", "Booked"); ("completed", "Completed");
    ("cancelled", "Cancelled") ].

(** [addDays(date, days)]: [new Date(date)] copies the time value. *)
Definition addDays (tz : Date.TimeZone) (date : Date.t) (days : Z) : Date.t :=
  let d := date in
  Date.setDate tz d (option_map (fun n => n + days)%Z (Date.getDate tz d)).

(** [formatDateForDB(date)]: the first ten characters of the ISO string. *)
Definition formatDateForDB (date : Date.t) : completion string :=
  let* s := Date.toISOString date in Normal (substring 0 10 s).

Record NewEventRow := {
  title : string;
  date : string;
  location : string;
  type : string;
  client_name : option string;
  client_email : option string;
  client_phone : option string;
  status : string;
  notes : option string;
}.

(** The state of the form. *)
Record Form := {
  title_field : string;
  date_field : string;
  location_field : string;
  eventType : string;
  clientName : string;
  clientEmail : string;
  clientPhone : string;
  status_field : string;
  notes_field : string;
  isRecurring : bool;
  weeks : number;
}.

(** A row of the batch: every field from the form, and the given date. *)
Definition row (f : Form) (date : string) : NewEventRow :=
  {| title := title_field f;
     date := date;
     location := location_field f;
     type := eventType f;
     client_name := or_null (String_trim (clientName f));
     client_email := or_null (String_trim (clientEmail f));
     client_phone := or_null (String_trim (clientPhone f));
     status := status_field f;
     notes := or_null (String_trim (notes_field f)) |}.

(** [Math.max(1, weeks || 1)]. *)
Definition totalWeeks (f : Form) : number :=
  Math_max (of_Z 1) (if truthy (weeks f) then weeks f else of_Z 1).

(** The loop [for (let i = 0; i < totalWeeks; i++)], from [i] on, with the
    rows pushed so far.  [fuel] bounds the number of iterations: the loop
    does not end when [totalWeeks] is infinite. *)
Fixpoint weekly (tz : Date.TimeZone) (f : Form) (baseDate : Date.t)
    (fuel : nat) (i : Z) (eventsToInsert : list NewEventRow)
  : option (completion (list NewEventRow)) :=
  match fuel with
  | O => None
  | S fuel' =>
      if of_Z i <? totalWeeks f then
        let nextDate := addDays tz baseDate (i * 7) in
        match formatDateForDB nextDate with
        | Normal s => weekly tz f baseDate fuel' (i + 1) (eventsToInsert ++ [row f s])%list
        | Throw e => Some (Throw e)
        end
      else Some (Normal eventsToInsert)
  end.

(** The batch that [handleSubmit] hands to [insert]. *)
Definition eventsToInsert (tz : Date.TimeZone) (fuel : nat) (f : Form)
  : option (completion (list NewEventRow)) :=
  if decide (date_field f = "") then Some (Throw (Error "Please pick a date."))
  else
    let baseDate := Date.of_string (date_field f) in
    if isRecurring f then weekly tz f baseDate fuel 0 []
    else Some (let* s := formatDateForDB baseDate in Normal [row f s]).

(** How a submission ends: the rows are inserted and the page moves to the
    event list, or an error message is shown. *)
Inductive outcome :=
| Inserted (rows : list NewEventRow)
| Failed (error : string).

(** [handleSubmit].  [failure] is the store's answer to the insert. *)
Definition handleSubmit (tz : Date.TimeZone) (fuel : nat) (f : Form)
    (failure : option string) : option outcome :=
  match eventsToInsert tz fuel f with
  | None => None
  | Some (Normal rows) =>
      match failure with
      | None => Some (Inserted rows)
      | Some message =>
          Some (Failed (if decide (message = "") then "Something went wrong" else message))
      end
  | Some (Throw e) =>
      Some (Failed (if decide (message_of e = "") then "Something went wrong"
                    else message_of e))
  end.

(** A weekly market entered for Wednesday 2025-03-05, for two weeks. *)
Definition two_weeks : Form :=
  {| title_field := "Farmers market"; date_field := "2025-03-05";
     location_field := "Main St"; eventType := "market";
     clientName := ""; clientEmail := ""; clientPhone := "";
     status_field := "booked"; notes_field := "";
     isRecurring := true; weeks := of_Z 2 |}.

(** A wedding entered for Sunday 2025-03-09, the day the clocks change in
    New York. *)
Definition one_off : Form :=
  {| title_field := "Wedding"; date_field := "2025-03-09";
     location_field := "Town hall"; eventType := "wedding";
     clientName := " Ana "; clientEmail := ""; clientPhone := "";
     status_field := "booked"; notes_field := "";
     isRecurring := false; weeks := of_Z 4 |}.

(** The time of a row's date, [days] days after the time [t0]. *)
Definition dated (t0 : Z) (days : Z) (r : NewEventRow) : Prop :=
  formatDateForDB (Some (t0 + days * Date.msPerDay)%Z) = Normal (date r).

End NewEvent.

(** ** Editing an event ([src/pages/EditEvent.tsx]) *)

Module EditEvent.

(** A row of [events] as the store returns it: any column may be null. *)
Record Data := {
  title : option string;
  date : option string;
  location : option string;
  type : option string;
  client_name : option string;
  client_email : option string;
  client_phone : option string;
  status : option string;
  notes : option string;
}.

(** The state of the form. *)
Record Form := {
  title_field : string;
  date_field : string;
  location_field : string;
  eventType : string;
  clientName : string;
  clientEmail : string;
  clientPhone : string;
  status_field : string;
  notes_field : string;
}.

(** [loadEvent]: what the form holds once the row is loaded. *)
Definition loadEvent (data : Data) : Form :=
  {| title_field := or_default (title data) "";
     date_field := or_default (date data) "";
     location_field := or_default (location data) "";
     eventType := or_default (type data) "market";
     clientName := or_default (client_name data) "";
     clientEmail := or_default (client_email data) "";
     clientPhone := or_default (client_phone data) "";
     status_field := or_default (status data) "inquiry";
     notes_field := or_default (notes data) "" |}.

(** The columns that [handleSubmit] writes. *)
Definition update (f : Form) : NewEvent.NewEventRow :=
  {| NewEvent.title := title_field f;
     NewEvent.date := date_field f;
     NewEvent.location := location_field f;
     NewEvent.type := eventType f;
     NewEvent.client_name := or_null (String_trim (clientName f));
     NewEvent.client_email := or_null (String_trim (clientEmail f));
     NewEvent.client_phone := or_null (String_trim (clientPhone f));
     NewEvent.status := status_field f;
     NewEvent.notes := or_null (String_trim (notes_field f)) |}.

(** A row that [NewEvent] inserted, as the store returns it. *)
Definition stored (r : NewEvent.NewEventRow) : Data :=
  {| title := Some (NewEvent.title r);
     date := Some (NewEvent.date r);
     location := Some (NewEvent.location r);
     type := Some (NewEvent.type r);
     client_name := NewEvent.client_name r;
     client_email := NewEvent.client_email r;
     client_phone := NewEvent.client_phone r;
     status := Some (NewEvent.status r);
     notes := NewEvent.notes r |}.

End EditEvent.

(** * Facts *)

Local Open Scope list_scope.

(** ** Rounding and the arithmetic of doubles *)

Module Float.

Lemma fexp_emin k : emin <= fexp k.
Proof. unfold fexp, SpecFloat.fexp, emin. lia. Qed.

Lemma fexp_cases k : fexp k = (k - prec)%Z \/ fexp k = emin.
Proof. unfold fexp, SpecFloat.fexp, emin. lia. Qed.

Lemma digits2_pos_lower p : (2 ^ (Zpos (digits2_pos p) - 1) <= Zpos p)%Z.
Proof.
  induction p as [p IH | p IH |]; simpl digits2_pos.
  - rewrite Pos2Z.inj_succ.
    replace (Z.succ (Zpos (digits2_pos p)) - 1)%Z
      with (Z.succ (Zpos (digits2_pos p) - 1)) by lia.
    rewrite Z.pow_succ_r by lia. lia.
  - rewrite Pos2Z.inj_succ.
    replace (Z.succ (Zpos (digits2_pos p)) - 1)%Z
      with (Z.succ (Zpos (digits2_pos p) - 1)) by lia.
    rewrite Z.pow_succ_r by lia. lia.
  - simpl. lia.
Qed.

(** One step of [shr] halves a non-negative mantissa. *)
Lemma shr_1_m r : 0 <= shr_m r -> shr_m (shr_1 r) = (shr_m r / 2)%Z.
Proof.
  destruct r as [m b s]; simpl. intros Hm.
  destruct m as [| p | p]; [reflexivity | | lia].
  destruct p as [p | p |]; simpl shr_m.
  - rewrite Pos2Z.inj_xI. apply Z.div_unique with 1; lia.
  - rewrite Pos2Z.inj_xO. apply Z.div_unique with 0; lia.
  - reflexivity.
Qed.

Lemma iter_shr_1_m p : forall r,
  0 <= shr_m r -> shr_m (SpecFloat.iter_pos shr_1 p r) = (shr_m r / 2 ^ Zpos p)%Z.
Proof.
  induction p as [p IH | p IH |]; intros r Hr; simpl SpecFloat.iter_pos.
  - assert (H1 : 0 <= shr_m (shr_1 r))
      by (rewrite shr_1_m by assumption; apply Z.div_pos; lia).
    assert (H2 : 0 <= shr_m (SpecFloat.iter_pos shr_1 p (shr_1 r)))
      by (rewrite IH by assumption; apply Z.div_pos; lia).
    rewrite IH, IH, shr_1_m by assumption.
    rewrite !Z.div_div by lia. f_equal.
    rewrite Pos2Z.inj_xI, Z.pow_add_r, Z.pow_1_r by lia.
    replace (2 * Zpos p)%Z with (Zpos p + Zpos p)%Z by lia.
    rewrite Z.pow_add_r by lia. lia.
  - assert (H2 : 0 <= shr_m (SpecFloat.iter_pos shr_1 p r))
      by (rewrite IH by assumption; apply Z.div_pos; lia).
    rewrite IH, IH by assumption.
    rewrite Z.div_div by lia. f_equal.
    rewrite <- Z.pow_add_r by lia. f_equal. lia.
  - apply shr_1_m. assumption.
Qed.

Lemma shr_record_of_loc_m m l : shr_m (shr_record_of_loc m l) = m.
Proof. destruct l as [| []]; reflexivity. Qed.

(** The exponent that [shr_fexp] returns is never below [emin]. *)
Lemma shr_fexp_emin m e l : emin <= snd (shr_fexp prec emax m e l).
Proof.
  unfold shr_fexp, shr.
  pose proof (fexp_emin (Zdigits2 m + e)) as H. unfold fexp in H.
  destruct (SpecFloat.fexp prec emax (Zdigits2 m + e) - e)%Z eqn:Hn; simpl; lia.
Qed.

Lemma shr_fexp_nonneg m e l : 0 <= m -> 0 <= shr_m (fst (shr_fexp prec emax m e l)).
Proof.
  intros Hm. unfold shr_fexp, shr.
  destruct (SpecFloat.fexp prec emax (Zdigits2 m + e) - e)%Z eqn:Hn; simpl;
    rewrite ?iter_shr_1_m; rewrite ?shr_record_of_loc_m; try lia.
  apply Z.div_pos; lia.
Qed.

(** A positive mantissa whose exponent is in range is not shifted away. *)
Lemma shr_fexp_pos m e l :
  0 < m -> emin <= e -> 0 < shr_m (fst (shr_fexp prec emax m e l)).
Proof.
  intros Hm He. unfold shr_fexp, shr.
  destruct (SpecFloat.fexp prec emax (Zdigits2 m + e) - e)%Z eqn:Hn; simpl;
    rewrite ?iter_shr_1_m; rewrite ?shr_record_of_loc_m; try lia.
  destruct m as [| q | q]; try lia. simpl Zdigits2 in Hn.
  pose proof (digits2_pos_lower q) as Hq.
  destruct (fexp_cases (Zpos (digits2_pos q) + e)) as [Hf | Hf];
    unfold fexp in Hf; rewrite Hf in Hn; [| lia].
  assert (Hp : Zpos p <= Zpos (digits2_pos q) - 1) by (unfold prec in Hn; lia).
  apply Z.div_str_pos. split; [apply Z.pow_pos_nonneg; lia |].
  eapply Z.le_trans; [| exact Hq]. apply Z.pow_le_mono_r; lia.
Qed.

Lemma round_nearest_even_ge m l : m <= round_nearest_even m l.
Proof. destruct l as [| []]; simpl; try lia. destruct (Z.even m); lia. Qed.

Lemma binary_round_aux_rounded s m e l :
  0 <= m -> rounded s (binary_round_aux prec emax s m e l).
Proof.
  intros Hm. unfold binary_round_aux.
  pose proof (shr_fexp_nonneg m e l Hm) as H1.
  destruct (shr_fexp prec emax m e l) as [mrs' e'] eqn:E1. simpl in H1.
  pose proof (round_nearest_even_ge (shr_m mrs') (loc_of_shr_record mrs')) as H2.
  set (m1 := round_nearest_even (shr_m mrs') (loc_of_shr_record mrs')) in *.
  pose proof (shr_fexp_nonneg m1 e' loc_Exact ltac:(lia)) as H3.
  pose proof (shr_fexp_emin m1 e' loc_Exact) as H4.
  destruct (shr_fexp prec emax m1 e' loc_Exact) as [mrs'' e''] eqn:E2. simpl in H3, H4.
  destruct (shr_m mrs'') as [| q | q]; try lia.
  - constructor.
  - destruct (e'' <=? emax - prec)%Z; constructor. assumption.
Qed.

Lemma binary_round_aux_nonzero s m e l :
  0 < m -> emin <= e ->
  forall s', binary_round_aux prec emax s m e l <> S754_zero s'.
Proof.
  intros Hm He s'. unfold binary_round_aux.
  pose proof (shr_fexp_pos m e l Hm He) as H1.
  pose proof (shr_fexp_emin m e l) as H1'.
  destruct (shr_fexp prec emax m e l) as [mrs' e'] eqn:E1. simpl in H1, H1'.
  pose proof (round_nearest_even_ge (shr_m mrs') (loc_of_shr_record mrs')) as H2.
  set (m1 := round_nearest_even (shr_m mrs') (loc_of_shr_record mrs')) in *.
  pose proof (shr_fexp_pos m1 e' loc_Exact ltac:(lia) H1') as H3.
  destruct (shr_fexp prec emax m1 e' loc_Exact) as [mrs'' e''] eqn:E2. simpl in H3.
  destruct (shr_m mrs'') as [| q | q]; try lia.
  destruct (e'' <=? emax - prec)%Z; discriminate.
Qed.

Lemma shl_align_emin m e e' :
  emin <= e -> emin <= e' -> emin <= snd (shl_align m e e').
Proof. intros. unfold shl_align. destruct (e' - e)%Z; simpl; lia. Qed.

Lemma binary_round_rounded s m e : rounded s (binary_round prec emax s m e).
Proof.
  unfold binary_round.
  destruct (shl_align m e _) as [mz ez]. apply binary_round_aux_rounded. lia.
Qed.

Lemma binary_round_nonzero s m e s' :
  emin <= e -> binary_round prec emax s m e <> S754_zero s'.
Proof.
  intros He. unfold binary_round.
  pose proof (shl_align_emin m e (SpecFloat.fexp prec emax (Zpos (digits2_pos m) + e)) He
                (fexp_emin _)) as H.
  destruct (shl_align m e _) as [mz ez]. simpl in H.
  apply binary_round_aux_nonzero; lia.
Qed.

Lemma rounded_in_range s x : rounded s x -> in_range x.
Proof. destruct 1; simpl; auto. Qed.

Lemma mul_in_range x y : in_range (x * y).
Proof.
  destruct x as [sx | sx | | sx mx ex], y as [sy | sy | | sy my ey]; simpl; auto.
  eapply rounded_in_range, binary_round_aux_rounded. lia.
Qed.

Lemma binary_normalize_rounded z e :
  exists s, rounded s (binary_normalize prec emax z e false).
Proof.
  destruct z; simpl.
  - exists false. constructor.
  - exists false. apply binary_round_rounded.
  - exists true. apply binary_round_rounded.
Qed.

Lemma add_in_range x y : in_range x -> in_range y -> in_range (x + y).
Proof.
  destruct x as [sx | sx | | sx mx ex], y as [sy | sy | | sy my ey]; simpl; auto;
    try (destruct sx, sy; simpl; auto; fail).
  intros _ _. destruct (binary_normalize_rounded
    (cond_Zopp sx (Zpos (fst (shl_align mx ex (Z.min ex ey))))
     + cond_Zopp sy (Zpos (fst (shl_align my ey (Z.min ex ey)))))%Z (Z.min ex ey)) as [s H].
  eapply rounded_in_range, H.
Qed.

(** Adding [+0] changes nothing but [-0]. *)
Lemma add_pzero x : x <> nzero -> x + pzero = x.
Proof. unfold nzero. destruct x as [[] | | |]; simpl; congruence. Qed.

(** A sum is [-0] only when its first term is. *)
Lemma add_not_nzero x y :
  in_range x -> in_range y -> x <> nzero -> x + y <> nzero.
Proof.
  destruct x as [sx | sx | | sx mx ex], y as [sy | sy | | sy my ey]; simpl;
    unfold nzero; try congruence;
    try (destruct sx; try destruct sy; simpl; congruence).
  intros Hx Hy _.
  destruct (cond_Zopp sx (Zpos (fst (shl_align mx ex (Z.min ex ey))))
            + cond_Zopp sy (Zpos (fst (shl_align my ey (Z.min ex ey)))))%Z; simpl.
  - discriminate.
  - apply binary_round_nonzero; lia.
  - apply binary_round_nonzero; lia.
Qed.

Lemma nonneg_iff x :
  nonneg x <->
  match x with
  | S754_zero _ | S754_infinity false | S754_finite false _ _ => True
  | _ => False
  end.
Proof.
  unfold nonneg, geb, SFleb, pzero.
  destruct x as [[] | [] | | [] m e]; simpl; intuition discriminate.
Qed.

Lemma rounded_nonneg x : rounded false x -> nonneg x.
Proof. intros H. apply nonneg_iff. destruct H; exact I. Qed.

Lemma mul_nonneg x m e : nonneg x -> nonneg (x * S754_finite false m e).
Proof.
  intros Hx. apply nonneg_iff in Hx.
  destruct x as [sx | [] | | [] mx ex]; try contradiction; simpl.
  - apply nonneg_iff. exact I.
  - apply nonneg_iff. exact I.
  - apply rounded_nonneg, binary_round_aux_rounded. lia.
Qed.

Lemma add_nonneg x y : nonneg x -> nonneg y -> nonneg (x + y).
Proof.
  intros Hx Hy. apply nonneg_iff in Hx, Hy.
  destruct x as [sx | [] | | [] mx ex]; try contradiction;
    destruct y as [sy | [] | | [] my ey]; try contradiction;
    try (apply nonneg_iff; simpl; try destruct sx; try destruct sy; exact I).
  simpl. apply rounded_nonneg. apply binary_round_rounded.
Qed.

End Float.

(** ** Cash drawer *)

Module CashDrawerFacts.
Import CashDrawer Float.

Lemma Number_0 : Number "0" = pzero.
Proof. reflexivity. Qed.

(** Every face value is a positive finite double. *)
Lemma faceValue_finite d :
  In d DENOMS -> exists m e, of_Z (value d) = S754_finite false m e.
Proof.
  intros Hd. repeat (destruct Hd as [<- | Hd]; [vm_compute; eauto |]).
  destruct Hd.
Qed.

Lemma faceValues_DENOMS : faceValues = map value DENOMS.
Proof. reflexivity. Qed.

(** The key under which a denomination is read. *)
Lemma key_in d :
  In d DENOMS -> In (toString (value d)) ["100"; "50"; "20"; "10"; "5"; "1"].
Proof.
  intros Hd. repeat (destruct Hd as [<- | Hd]; [vm_compute; tauto |]).
  destruct Hd.
Qed.

Lemma good_pzero : good pzero.
Proof. split; [exact I | discriminate]. Qed.

Lemma good_add sum x y : good sum -> good (sum + x * y).
Proof.
  intros [Hr Hz]. split.
  - apply add_in_range; [assumption | apply mul_in_range].
  - apply add_not_nzero; [assumption | apply mul_in_range | assumption].
Qed.

Lemma reducer_good counts sum d : good sum -> good (reducer counts sum d).
Proof.
  intros H. unfold reducer. destruct (isNaN _); [assumption | now apply good_add].
Qed.

(** One step of the reduction adds the count times the face value. *)
Lemma reducer_spec counts sum d :
  In d DENOMS -> good sum ->
  reducer counts sum d = sum + count counts (value d) * of_Z (value d).
Proof.
  intros Hd [_ Hz]. destruct (faceValue_finite d Hd) as (m & e & Hv).
  assert (Hskip : sum = sum + pzero * of_Z (value d)).
  { rewrite Hv. simpl. symmetry. now apply add_pzero. }
  unfold reducer, count, or_string.
  destruct (counts !! toString (value d)) as [s |].
  - destruct (decide (s = "")); [rewrite Number_0; reflexivity |].
    destruct (isNaN (Number s)); [exact Hskip | reflexivity].
  - rewrite Number_0. reflexivity.
Qed.

Lemma fold_reducer counts ds : forall sum,
  incl ds DENOMS -> good sum ->
  fold_left (reducer counts) ds sum
  = fold_left add (map (fun d => count counts (value d) * of_Z (value d)) ds) sum.
Proof.
  induction ds as [| d ds IH]; intros sum Hin Hs; [reflexivity |].
  simpl. rewrite <- (reducer_spec counts sum d) by (auto with datatypes).
  apply IH; [intros x Hx; apply Hin; now right | now apply reducer_good].
Qed.

Lemma computeTotal_good counts : good (computeTotal counts).
Proof.
  unfold computeTotal. generalize good_pzero. generalize pzero.
  induction DENOMS as [| d ds IH]; intros sum Hs; [assumption |].
  simpl. apply IH. now apply reducer_good.
Qed.

(** C2. For every table of counts, the total is the sum over the six
    denominations 100, 50, 20, 10, 5 and 1 of count times face value, a
    missing, empty or non-numeric entry counting as 0; the counts
    [{100: 1, 20: 2, 1: 5}] total 145. *)
Theorem computeTotal_sum :
  (forall counts, computeTotal counts = total_spec counts)
  /\ computeTotal example1 = of_Z 145.
Proof.
  split; [| reflexivity].
  intros counts. unfold computeTotal, total_spec, sum_of.
  rewrite fold_reducer by (auto using good_pzero with datatypes).
  rewrite faceValues_DENOMS, map_map. reflexivity.
Qed.

(** Entries that are numbers below zero make the total negative. *)
Lemma computeTotal_negative :
  computeTotal {["1" := "-1"]} = of_Z (-1)
  /\ (computeTotal {["1" := "-1"]} >=? pzero) = false.
Proof. split; reflexivity. Qed.

Lemma reducer_nonneg counts sum d :
  In d DENOMS ->
  (forall s, counts !! toString (value d) = Some s ->
             isNaN (Number s) = true \/ nonneg (Number s)) ->
  nonneg sum -> nonneg (reducer counts sum d).
Proof.
  intros Hd Hc Hs. destruct (faceValue_finite d Hd) as (m & e & Hv).
  unfold reducer. destruct (isNaN _) eqn:Hnan; [assumption |].
  apply add_nonneg; [assumption |]. rewrite Hv. apply mul_nonneg.
  revert Hnan. unfold or_string.
  destruct (counts !! toString (value d)) as [s |]; [| reflexivity].
  destruct (decide (s = "")); [reflexivity |].
  intros Hnan. destruct (Hc s eq_refl) as [H | H]; [congruence | assumption].
Qed.

Lemma fold_reducer_nonneg counts ds : forall sum,
  incl ds DENOMS ->
  (forall v s, In v faceValues -> counts !! toString v = Some s ->
               isNaN (Number s) = true \/ nonneg (Number s)) ->
  nonneg sum -> nonneg (fold_left (reducer counts) ds sum).
Proof.
  induction ds as [| d ds IH]; intros sum Hin H Hs; [exact Hs |].
  simpl. apply IH; [intros x Hx; apply Hin; now right | assumption |].
  apply reducer_nonneg; [apply Hin; now left | | assumption].
  intros s. apply H. rewrite faceValues_DENOMS. apply in_map, Hin. now left.
Qed.

(** C3, as the code has it. When every entry under a face value is
    missing, empty, not numeric or a number that is at least 0, the total
    is at least 0. *)
Theorem computeTotal_nonneg (counts : gmap string string) :
  (forall v s, In v faceValues -> counts !! toString v = Some s ->
               isNaN (Number s) = true \/ (Number s >=? pzero) = true) ->
  (computeTotal counts >=? pzero) = true.
Proof.
  intros H. apply fold_reducer_nonneg; [apply incl_refl | exact H | reflexivity].
Qed.

Lemma computeTotal_nonneg_witness :
  (computeTotal example1 >=? pzero) = true.
Proof.
  apply (computeTotal_nonneg example1).
  intros v s Hv Hs.
  repeat (destruct Hv as [<- | Hv];
          [vm_compute in Hs; first [discriminate | injection Hs as <-; now right] |]).
  destruct Hv.
Defined.

(** C9. The total reads only the entries under the six keys "100", "50",
    "20", "10", "5" and "1": two tables that agree on them have the same
    total. *)
Theorem computeTotal_only_denominations (c1 c2 : gmap string string) :
  (forall k, In k ["100"; "50"; "20"; "10"; "5"; "1"] -> c1 !! k = c2 !! k) ->
  computeTotal c1 = computeTotal c2.
Proof.
  intros H. unfold computeTotal.
  assert (Hin : incl DENOMS DENOMS) by apply incl_refl. revert Hin.
  generalize pzero. generalize DENOMS at 1 3 4.
  intros ds. induction ds as [| d ds IH]; intros sum Hin; [reflexivity |].
  simpl. replace (reducer c2 sum d) with (reducer c1 sum d).
  - apply IH. intros x Hx. apply Hin. now right.
  - unfold reducer. rewrite (H (toString (value d))); [reflexivity |].
    apply key_in, Hin. now left.
Qed.

Lemma computeTotal_only_denominations_witness :
  computeTotal (<["2" := "7"]> example1) = computeTotal (<["note" := "x"]> example1).
Proof.
  apply computeTotal_only_denominations.
  intros k Hk. repeat (destruct Hk as [<- | Hk]; [reflexivity |]).
  destruct Hk.
Defined.

(** C1. Net cash is the closing total less the opening total, the fee and
    the payouts, for every pair of count tables and every fee and payouts
    field; opening [{5: 2}], closing [{10: 3}], fee 2 and payouts 3 give 15;
    the net shown for a stored session is the same formula on its four
    stored components. *)
Theorem netCash_formula :
  (forall openingCounts closingCounts stallFee payouts,
     netCash openingCounts closingCounts stallFee payouts
     = computeTotal closingCounts - computeTotal openingCounts
       - Number_or_0 stallFee - Number_or_0 payouts)
  /\ (computeTotal {["5" := "2"]} = of_Z 10
      /\ computeTotal {["10" := "3"]} = of_Z 30
      /\ netCash {["5" := "2"]} {["10" := "3"]} "2" "3" = of_Z 15)
  /\ (forall s : CashSession,
        net s = closing_total s - opening_total s - stall_fee s - CashDrawer.payouts s).
Proof.
  split; [| split; [repeat split |]]; reflexivity.
Qed.

End CashDrawerFacts.

(** ** Dashboard and inventory *)

Module DashboardFacts.
Import Dashboard.

Lemma number_of_cons (P : Event -> Prop) `{!forall e, Decision (P e)} e events :
  number_of P (e :: events)
  = ((if decide (P e) then 1 else 0) + number_of P events)%Z.
Proof.
  unfold number_of. rewrite filter_cons.
  destruct (decide (P e)); simpl length; lia.
Qed.

Lemma equals_decide x s : equals x s = bool_decide (x = Some s).
Proof. reflexivity. Qed.

(** The loop adds to each tally the number of events it counts. *)
Lemma fold_tally events : forall counts,
  fold_left tally events counts
  = {| total := total counts;
       market := market counts + number_of (fun e => type e = Some "market") events;
       popup := popup counts + number_of (fun e => type e = Some "popup") events;
       catering := catering counts + number_of (fun e => type e = Some "catering") events;
       booked := booked counts + number_of (fun e => status e = Some "booked") events |}%Z.
Proof.
  induction events as [| e events IH]; intros counts.
  - destruct counts; simpl. unfold number_of; simpl. f_equal; lia.
  - simpl fold_left. rewrite IH. rewrite !number_of_cons.
    unfold tally. rewrite !equals_decide.
    repeat (case_bool_decide; simpl); repeat case_decide;
      try congruence; f_equal; lia.
Qed.


(** C7. The tallies of a list of events: their number, the number of type
    market, popup and catering, and the number whose status is booked.  An
    event whose type is one of the six of the event form is never counted
    as catering. *)
Theorem eventCounts_tallies (events : list Event) :
  eventCounts events
  = {| total := Z.of_nat (length events);
       market := number_of (fun e => type e = Some "market") events;
       popup := number_of (fun e => type e = Some "popup") events;
       catering := number_of (fun e => type e = Some "catering") events;
       booked := number_of (fun e => status e = Some "booked") events |}
  /\ (Forall (fun e => exists v, type e = Some v /\ In v (List.map fst NewEvent.EVENT_TYPES))
             events ->
      catering (eventCounts events) = 0%Z).
Proof.
  unfold eventCounts. rewrite fold_tally. simpl. split; [reflexivity |].
  intros H. unfold number_of. replace (filter _ events) with (@nil Event); [reflexivity |].
  symmetry. induction H as [| e l (v & Hv & Hin) _ IH]; [reflexivity |].
  rewrite filter_cons. destruct (decide _) as [Hc |]; [| exact IH].
  exfalso. rewrite Hv in Hc. injection Hc as ->.
  simpl in Hin. intuition discriminate.
Qed.

Lemma eventCounts_tallies_witness :
  eventCounts sample_events
  = {| total := 3; market := 1; popup := 1; catering := 0; booked := 2 |}
  /\ catering (eventCounts sample_events) = 0%Z.
Proof.
  destruct (eventCounts_tallies sample_events) as [H1 H2]. split.
  - rewrite H1. reflexivity.
  - apply H2. repeat constructor; eexists; (split; [reflexivity |]); simpl; tauto.
Defined.

End DashboardFacts.

Module InventoryFacts.
Import Inventory Float.



Lemma update_quantity_written key q l i :
  In i (update_quantity key q l) -> id i = key -> quantity i = q.
Proof.
  unfold update_quantity. rewrite in_map_iff. intros (j & <- & _).
  destruct (String.eqb_spec (id j) key); simpl; [reflexivity | contradiction].
Qed.

Lemma update_quantity_other key q l i :
  In i (update_quantity key q l) -> id i <> key -> In i l.
Proof.
  unfold update_quantity. rewrite in_map_iff. intros (j & <- & Hj).
  destruct (String.eqb_spec (id j) key); simpl; [contradiction | auto].
Qed.






(** C4. An item is low exactly when its threshold is above 0 and its
    quantity is at most the threshold, on the dashboard and on the inventory
    page alike; with a threshold of 0 it is never low.  A quantity of 2 is
    low at threshold 5 and not at threshold 0. *)
Theorem isLow_iff :
  (forall item : Dashboard.InventoryItem,
     Dashboard.isLow item = true
     <-> (Dashboard.reorder_threshold item >? pzero) = true
         /\ (Dashboard.quantity item <=? Dashboard.reorder_threshold item) = true)
  /\ (forall item : InventoryItem,
        isLow item = true
        <-> (reorder_threshold item >? pzero) = true
            /\ (quantity item <=? reorder_threshold item) = true)
  /\ (forall item : Dashboard.InventoryItem,
        (Dashboard.reorder_threshold item =? pzero) = true ->
        Dashboard.isLow item = false)
  /\ (forall item : InventoryItem,
        (reorder_threshold item =? pzero) = true -> isLow item = false)
  /\ (Dashboard.isLow (Dashboard.example3 5) = true
      /\ Dashboard.isLow (Dashboard.example3 0) = false).
Proof.
  assert (Hz : forall t, (t =? pzero) = true -> (t >? pzero) = false).
  { intros t. unfold eqb, gtb, SFeqb, SFltb, pzero.
    destruct t as [[] | [] | | [] m e]; simpl; congruence. }
  split; [| split; [| split; [| split]]].
  - intros item. unfold Dashboard.isLow. apply andb_true_iff.
  - intros item. unfold isLow. apply andb_true_iff.
  - intros item H. unfold Dashboard.isLow. now rewrite (Hz _ H).
  - intros item H. unfold isLow. now rewrite (Hz _ H).
  - split; reflexivity.
Qed.

End InventoryFacts.

(** ** Objects, entries and sorting *)

Module ObjectFacts.

Section Own.
Context {V : Type}.
Implicit Types (o : @obj V) (k : string) (v : V).

Lemma own_set_eq o k v : own (set o k v) k = Some v.
Proof.
  induction o as [| [k' v'] o IH]; simpl.
  - now rewrite String.eqb_refl.
  - destruct (String.eqb k' k) eqn:E; simpl; rewrite E; [reflexivity | exact IH].
Qed.

Lemma own_set_ne o k k' v : k <> k' -> own (set o k v) k' = own o k'.
Proof.
  intros Hne. induction o as [| [k0 v0] o IH]; simpl.
  - destruct (String.eqb_spec k k'); [contradiction | reflexivity].
  - destruct (String.eqb_spec k0 k); simpl.
    + subst k0. destruct (String.eqb_spec k k'); [contradiction | reflexivity].
    + rewrite IH. reflexivity.
Qed.

Lemma own_None o k : own o k = None <-> ~ In k (map fst o).
Proof.
  induction o as [| [k' v'] o IH]; simpl; [tauto |].
  destruct (String.eqb_spec k' k); [| tauto].
  split; [discriminate | intros H; exfalso; apply H; now left].
Qed.

Lemma own_In o k v : List.NoDup (map fst o) -> (own o k = Some v <-> In (k, v) o).
Proof.
  induction o as [| [k' v'] o IH]; simpl; intros Hnd.
  - split; [discriminate | tauto].
  - apply List.NoDup_cons_iff in Hnd as [Hk Hnd].
    destruct (String.eqb_spec k' k) as [-> | Hne].
    + split.
      * intros [= ->]. now left.
      * intros [[= ->] | Hin]; [reflexivity |].
        exfalso. apply Hk. apply in_map_iff. now exists (k, v).
    + rewrite IH by assumption. split; [tauto |].
      intros [[= -> ->] | Hin]; [contradiction | assumption].
Qed.

(** Writing an own key keeps the keys; writing a new key adds it last. *)
Lemma keys_set o k v :
  map fst (set o k v)
  = match own o k with Some _ => map fst o | None => (map fst o ++ [k])%list end.
Proof.
  induction o as [| [k' v'] o IH]; simpl; [reflexivity |].
  destruct (String.eqb_spec k' k); simpl; [reflexivity |].
  rewrite IH. destruct (own o k); reflexivity.
Qed.

Lemma NoDup_keys_set o k v :
  List.NoDup (map fst o) -> List.NoDup (map fst (set o k v)).
Proof.
  intros Hnd. rewrite keys_set. destruct (own o k) eqn:E; [assumption |].
  apply (Permutation_NoDup (l := k :: map fst o)).
  - apply Permutation_cons_append.
  - constructor; [now apply own_None | assumption].
Qed.

Lemma set_new o k v : own o k = None -> set o k v = (o ++ [(k, v)])%list.
Proof.
  induction o as [| [k' v'] o IH]; simpl; [reflexivity |].
  destruct (String.eqb_spec k' k); [discriminate |].
  intros H. now rewrite IH.
Qed.

End Own.

(** Pushing onto the array under an own key adds the element to the
    elements held by the object. *)
Lemma concat_set_push {A} (o : @obj (list A)) k b x :
  own o k = Some b ->
  concat (map snd (set o k (b ++ x))) ≡ₚ concat (map snd o) ++ x.
Proof.
  induction o as [| [k' v'] o IH]; simpl; [discriminate |].
  destruct (String.eqb_spec k' k); simpl.
  - intros [= ->]. rewrite <- !app_assoc. apply Permutation_app_head, Permutation_app_comm.
  - intros H. rewrite IH by assumption. now rewrite app_assoc.
Qed.

Section Sorting.
Context {A : Type} (before : A -> A -> bool).

Lemma insert_Permutation x l : insert before x l ≡ₚ x :: l.
Proof.
  induction l as [| y l IH]; simpl; [reflexivity |].
  destruct (before x y); [reflexivity |].
  rewrite IH. apply perm_swap.
Qed.

Lemma isort_Permutation l : isort before l ≡ₚ l.
Proof.
  induction l as [| x l IH]; simpl; [reflexivity |].
  now rewrite insert_Permutation, IH.
Qed.

(** [insert] keeps a list sorted for any order [R] that [before] decides
    on the elements at hand. *)
Lemma insert_sorted (R : A -> A -> Prop) x l :
  (forall a b c, R a b -> R b c -> R a c) ->
  (forall y, In y l -> if before x y then R x y else R y x) ->
  StronglySorted R l -> StronglySorted R (insert before x l).
Proof.
  intros Htrans Hdec Hs. induction Hs as [| y l Hs IH Hy]; simpl.
  - repeat constructor.
  - pose proof (Hdec y (or_introl eq_refl)) as Hxy.
    destruct (before x y).
    + constructor; [now constructor |].
      constructor; [assumption |].
      eapply List.Forall_impl; [| exact Hy]. intros z Hz. eapply Htrans; eassumption.
    + constructor.
      * apply IH. intros z Hz. apply Hdec. now right.
      * rewrite insert_Permutation. constructor; assumption.
Qed.

End Sorting.

(** The order [<] on strings. *)
Lemma compare_OT a b : String.compare a b = String_as_OT.compare a b.
Proof.
  revert b. induction a as [| c a IH]; intros [| d b]; simpl; rewrite ?IH; reflexivity.
Qed.

Lemma ltb_lt a b : String.ltb a b = true <-> String_as_OT.lt a b.
Proof.
  unfold String.ltb, String_as_OT.lt. rewrite compare_OT.
  destruct (String_as_OT.compare a b); split; congruence.
Qed.

Lemma ltb_trans a b c :
  String.ltb a b = true -> String.ltb b c = true -> String.ltb a c = true.
Proof.
  rewrite !ltb_lt. apply (@StrictOrder_Transitive _ _ String_as_OT.lt_strorder).
Qed.

Lemma ltb_irrefl a : String.ltb a a = false.
Proof.
  destruct (String.ltb a a) eqn:E; [| reflexivity].
  apply ltb_lt in E. now apply (@StrictOrder_Irreflexive _ _ String_as_OT.lt_strorder) in E.
Qed.

Lemma ltb_total a b : a <> b -> String.ltb a b = false -> String.ltb b a = true.
Proof.
  unfold String.ltb. rewrite (String.compare_antisym b a).
  destruct (String.compare a b) eqn:E; simpl; try congruence.
  intros Hne _. exfalso. apply Hne. now apply String.compare_eq_iff.
Qed.

(** [Object.entries] lists every own property once. *)
Lemma Object_entries_Permutation {V} (o : @obj V) : Object_entries o ≡ₚ o.
Proof.
  unfold Object_entries. rewrite isort_Permutation. apply filter_app_complement.
Qed.

(** Sorting entries with distinct keys by the comparator of the goals page
    puts the keys in strictly ascending order. *)
Lemma Array_sort_by_key {V} (cmp : string * V -> string * V -> Z) (l : list (string * V)) :
  (forall x y, (cmp x y <=? 0)%Z = String.ltb (fst x) (fst y)) ->
  List.NoDup (map fst l) ->
  StronglySorted (fun x y => String.ltb (fst x) (fst y) = true) (Array_sort cmp l).
Proof.
  intros Hcmp. unfold Array_sort. induction l as [| x l IH]; simpl; intros Hnd.
  - constructor.
  - apply List.NoDup_cons_iff in Hnd as [Hx Hnd].
    apply insert_sorted; [intros a b c; apply ltb_trans | | now apply IH].
    intros y Hy. rewrite Hcmp.
    destruct (String.ltb (fst x) (fst y)) eqn:E; [reflexivity |].
    apply ltb_total; [| assumption].
    intros Heq. apply Hx. rewrite Heq. apply in_map.
    eapply Permutation_in; [apply isort_Permutation | exact Hy].
Qed.

End ObjectFacts.

(** ** Goals *)

Module GoalsFacts.
Import Goals ObjectFacts.

Implicit Types (map : @obj (list Goal)) (goal : Goal) (goals : list Goal).

Lemma visit_done map goal : is_done goal = true -> visit map goal = Normal map.
Proof. intros H. unfold visit. now rewrite H. Qed.

(** A goal that is not done is pushed onto the bucket of its month, which
    is created empty when the month is new. *)
Lemma visit_active map goal :
  is_done goal = false -> inherited (month goal) = false ->
  exists map',
    visit map goal = Normal map'
    /\ own map' (month goal) = Some (default [] (own map (month goal)) ++ [goal])
    /\ (forall k, k <> month goal -> own map' k = own map k)
    /\ (List.NoDup (List.map fst map) -> List.NoDup (List.map fst map'))
    /\ concat (List.map snd map') ≡ₚ concat (List.map snd map) ++ [goal].
Proof.
  intros Hd Hi. unfold visit, get. rewrite Hd. simpl negb. cbv iota.
  destruct (own map (month goal)) as [b |] eqn:E.
  - rewrite E. eexists. split; [reflexivity |]. simpl.
    split; [apply own_set_eq |].
    split; [intros k Hk; now apply own_set_ne |].
    split; [apply NoDup_keys_set |].
    now apply concat_set_push.
  - rewrite Hi. rewrite own_set_eq. eexists. split; [reflexivity |]. simpl.
    split; [apply own_set_eq |].
    split; [intros k Hk; now rewrite !own_set_ne |].
    split; [intros H; now apply NoDup_keys_set, NoDup_keys_set |].
    rewrite (concat_set_push (set map (month goal) []) (month goal) [] [goal])
      by apply own_set_eq.
    rewrite (set_new map) by assumption.
    rewrite map_app, concat_app. simpl. now rewrite !app_nil_r.
Qed.

Lemma active_in_cons m goal goals :
  active_in m (goal :: goals)
  = if decide (is_done goal = false /\ month goal = m)
    then goal :: active_in m goals else active_in m goals.
Proof. unfold active_in. now rewrite filter_cons. Qed.

(** The loop, from any dictionary with distinct keys: every goal that is
    not done is appended to the bucket of its month. *)
Lemma for_of_spec goals : forall map,
  List.NoDup (List.map fst map) -> fileable goals ->
  exists map',
    for_of goals map = Normal map'
    /\ List.NoDup (List.map fst map')
    /\ (forall k, own map' k
                  = match own map k, active_in k goals with
                    | None, [] => None
                    | b, l => Some (default [] b ++ l)
                    end)
    /\ concat (List.map snd map')
       ≡ₚ concat (List.map snd map) ++ filter (fun g => is_done g = false) goals.
Proof.
  induction goals as [| goal goals IH]; intros map Hnd Hf.
  - exists map. simpl. repeat split; [assumption | | now rewrite app_nil_r].
    intros k. unfold active_in. simpl.
    destruct (own map k); simpl; [now rewrite app_nil_r | reflexivity].
  - apply Forall_cons in Hf as [Hg Hf]. simpl for_of.
    destruct (is_done goal) eqn:Hd.
    + rewrite visit_done by assumption. simpl.
      destruct (IH map Hnd Hf) as (map' & Hrun & Hnd' & Hown & Hperm).
      exists map'. repeat split; [assumption | assumption | |].
      * intros k. rewrite Hown, active_in_cons.
        destruct (decide _) as [[? _] |]; [congruence | reflexivity].
      * rewrite filter_cons. destruct (decide _); [congruence | assumption].
    + destruct (visit_active map goal Hd (Hg eq_refl))
        as (map1 & Hv & Hm & Hk & Hnd1 & Hp1).
      rewrite Hv. simpl.
      destruct (IH map1 (Hnd1 Hnd) Hf) as (map' & Hrun & Hnd' & Hown & Hperm).
      exists map'. repeat split; [assumption | assumption | |].
      * intros k. rewrite Hown, active_in_cons.
        destruct (decide (is_done goal = false /\ month goal = k)) as [[_ <-] | Hne].
        -- rewrite Hm. simpl.
           destruct (own map (month goal)); simpl;
             destruct (active_in (month goal) goals); simpl;
             rewrite <- ?app_assoc; reflexivity.
        -- rewrite Hk by (intros ->; apply Hne; now split). reflexivity.
      * rewrite Hperm, Hp1, filter_cons.
        destruct (decide _); [| congruence].
        rewrite <- app_assoc. reflexivity.
Qed.

Lemma by_month_before x y :
  (by_month x y <=? 0)%Z = String.ltb (fst x) (fst y).
Proof. unfold by_month. now destruct (String.ltb (fst x) (fst y)). Qed.

Lemma StronglySorted_map {A B} (f : A -> B) (R : B -> B -> Prop) l :
  StronglySorted (fun x y => R (f x) (f y)) l -> StronglySorted R (List.map f l).
Proof.
  induction 1 as [| x l Hs IH Hx]; simpl; constructor; [assumption |].
  apply Forall_map. exact Hx.
Qed.

(** What [groupActiveByMonth] returns. *)
Lemma groupActiveByMonth_spec goals :
  fileable goals ->
  exists buckets,
    groupActiveByMonth goals = Normal buckets
    /\ StronglySorted (fun a b => String.ltb a b = true) (List.map fst buckets)
    /\ (forall m b, In (m, b) buckets <-> b = active_in m goals /\ b <> [])
    /\ concat (List.map snd buckets) ≡ₚ filter (fun g => is_done g = false) goals.
Proof.
  intros Hf. unfold groupActiveByMonth.
  destruct (for_of_spec goals [] (List.NoDup_nil _) Hf) as (map & Hrun & Hnd & Hown & Hperm).
  rewrite Hrun. simpl. eexists. split; [reflexivity |].
  assert (Hp : Array_sort by_month (Object_entries map) ≡ₚ map).
  { unfold Array_sort. now rewrite isort_Permutation, Object_entries_Permutation. }
  split; [| split].
  - apply StronglySorted_map, Array_sort_by_key; [apply by_month_before |].
    now rewrite Object_entries_Permutation.
  - intros m b. rewrite <- !list_elem_of_In, Hp, list_elem_of_In.
    rewrite <- own_In by assumption. rewrite Hown. simpl.
    destruct (active_in m goals) eqn:E; simpl.
    + split; [discriminate | intros [-> H]; congruence].
    + split; [intros [= <-]; split; [reflexivity | discriminate] | intros [-> _]; reflexivity].
  - now rewrite Hp, Hperm.
Qed.


(** A month of the shape [YYYY-MM] names no property of [Object.prototype]. *)
Lemma year_month_not_inherited m : is_year_month m = true -> inherited m = false.
Proof.
  unfold is_year_month.
  destruct m as [| c m]; [discriminate |]. simpl.
  destruct (chars m) as [| y2 [| y3 [| y4 [| h [| m1 [| m2 [| ? ?]]]]]]];
    try discriminate.
  rewrite !andb_true_iff. intros [[Hc _] _].
  apply bool_decide_eq_true in Hc.
  assert (Hd : forall k r, digit_of 10 k = None -> String.eqb (String c m) (String k r) = false).
  { intros k r Hk. simpl. destruct (Ascii.eqb_spec c k) as [-> |]; [| reflexivity].
    rewrite Hk in Hc. now destruct Hc. }
  unfold inherited, prototype_keys. cbn [existsb].
  rewrite !Hd by reflexivity. reflexivity.
Qed.

Lemma year_month_fileable goals :
  Forall (fun g => is_year_month (month g) = true) goals -> fileable goals.
Proof.
  apply List.Forall_impl. intros g H _. now apply year_month_not_inherited.
Qed.

(** A month that names a property of [Object.prototype] stops the loop:
    the read finds the inherited property, which has no [push]. *)
Example groupActiveByMonth_inherited_month :
  groupActiveByMonth
    [{| id := "g"; title := "t"; month := "constructor"; is_done := false;
        notes := None |}]
  = Throw (TypeError "map[goal.month].push is not a function").
Proof. reflexivity. Qed.


Lemma example4_fileable : fileable example4.
Proof. apply year_month_fileable. repeat constructor. Qed.






End GoalsFacts.

(** ** Dates *)

Module DateFacts.
Import Date.

(** A day number and its civil date determine each other. *)
Lemma days_from_civil_from_days z :
  let '(y, m, d) := civil_from_days z in
  (1 <= m <= 12)%Z /\ days_from_civil y m d = z.
Proof.
  unfold civil_from_days, days_from_civil.
  set (doe := (z + 719468 - (z + 719468) / 146097 * 146097)%Z).
  set (era := ((z + 719468) / 146097)%Z).
  set (yoe := ((doe - doe / 1460 + doe / 36524 - doe / 146096) / 365)%Z).
  set (doy := (doe - (365 * yoe + yoe / 4 - yoe / 100))%Z).
  set (mp := ((5 * doy + 2) / 153)%Z).
  assert (Hdoe : (0 <= doe < 146097)%Z)
    by (subst doe; Z.div_mod_to_equations; lia).
  assert (Hyoe : (0 <= yoe <= 399)%Z)
    by (subst yoe; Z.div_mod_to_equations; lia).
  assert (Hdoy : (0 <= doy <= 365)%Z)
    by (subst doy yoe; Z.div_mod_to_equations; lia).
  assert (Hmp : (0 <= mp <= 11)%Z)
    by (subst mp; Z.div_mod_to_equations; lia).
  assert (Hz : (z = era * 146097 + doe - 719468)%Z) by (subst doe era; lia).
  assert (Hd : (doy = doe - (365 * yoe + yoe / 4 - yoe / 100))%Z) by reflexivity.
  clearbody doe era yoe doy mp.
  destruct (Z.ltb_spec mp 10).
  - replace (mp + 3 <=? 2)%Z with false by (symmetry; apply Z.leb_gt; lia).
    replace (2 <? mp + 3)%Z with true by (symmetry; apply Z.ltb_lt; lia).
    split; [lia |].
    replace ((yoe + era * 400) / 400)%Z with era by (Z.div_mod_to_equations; lia).
    replace (mp + 3 - 3)%Z with mp by lia.
    replace (yoe + era * 400 - era * 400)%Z with yoe by lia. lia.
  - replace (mp - 9 <=? 2)%Z with true by (symmetry; apply Z.leb_le; lia).
    replace (2 <? mp - 9)%Z with false by (symmetry; apply Z.ltb_ge; lia).
    split; [lia |].
    replace (yoe + era * 400 + 1 - 1)%Z with (yoe + era * 400)%Z by lia.
    replace ((yoe + era * 400) / 400)%Z with era by (Z.div_mod_to_equations; lia).
    replace (mp - 9 + 9)%Z with mp by lia.
    replace (yoe + era * 400 - era * 400)%Z with yoe by lia. lia.
Qed.

(** The day of a civil date moves with the day of the month. *)
Lemma days_from_civil_day y m d :
  days_from_civil y m d = (days_from_civil y m 1 + d - 1)%Z.
Proof. unfold days_from_civil. lia. Qed.

(** [MakeDay] on the year and month of a time and a day of the month counted
    from its own: the day of the time, moved by the difference. *)
Lemma MakeDay_shift t days :
  MakeDay (YearFromTime t) (MonthFromTime t) (DateFromTime t + days)
  = (Day t + days)%Z.
Proof.
  unfold MakeDay, YearFromTime, MonthFromTime, DateFromTime.
  pose proof (days_from_civil_from_days (Day t)) as H.
  destruct (civil_from_days (Day t)) as [[y m] d]. simpl.
  destruct H as [Hm H].
  replace ((m - 1) / 12)%Z with 0%Z by (Z.div_mod_to_equations; lia).
  replace ((m - 1) mod 12 + 1)%Z with m by (Z.div_mod_to_equations; lia).
  rewrite Z.add_0_r. rewrite (days_from_civil_day y m d) in H. lia.
Qed.

(** In a zone that keeps one offset, setting the day of the month to its
    own value plus [days] moves the time by that many days. *)
Lemma setDate_fixed_zone offset t days :
  setDate (fixed_zone offset) (Some t)
          (option_map (fun n => n + days)%Z (getDate (fixed_zone offset) (Some t)))
  = TimeClip (t + days * msPerDay).
Proof.
  unfold setDate, getDate, LocalTime, UTC. simpl.
  rewrite MakeDay_shift. f_equal. unfold MakeDate, Day, TimeWithinDay.
  pose proof (Z.div_mod (t + offset) msPerDay ltac:(discriminate)). lia.
Qed.

End DateFacts.

(** ** New event *)

Module NewEventFacts.
Import NewEvent DateFacts.

Lemma addDays_fixed_zone offset t days :
  addDays (Date.fixed_zone offset) (Some t) days
  = Date.TimeClip (t + days * Date.msPerDay).
Proof. unfold addDays. apply setDate_fixed_zone. Qed.

Lemma formatDateForDB_invalid : forall s, formatDateForDB None <> Normal s.
Proof. discriminate. Qed.

(** The loop in a zone that keeps one offset: row [j] is dated [7 * j] days
    after the base date and takes every other field from the form. *)
Lemma weekly_fixed_zone offset f t0 fuel : forall i acc rows,
  weekly (Date.fixed_zone offset) f (Some t0) fuel i acc = Some (Normal rows) ->
  i = Z.of_nat (length acc) ->
  (forall j r, acc !! j = Some r -> dated t0 (Z.of_nat j * 7) r /\ r = row f (date r)) ->
  forall j r, rows !! j = Some r -> dated t0 (Z.of_nat j * 7) r /\ r = row f (date r).
Proof.
  induction fuel as [| fuel IH]; intros i acc rows Hrun Hi Hacc; [discriminate |].
  cbn [weekly] in Hrun. destruct (of_Z i <? totalWeeks f); [| now injection Hrun as <-].
  rewrite addDays_fixed_zone in Hrun.
  destruct (formatDateForDB (Date.TimeClip (t0 + i * 7 * Date.msPerDay))) as [s |] eqn:Hs;
    [| discriminate].
  apply (IH _ _ _ Hrun).
  - rewrite length_app. cbn [length]. lia.
  - intros j r Hj. apply lookup_app_Some in Hj as [Hj | [Hlen Hj]]; [now apply Hacc |].
    apply list_lookup_singleton_Some in Hj as [Hj <-].
    assert (Hji : Z.of_nat j = i) by lia.
    split; [| reflexivity]. unfold dated. cbn [date row]. rewrite Hji.
    unfold Date.TimeClip in Hs.
    destruct (Z.abs _ <=? _)%Z; [exact Hs | now apply formatDateForDB_invalid in Hs].
Qed.

(** In every zone the rows of a batch take all fields but the date from
    the form. *)
Lemma weekly_fields tz f base fuel : forall i acc rows,
  weekly tz f base fuel i acc = Some (Normal rows) ->
  Forall (fun r => r = row f (date r)) acc ->
  Forall (fun r => r = row f (date r)) rows.
Proof.
  induction fuel as [| fuel IH]; intros i acc rows Hrun Hacc; [discriminate |].
  cbn [weekly] in Hrun. destruct (of_Z i <? totalWeeks f); [| now injection Hrun as <-].
  destruct (formatDateForDB _) as [s |]; [| discriminate].
  apply (IH _ _ _ Hrun). apply Forall_app. split; [assumption | now repeat constructor].
Qed.

(** C8 on the code. In New York, two weeks from Wednesday 2025-03-05 are
    entered as 2025-03-05 and 2025-03-11, six days apart: the clocks change
    on 2025-03-09, and the day is added in local time to a date that was
    read, and is written, in UTC.  Where the clocks do not change the
    second row is dated 2025-03-12. *)
Theorem handleSubmit_across_clock_change :
  handleSubmit Date.New_York_2025 3 two_weeks None
  = Some (Inserted [row two_weeks "2025-03-05"; row two_weeks "2025-03-11"])
  /\ handleSubmit Date.UTC_zone 3 two_weeks None
     = Some (Inserted [row two_weeks "2025-03-05"; row two_weeks "2025-03-12"])
  /\ (exists t0,
        Date.of_string "2025-03-05" = Some t0
        /\ Date.of_string "2025-03-11" = Some (t0 + 6 * Date.msPerDay)%Z
        /\ Date.of_string "2025-03-12" = Some (t0 + 7 * Date.msPerDay)%Z).
Proof.
  split; [vm_compute; reflexivity |]. split; [vm_compute; reflexivity |].
  eexists. split; [vm_compute; reflexivity |]. split; vm_compute; reflexivity.
Qed.

(** X1. Where the zone keeps one offset, the rows of a recurring submission are
    dated seven days apart from the base date on, and share every other
    field. *)
Theorem handleSubmit_weekly_fixed_zone offset fuel f failure rows t0 :
  isRecurring f = true ->
  Date.of_string (date_field f) = Some t0 ->
  handleSubmit (Date.fixed_zone offset) fuel f failure = Some (Inserted rows) ->
  forall i r, rows !! i = Some r ->
    dated t0 (7 * Z.of_nat i) r /\ r = row f (date r).
Proof.
  intros Hrec Hdate Hrun i r Hi.
  unfold handleSubmit in Hrun.
  destruct (eventsToInsert _ fuel f) as [[rows' | e] |] eqn:He; try discriminate.
  destruct failure; [discriminate |]. injection Hrun as ->.
  unfold eventsToInsert in He. destruct (decide _); [discriminate |].
  rewrite Hrec, Hdate in He. rewrite Z.mul_comm.
  eapply weekly_fixed_zone; [exact He | reflexivity | | exact Hi].
  intros j r' Hj. now rewrite lookup_nil in Hj.
Qed.

Lemma handleSubmit_weekly_fixed_zone_witness :
  dated 1741132800000 (7 * Z.of_nat 1) (row two_weeks "2025-03-12")
  /\ row two_weeks "2025-03-12" = row two_weeks (date (row two_weeks "2025-03-12")).
Proof.
  refine (handleSubmit_weekly_fixed_zone 0 3 two_weeks None
            [row two_weeks "2025-03-05"; row two_weeks "2025-03-12"]
            1741132800000 eq_refl _ _ 1%nat (row two_weeks "2025-03-12") eq_refl);
    vm_compute; reflexivity.
Defined.

End NewEventFacts.

Module IntFacts.
Import Float.


Lemma digits2_pos_upper p : (Zpos p < 2 ^ Zpos (digits2_pos p))%Z.
Proof.
  induction p as [p IH | p IH |]; simpl digits2_pos;
    rewrite ?Pos2Z.inj_succ, ?Z.pow_succ_r by lia; lia.
Qed.

Lemma Zdigits2_bounds n : (0 < n)%Z -> (2 ^ (Zdigits2 n - 1) <= n < 2 ^ Zdigits2 n)%Z.
Proof.
  destruct n as [| p | p]; try lia. intros _. simpl.
  split; [apply digits2_pos_lower | apply digits2_pos_upper].
Qed.

Lemma Zdigits2_pos n : (0 < n)%Z -> (0 < Zdigits2 n)%Z.
Proof. destruct n; simpl; lia. Qed.

Lemma Zdigits2_unique n k :
  (2 ^ (k - 1) <= n < 2 ^ k)%Z -> (0 < n)%Z -> Zdigits2 n = k.
Proof.
  intros [Hl Hu] Hn. pose proof (Zdigits2_bounds n Hn) as [Hl' Hu'].
  pose proof (Zdigits2_pos n Hn).
  assert (0 < k)%Z.
  { destruct (Z.ltb_spec 0 k); [assumption |].
    destruct (Z.eq_dec k 0) as [-> |]; [simpl in Hu; lia |].
    rewrite Z.pow_neg_r in Hu by lia. lia. }
  destruct (Z.lt_trichotomy (Zdigits2 n) k) as [H1 | [H1 | H1]]; [| assumption |].
  - assert (2 ^ Zdigits2 n <= 2 ^ (k - 1))%Z by (apply Z.pow_le_mono_r; lia). lia.
  - assert (2 ^ k <= 2 ^ (Zdigits2 n - 1))%Z by (apply Z.pow_le_mono_r; lia). lia.
Qed.

Lemma Zdigits2_shift n k :
  (0 < n)%Z -> (0 <= k)%Z -> Zdigits2 (n * 2 ^ k) = (Zdigits2 n + k)%Z.
Proof.
  intros Hn Hk. pose proof (Zdigits2_bounds n Hn) as [Hl Hu].
  pose proof (Zdigits2_pos n Hn).
  assert (0 < 2 ^ k)%Z by (apply Z.pow_pos_nonneg; lia).
  apply Zdigits2_unique; [| nia].
  replace (Zdigits2 n + k - 1)%Z with ((Zdigits2 n - 1) + k)%Z by lia.
  rewrite !Z.pow_add_r by lia. nia.
Qed.

Lemma fexp_digits d : (1 <= d)%Z -> fexp d = (d - 53)%Z.
Proof. unfold fexp, SpecFloat.fexp, SpecFloat.emin, prec, emax. lia. Qed.

(** Shifting out zeros is exact. *)
Lemma shr_1_exact m :
  (0 <= m)%Z ->
  shr_1 {| shr_m := 2 * m; shr_r := false; shr_s := false |}
  = {| shr_m := m; shr_r := false; shr_s := false |}.
Proof. destruct m as [| p | p]; try lia; reflexivity. Qed.

Lemma iter_shr_1_exact p : forall m,
  (0 <= m)%Z ->
  SpecFloat.iter_pos shr_1 p {| shr_m := m * 2 ^ Zpos p; shr_r := false; shr_s := false |}
  = {| shr_m := m; shr_r := false; shr_s := false |}.
Proof.
  induction p as [p IH | p IH |]; intros m Hm; cbn [SpecFloat.iter_pos].
  - replace (m * 2 ^ Zpos p~1)%Z with (2 * (m * 2 ^ Zpos p * 2 ^ Zpos p))%Z.
    + rewrite shr_1_exact by nia. rewrite IH by nia. apply IH. assumption.
    + rewrite Pos2Z.inj_xI, Z.pow_add_r, Z.pow_1_r by lia.
      replace (2 * Zpos p)%Z with (Zpos p + Zpos p)%Z by lia.
      rewrite Z.pow_add_r by lia. lia.
  - replace (m * 2 ^ Zpos p~0)%Z with (m * 2 ^ Zpos p * 2 ^ Zpos p)%Z.
    + rewrite IH by nia. apply IH. assumption.
    + rewrite <- Z.mul_assoc, <- Z.pow_add_r by lia. f_equal. f_equal. lia.
  - rewrite Z.pow_1_r. replace (m * 2)%Z with (2 * m)%Z by lia. now apply shr_1_exact.
Qed.

Lemma shr_fexp_canonical m e :
  (0 < m)%Z -> Zdigits2 m = 53%Z -> (-1074 <= e)%Z ->
  shr_fexp prec emax m e loc_Exact
  = ({| shr_m := m; shr_r := false; shr_s := false |}, e).
Proof.
  intros Hm Hd He. unfold shr_fexp. rewrite Hd.
  change (SpecFloat.fexp prec emax (53 + e)) with (fexp (53 + e)).
  replace (fexp (53 + e) - e)%Z with 0%Z; [reflexivity |].
  unfold fexp, SpecFloat.fexp, SpecFloat.emin, prec, emax. lia.
Qed.

(** Rounding a mantissa of at least 53 bits that holds an integer below
    2^53 followed by zeros. *)
Lemma binary_round_aux_canon s m e n :
  (0 < n < 2 ^ 53)%Z -> (e <= 0)%Z -> m = (n * 2 ^ (- e))%Z ->
  (53 <= Zdigits2 m)%Z ->
  binary_round_aux prec emax s m e loc_Exact = canon s n.
Proof.
  intros Hn He Hm Hd.
  pose proof (Zdigits2_pos n ltac:(lia)) as Hdn.
  assert (Hdm : Zdigits2 m = (Zdigits2 n - e)%Z).
  { rewrite Hm, Zdigits2_shift by lia. lia. }
  assert (Hdn53 : (Zdigits2 n <= 53)%Z).
  { destruct (Z.leb_spec (Zdigits2 n) 53); [assumption |].
    pose proof (Zdigits2_bounds n ltac:(lia)) as [Hl _].
    assert (2 ^ 53 <= 2 ^ (Zdigits2 n - 1))%Z by (apply Z.pow_le_mono_r; lia). lia. }
  set (k := (53 - Zdigits2 n)%Z).
  assert (Hshift : shr_fexp prec emax m e loc_Exact
                   = ({| shr_m := n * 2 ^ k; shr_r := false; shr_s := false |},
                      (Zdigits2 n - 53)%Z)).
  { unfold shr_fexp. rewrite Hdm.
    change (SpecFloat.fexp prec emax (Zdigits2 n - e + e))
      with (fexp (Zdigits2 n - e + e)).
    replace (Zdigits2 n - e + e)%Z with (Zdigits2 n) by lia.
    rewrite fexp_digits by lia. unfold shr.
    destruct (Zdigits2 n - 53 - e)%Z as [| p | p] eqn:Hp; try lia.
    - simpl. f_equal; [| lia]. f_equal. rewrite Hm. f_equal. f_equal. subst k. lia.
    - f_equal; [| lia]. simpl shr_record_of_loc.
      replace m with ((n * 2 ^ k) * 2 ^ Zpos p)%Z.
      + apply iter_shr_1_exact. subst k.
        assert (0 < 2 ^ (53 - Zdigits2 n))%Z by (apply Z.pow_pos_nonneg; lia). nia.
      + rewrite Hm, <- Z.mul_assoc, <- Z.pow_add_r by (subst k; lia).
        f_equal. f_equal. subst k. lia. }
  unfold binary_round_aux. rewrite Hshift. cbn [shr_m loc_of_shr_record round_nearest_even].
  assert (Hk : (0 <= k)%Z) by (subst k; lia).
  assert (Hpos : (0 < n * 2 ^ k)%Z).
  { assert (0 < 2 ^ k)%Z by (apply Z.pow_pos_nonneg; lia). nia. }
  rewrite shr_fexp_canonical; [| assumption | rewrite Zdigits2_shift by lia; subst k; lia | lia].
  cbn [shr_m]. unfold canon. fold k.
  destruct (n * 2 ^ k)%Z as [| q | q] eqn:Hq; try lia.
  replace (Zdigits2 n - 53 <=? emax - prec)%Z with true
    by (symmetry; apply Z.leb_le; unfold emax, prec; lia).
  reflexivity.
Qed.


Lemma shl_align_value m e e' :
  let '(mz, ez) := shl_align m e e' in
  ez = Z.min e e' /\ Zpos mz = (Zpos m * 2 ^ (e - ez))%Z.
Proof.
  unfold shl_align. destruct (e' - e)%Z as [| p | p] eqn:Hp.
  - split; [lia |]. replace (e - e)%Z with 0%Z by lia. simpl. lia.
  - split; [lia |]. replace (e - e)%Z with 0%Z by lia. simpl. lia.
  - split; [lia |]. replace (e - e')%Z with (Zpos p) by lia.
    clear Hp. induction p as [| p IH] using Pos.peano_ind.
    + simpl. lia.
    + rewrite Pos.iter_succ, Pos2Z.inj_xO, IH, Pos2Z.inj_succ, Z.pow_succ_r by lia. lia.
Qed.

(** Rounding any mantissa that holds an integer below 2^53 followed by
    zeros. *)
Lemma binary_round_canon s m e n :
  (0 < n < 2 ^ 53)%Z -> (e <= 0)%Z -> Zpos m = (n * 2 ^ (- e))%Z ->
  binary_round prec emax s m e = canon s n.
Proof.
  intros Hn He Hm. unfold binary_round.
  pose proof (Zdigits2_pos n ltac:(lia)) as Hdn.
  assert (Hdm : Zpos (digits2_pos m) = (Zdigits2 n - e)%Z).
  { change (Zpos (digits2_pos m)) with (Zdigits2 (Zpos m)).
    rewrite Hm, Zdigits2_shift by lia. lia. }
  rewrite Hdm.
  change (SpecFloat.fexp prec emax (Zdigits2 n - e + e)) with (fexp (Zdigits2 n - e + e)).
  replace (Zdigits2 n - e + e)%Z with (Zdigits2 n) by lia.
  rewrite fexp_digits by lia.
  pose proof (shl_align_value m e (Zdigits2 n - 53)) as Hs.
  destruct (shl_align m e (Zdigits2 n - 53)) as [mz ez]. destruct Hs as [Hez Hmz].
  assert (Hdn53 : (Zdigits2 n <= 53)%Z).
  { destruct (Z.leb_spec (Zdigits2 n) 53); [assumption |].
    pose proof (Zdigits2_bounds n ltac:(lia)) as [Hl _].
    assert (2 ^ 53 <= 2 ^ (Zdigits2 n - 1))%Z by (apply Z.pow_le_mono_r; lia). lia. }
  assert (Hval : Zpos mz = (n * 2 ^ (- ez))%Z).
  { rewrite Hmz, Hm, <- Z.mul_assoc, <- Z.pow_add_r by lia. f_equal. f_equal. lia. }
  apply binary_round_aux_canon; [assumption | lia | assumption |].
  rewrite Hval, Zdigits2_shift by lia. lia.
Qed.


(** The double of an integer of magnitude below 2^53. *)
Lemma of_Z_canon z :
  z <> 0%Z -> safe z -> of_Z z = canon (z <? 0)%Z (Z.abs z).
Proof.
  unfold safe. intros Hz Hs. destruct z as [| p | p]; [contradiction | |];
    unfold of_Z; simpl binary_normalize;
    apply binary_round_canon; simpl in *; lia.
Qed.

Lemma canon_mantissa s n :
  (0 < n < 2 ^ 53)%Z ->
  exists m, canon s n = S754_finite s m (Zdigits2 n - 53)
            /\ Zpos m = (n * 2 ^ (53 - Zdigits2 n))%Z.
Proof.
  intros Hn. unfold canon. eexists. split; [reflexivity |].
  pose proof (Zdigits2_pos n ltac:(lia)).
  assert (Zdigits2 n <= 53)%Z.
  { destruct (Z.leb_spec (Zdigits2 n) 53); [assumption |].
    pose proof (Zdigits2_bounds n ltac:(lia)) as [Hl _].
    assert (2 ^ 53 <= 2 ^ (Zdigits2 n - 1))%Z by (apply Z.pow_le_mono_r; lia). lia. }
  assert (0 < 2 ^ (53 - Zdigits2 n))%Z by (apply Z.pow_pos_nonneg; lia).
  rewrite Z2Pos.id by nia. reflexivity.
Qed.


(** The shape of the double of a non-zero integer of magnitude below 2^53:
    a full mantissa that holds the magnitude exactly. *)
Lemma of_Z_finite z :
  z <> 0%Z -> safe z ->
  exists m e, of_Z z = S754_finite (z <? 0)%Z m e
              /\ (e <= 0)%Z /\ Zpos m = (Z.abs z * 2 ^ (- e))%Z
              /\ Zdigits2 (Zpos m) = 53%Z
              /\ e = (Zdigits2 (Z.abs z) - 53)%Z.
Proof.
  intros Hz Hs. rewrite of_Z_canon by assumption.
  assert (Hn : (0 < Z.abs z < 2 ^ 53)%Z) by (unfold safe in Hs; lia).
  destruct (canon_mantissa (z <? 0)%Z (Z.abs z) Hn) as (m & -> & Hm).
  pose proof (Zdigits2_pos _ (proj1 Hn)).
  assert (Zdigits2 (Z.abs z) <= 53)%Z.
  { destruct (Z.leb_spec (Zdigits2 (Z.abs z)) 53); [assumption |].
    pose proof (Zdigits2_bounds _ (proj1 Hn)) as [Hl _].
    assert (2 ^ 53 <= 2 ^ (Zdigits2 (Z.abs z) - 1))%Z by (apply Z.pow_le_mono_r; lia). lia. }
  exists m, (Zdigits2 (Z.abs z) - 53)%Z. split; [reflexivity |]. split; [lia |].
  split; [rewrite Hm; f_equal; f_equal; lia |]. split; [| reflexivity].
  rewrite Hm, Zdigits2_shift by lia. lia.
Qed.

(** Normalizing an integer below 2^53 that is followed by zeros. *)
Lemma binary_normalize_int z' e z :
  (e <= 0)%Z -> z' = (z * 2 ^ (- e))%Z -> safe z ->
  binary_normalize prec emax z' e false = of_Z z.
Proof.
  intros He Hz' Hs. unfold safe in Hs.
  assert (Hk : (0 < 2 ^ (- e))%Z) by (apply Z.pow_pos_nonneg; lia).
  destruct z as [| p | p].
  - subst z'. reflexivity.
  - destruct z' as [| q | q]; try nia.
    rewrite (of_Z_canon (Zpos p)) by (unfold safe; lia). simpl binary_normalize.
    apply binary_round_canon; simpl; lia.
  - destruct z' as [| q | q]; try nia.
    rewrite (of_Z_canon (Zneg p)) by (unfold safe; lia). simpl binary_normalize.
    apply binary_round_canon; simpl; lia.
Qed.

Lemma cond_Zopp_abs z k : cond_Zopp (z <? 0)%Z (Z.abs z * k) = (z * k)%Z.
Proof. destruct z; simpl; lia. Qed.

Lemma aligned m e ez z :
  Zpos m = (Z.abs z * 2 ^ (- e))%Z -> (ez <= e)%Z -> (e <= 0)%Z ->
  cond_Zopp (z <? 0)%Z (Zpos (fst (shl_align m e ez))) = (z * 2 ^ (- ez))%Z.
Proof.
  intros Hm Hez He. pose proof (shl_align_value m e ez) as H.
  destruct (shl_align m e ez) as [mz ez']. destruct H as [-> H]. simpl fst.
  rewrite Z.min_r in H by lia.
  rewrite H, Hm, <- Z.mul_assoc, <- Z.pow_add_r by lia.
  replace (- e + (e - ez))%Z with (- ez)%Z by lia. apply cond_Zopp_abs.
Qed.

(** Sums, differences and products of integers are exact as long as they
    stay below 2^53 in magnitude. *)
Lemma add_of_Z a b : safe a -> safe b -> safe (a + b) -> of_Z a + of_Z b = of_Z (a + b).
Proof.
  intros Ha Hb Hab.
  destruct (Z.eq_dec a 0) as [-> | Hna].
  { rewrite Z.add_0_l. destruct (Z.eq_dec b 0) as [-> | Hnb]; [reflexivity |].
    destruct (of_Z_finite b Hnb Hb) as (m & e & E & _). rewrite E. reflexivity. }
  destruct (Z.eq_dec b 0) as [-> | Hnb].
  { rewrite Z.add_0_r. destruct (of_Z_finite a Hna Ha) as (m & e & E & _).
    rewrite E. reflexivity. }
  destruct (of_Z_finite a Hna Ha) as (ma & ea & Ea & Hea & Hma & _).
  destruct (of_Z_finite b Hnb Hb) as (mb & eb & Eb & Heb & Hmb & _).
  rewrite Ea, Eb. unfold add. cbn [SFadd].
  rewrite (aligned ma ea _ a), (aligned mb eb _ b) by (assumption || lia).
  apply binary_normalize_int; [lia | lia | assumption].
Qed.

Lemma sub_of_Z a b : safe a -> safe b -> safe (a - b) -> of_Z a - of_Z b = of_Z (a - b).
Proof.
  intros Ha Hb Hab.
  destruct (Z.eq_dec b 0) as [-> | Hnb].
  { rewrite Z.sub_0_r. destruct (Z.eq_dec a 0) as [-> | Hna]; [reflexivity |].
    destruct (of_Z_finite a Hna Ha) as (m & e & E & _). rewrite E. reflexivity. }
  destruct (of_Z_finite b Hnb Hb) as (mb & eb & Eb & Heb & Hmb & Hdb & Hb').
  destruct (Z.eq_dec a 0) as [-> | Hna].
  { rewrite Eb. rewrite Z.sub_0_l.
    assert (Hnb' : (- b)%Z <> 0%Z) by lia.
    destruct (of_Z_finite (- b) Hnb' ltac:(unfold safe in *; lia))
      as (m' & e' & E' & _ & Hm' & _ & He'). rewrite E'.
    change (of_Z 0) with (S754_zero false). unfold sub. cbn [SFsub].
    rewrite Z.abs_opp in *.
    assert (e' = eb) by lia. subst e'.
    assert (m' = mb) by (apply Pos2Z.inj; congruence). subst m'.
    f_equal; [destruct b; simpl; try reflexivity; lia | lia]. }
  destruct (of_Z_finite a Hna Ha) as (ma & ea & Ea & Hea & Hma & _).
  rewrite Ea, Eb. unfold sub. cbn [SFsub].
  rewrite (aligned ma ea _ a), (aligned mb eb _ b) by (assumption || lia).
  apply binary_normalize_int; [lia | lia | assumption].
Qed.

Lemma mul_of_Z a b :
  (0 <= a)%Z -> (0 <= b)%Z -> safe a -> safe b -> safe (a * b) ->
  of_Z a * of_Z b = of_Z (a * b).
Proof.
  intros Ha0 Hb0 Ha Hb Hab.
  destruct (Z.eq_dec a 0) as [-> | Hna].
  { rewrite Z.mul_0_l. destruct (Z.eq_dec b 0) as [-> | Hnb]; [reflexivity |].
    destruct (of_Z_finite b Hnb Hb) as (m & e & E & _). rewrite E.
    replace (b <? 0)%Z with false by (symmetry; apply Z.ltb_ge; lia). reflexivity. }
  destruct (Z.eq_dec b 0) as [-> | Hnb].
  { rewrite Z.mul_0_r. destruct (of_Z_finite a Hna Ha) as (m & e & E & _). rewrite E.
    replace (a <? 0)%Z with false by (symmetry; apply Z.ltb_ge; lia). reflexivity. }
  destruct (of_Z_finite a Hna Ha) as (ma & ea & Ea & Hea & Hma & Hda & _).
  destruct (of_Z_finite b Hnb Hb) as (mb & eb & Eb & Heb & Hmb & Hdb & _).
  rewrite Ea, Eb.
  replace (a <? 0)%Z with false by (symmetry; apply Z.ltb_ge; lia).
  replace (b <? 0)%Z with false by (symmetry; apply Z.ltb_ge; lia).
  unfold mul. cbn [SFmul xorb].
  rewrite (of_Z_canon (a * b)) by (assumption || nia).
  replace (a * b <? 0)%Z with false by (symmetry; apply Z.ltb_ge; nia).
  rewrite Z.abs_eq in * by nia.
  assert (Hka : (0 < 2 ^ (- ea))%Z) by (apply Z.pow_pos_nonneg; lia).
  assert (Hkb : (0 < 2 ^ (- eb))%Z) by (apply Z.pow_pos_nonneg; lia).
  assert (Hm : Zpos (ma * mb) = (a * b * 2 ^ (- (ea + eb)))%Z).
  { rewrite Pos2Z.inj_mul, Hma, Hmb.
    replace (- (ea + eb))%Z with (- ea + - eb)%Z by lia.
    rewrite Z.pow_add_r by lia. lia. }
  apply binary_round_aux_canon; [unfold safe in Hab; nia | lia | exact Hm |].
  destruct (Z.leb_spec 53 (Zdigits2 (Zpos (ma * mb)))); [assumption |].
  pose proof (Zdigits2_bounds (Zpos (ma * mb)) ltac:(lia)) as [_ Hu].
  pose proof (Zdigits2_bounds (Zpos ma) ltac:(lia)) as [Hl _]. rewrite Hda in Hl.
  assert (2 ^ Zdigits2 (Zpos (ma * mb)) <= 2 ^ 52)%Z by (apply Z.pow_le_mono_r; lia).
  pose proof (Pos2Z.inj_mul ma mb) as Hp. change (53 - 1)%Z with 52%Z in Hl.
  assert (Zpos ma <= Zpos ma * Zpos mb)%Z by nia. lia.
Qed.


(** Doubles of integers below 2^53 in magnitude compare as the integers. *)
Lemma compare_canon s a b :
  (0 < a < 2 ^ 53)%Z -> (0 < b < 2 ^ 53)%Z ->
  SFcompare (canon s a) (canon s b)
  = Some (if s then CompOpp (a ?= b)%Z else (a ?= b)%Z).
Proof.
  intros Ha Hb.
  destruct (canon_mantissa s a Ha) as (ma & -> & Hma).
  destruct (canon_mantissa s b Hb) as (mb & -> & Hmb).
  pose proof (Zdigits2_bounds a ltac:(lia)) as [Hal Hau].
  pose proof (Zdigits2_bounds b ltac:(lia)) as [Hbl Hbu].
  assert (Hcmp : match (Zdigits2 a - 53 ?= Zdigits2 b - 53)%Z with
                 | Eq => Pos.compare_cont Eq ma mb
                 | c => c
                 end = (a ?= b)%Z).
  { destruct (Z.compare_spec (Zdigits2 a - 53) (Zdigits2 b - 53)) as [He | He | He].
    - change (Pos.compare_cont Eq ma mb) with (Pos.compare ma mb).
      rewrite Pos2Z.inj_compare, Hma, Hmb.
      replace (Zdigits2 b) with (Zdigits2 a) by lia.
      assert (HK : (0 < 2 ^ (53 - Zdigits2 a))%Z).
      { apply Z.pow_pos_nonneg; [lia |].
        pose proof (Zdigits2_pos a ltac:(lia)).
        destruct (Z.leb_spec (Zdigits2 a) 53); [lia |].
        assert (2 ^ 53 <= 2 ^ (Zdigits2 a - 1))%Z by (apply Z.pow_le_mono_r; lia). lia. }
      destruct (Z.compare_spec a b) as [-> | Hlt | Hgt].
      + apply Z.compare_refl.
      + apply Z.compare_lt_iff. nia.
      + apply Z.compare_gt_iff. nia.
    - symmetry. apply Z.compare_lt_iff.
      assert (2 ^ Zdigits2 a <= 2 ^ (Zdigits2 b - 1))%Z by (apply Z.pow_le_mono_r; lia). lia.
    - symmetry. apply Z.compare_gt_iff.
      assert (2 ^ Zdigits2 b <= 2 ^ (Zdigits2 a - 1))%Z by (apply Z.pow_le_mono_r; lia). lia. }
  destruct s; cbn [SFcompare]; f_equal; rewrite <- Hcmp;
    destruct (Zdigits2 a - 53 ?= Zdigits2 b - 53)%Z; reflexivity.
Qed.

Lemma compare_of_Z a b :
  safe a -> safe b -> SFcompare (of_Z a) (of_Z b) = Some (a ?= b)%Z.
Proof.
  unfold safe. intros Ha Hb.
  destruct a as [| p | p], b as [| q | q];
    rewrite ?(of_Z_canon (Zpos _)), ?(of_Z_canon (Zneg _)) by (unfold safe; lia);
    try reflexivity.
  - simpl Z.ltb. simpl Z.abs. rewrite compare_canon by lia. reflexivity.
  - simpl Z.ltb. simpl Z.abs. rewrite compare_canon by lia.
    f_equal; simpl; rewrite ?Pos.compare_antisym; reflexivity.
Qed.

Lemma ltb_of_Z a b : safe a -> safe b -> (of_Z a <? of_Z b) = (a <? b)%Z.
Proof.
  intros Ha Hb. unfold ltb, SFltb, Z.ltb. rewrite compare_of_Z by assumption.
  reflexivity.
Qed.

Lemma leb_of_Z a b : safe a -> safe b -> (of_Z a <=? of_Z b) = (a <=? b)%Z.
Proof.
  intros Ha Hb. unfold leb, SFleb, Z.leb. rewrite compare_of_Z by assumption.
  now destruct (a ?= b)%Z.
Qed.

Lemma Math_max_of_Z z : safe z -> Math_max pzero (of_Z z) = of_Z (Z.max 0 z).
Proof.
  intros Hz. destruct (Z.eq_dec z 0) as [-> | Hnz]; [reflexivity |].
  destruct (of_Z_finite z Hnz Hz) as (m & e & E & _). rewrite E.
  destruct z as [| p | p]; [contradiction | |]; simpl Z.ltb; simpl Z.max.
  - unfold Math_max, pzero. simpl. now rewrite <- E.
  - reflexivity.
Qed.

End IntFacts.

Module NumberFacts.
Import Float IntFacts.


Lemma digit_of_10 c v :
  digit_of 10 c = Some v ->
  (0 <= v <= 9)%Z /\ is_ws c = false
  /\ forall k, In k (chars "xXoObB+-I") -> Ascii.eqb c k = false.
Proof.
  destruct c as [[] [] [] [] [] [] [] []]; vm_compute; intros [= <-];
    (split; [split; discriminate |]); (split; [reflexivity |]);
    intros k Hk; repeat (destruct Hk as [<- | Hk]; [reflexivity |]); destruct Hk.
Qed.

Lemma span_digits_all l : forall ds,
  span_digits 10 l = (ds, []) ->
  Forall2 (fun c v => digit_of 10 c = Some v) l ds.
Proof.
  induction l as [| c l IH]; simpl; intros ds.
  - intros [= <-]. constructor.
  - destruct (digit_of 10 c) as [v |] eqn:E; [| discriminate].
    destruct (span_digits 10 l) as [ds' rest]. intros [= <- ->].
    constructor; [assumption | now apply IH].
Qed.

Lemma digits_value_nonneg ds : forall acc,
  (0 <= acc)%Z -> Forall (fun v => 0 <= v)%Z ds ->
  (0 <= fold_left (fun a d => 10 * a + d) ds acc)%Z.
Proof.
  induction ds as [| d ds IH]; simpl; intros acc Ha Hd; [assumption |].
  apply Forall_cons in Hd as [Hd Hds]. apply IH; [lia | assumption].
Qed.

Lemma drop_ws_digit c l v : digit_of 10 c = Some v -> drop_ws (c :: l) = c :: l.
Proof. intros H. simpl. now rewrite (proj1 (proj2 (digit_of_10 c v H))). Qed.

(** [Number] reads a string of decimal digits as the integer it denotes. *)
Lemma digits_all_nonneg l ds :
  Forall2 (fun c v => digit_of 10 c = Some v) l ds -> Forall (fun v => 0 <= v)%Z ds.
Proof.
  induction 1 as [| c v l ds Hc _ IH]; constructor; [| assumption].
  apply (digit_of_10 c v Hc).
Qed.

Lemma trim_digits c l ds v :
  digit_of 10 c = Some v ->
  Forall2 (fun c v => digit_of 10 c = Some v) l ds ->
  trim (c :: l) = c :: l.
Proof.
  intros Hc Hl. unfold trim. rewrite (drop_ws_digit c l v Hc).
  assert (Hf : Forall (fun c => exists v, digit_of 10 c = Some v) (rev (c :: l))).
  { apply Forall_rev. constructor; [eauto |].
    clear -Hl. induction Hl; constructor; eauto. }
  destruct (rev (c :: l)) as [| c' l'] eqn:Hr.
  - apply (f_equal (@length _)) in Hr. rewrite length_rev in Hr. discriminate.
  - apply Forall_cons in Hf as [[v' Hv'] _].
    rewrite (drop_ws_digit c' l' v' Hv'), <- Hr. apply rev_involutive.
Qed.

Lemma Number_decimal s n : decimal s = Some n -> Number s = of_Z n /\ (0 <= n)%Z.
Proof.
  unfold decimal, Number.
  destruct (chars s) as [| c l]; [discriminate |].
  destruct (span_digits 10 (c :: l)) as [ds rest] eqn:Hspan.
  destruct ds as [| d ds]; [discriminate |]. destruct rest; [| discriminate].
  intros [= <-].
  pose proof Hspan as Hspan'. simpl in Hspan'.
  destruct (digit_of 10 c) as [v |] eqn:Hc; [| discriminate].
  destruct (span_digits 10 l) as [ds' rest'] eqn:Hl.
  injection Hspan' as -> -> ->.
  pose proof (span_digits_all l ds Hl) as Hall.
  assert (Hnn : (0 <= digits_value 10 (d :: ds))%Z).
  { apply digits_value_nonneg; [lia |]. constructor.
    - apply (digit_of_10 c d Hc).
    - apply (digits_all_nonneg l ds Hall). }
  split; [| assumption].
  rewrite (trim_digits c l ds d Hc Hall).
  pose proof (digit_of_10 c d Hc) as (_ & _ & Hk).
  assert (Hnd : non_decimal (c :: l) = None).
  { unfold non_decimal. destruct l as [| p l]; [reflexivity |].
    destruct (Ascii.eqb c "0"); [| reflexivity].
    inversion Hall as [| p' w l0 l1 Hp Hrest]; subst.
    pose proof (digit_of_10 p w Hp) as (_ & _ & Hkp).
    rewrite !Hkp by (simpl; tauto). reflexivity. }
  rewrite Hnd. rewrite !Hk by (simpl; tauto).
  unfold unsigned_decimal.
  destruct (decide (c :: l = Infinity_chars)) as [Heq | _].
  { injection Heq as -> _. discriminate Hc. }
  rewrite Hspan. unfold round_decimal.
  destruct (digits_value 10 (d :: ds)) as [| p | p] eqn:Hp; [reflexivity | | lia].
  simpl. rewrite Pos.mul_1_r. reflexivity.
Qed.

End NumberFacts.

Module IntegerFacts.
Import Float IntFacts NumberFacts CashDrawerFacts.


Lemma of_Z_rounded z : exists s, rounded s (of_Z z).
Proof. apply binary_normalize_rounded. Qed.

Lemma of_Z_not_NaN z : isNaN (of_Z z) = false.
Proof. destruct (of_Z_rounded z) as [s H]. now destruct H. Qed.

Lemma of_Z_good z : CashDrawer.good (of_Z z).
Proof.
  destruct (of_Z_rounded z) as [s H]. split; [eapply rounded_in_range, H |].
  destruct z as [| p | p]; [discriminate | |]; unfold of_Z; simpl binary_normalize;
    apply binary_round_nonzero; unfold emin, SpecFloat.emin, prec, emax; lia.
Qed.

Lemma count_entry counts v n :
  CashDrawer.entry counts v = Some n -> CashDrawer.count counts v = of_Z n /\ (0 <= n)%Z.
Proof.
  unfold CashDrawer.entry, CashDrawer.count.
  destruct (counts !! toString v) as [s |]; [| intros [= <-]; split; [reflexivity | lia]].
  destruct (decide (s = "")); [intros [= <-]; split; [reflexivity | lia] |].
  intros Hs. destruct (Number_decimal s n Hs) as [-> Hn].
  now rewrite of_Z_not_NaN.
Qed.

Lemma integer_fold_mono counts vs : forall a t,
  Forall (fun v => 0 < v)%Z vs ->
  fold_left (fun acc v =>
               match acc, CashDrawer.entry counts v with
               | Some a, Some n => Some (a + n * v)%Z
               | _, _ => None
               end) vs (Some a) = Some t ->
  (a <= t)%Z.
Proof.
  induction vs as [| v vs IH]; simpl; intros a t Hv H; [injection H; lia |].
  apply Forall_cons in Hv as [Hv Hvs].
  destruct (CashDrawer.entry counts v) as [n |] eqn:E.
  - destruct (count_entry counts v n E) as [_ Hn].
    specialize (IH _ _ Hvs H). nia.
  - exfalso. clear -H. induction vs as [| w vs IH]; [discriminate | exact (IH H)].
Qed.

Lemma integer_fold counts ds : forall a t,
  incl ds CashDrawer.DENOMS -> (0 <= a)%Z ->
  fold_left (fun acc v =>
               match acc, CashDrawer.entry counts v with
               | Some a, Some n => Some (a + n * v)%Z
               | _, _ => None
               end) (List.map CashDrawer.value ds) (Some a) = Some t ->
  (t < 2 ^ 53)%Z ->
  fold_left (CashDrawer.reducer counts) ds (of_Z a) = of_Z t.
Proof.
  induction ds as [| d ds IH]; simpl; intros a t Hin Ha H Ht; [now injection H as -> |].
  assert (Hd : In d CashDrawer.DENOMS) by (apply Hin; now left).
  assert (Hpos : Forall (fun v => 0 < v)%Z (List.map CashDrawer.value CashDrawer.DENOMS))
    by (repeat constructor).
  assert (Hv : (0 < CashDrawer.value d)%Z).
  { rewrite List.Forall_forall in Hpos. apply Hpos. now apply in_map. }
  destruct (CashDrawer.entry counts (CashDrawer.value d)) as [n |] eqn:E.
  - destruct (count_entry counts _ n E) as [Hc Hn].
    assert (Hle : (a + n * CashDrawer.value d <= t)%Z).
    { apply (integer_fold_mono counts (List.map CashDrawer.value ds)); [| exact H].
      rewrite List.Forall_forall in *. intros v Hvin. apply Hpos.
      apply in_map_iff in Hvin as (x & <- & Hx). apply in_map, Hin. now right. }
    rewrite reducer_spec by (assumption || apply of_Z_good). rewrite Hc.
    assert (Hn_le : (n <= n * CashDrawer.value d)%Z) by nia.
    assert (Hv_le : (CashDrawer.value d <= 100)%Z).
    { clear -Hd. repeat (destruct Hd as [<- | Hd]; [simpl; lia |]). destruct Hd. }
    rewrite mul_of_Z, add_of_Z by (unfold safe; lia).
    apply IH; [intros x Hx; apply Hin; now right | nia | exact H | exact Ht].
  - exfalso. clear -H. induction (List.map CashDrawer.value ds) as [| w vs IH];
      [discriminate | exact (IH H)].
Qed.

(** The fold of [computeTotal] on whole-number entries. *)
Lemma fold_integers counts t :
  CashDrawer.integer_total counts = Some t -> (t < 2 ^ 53)%Z ->
  fold_left (CashDrawer.reducer counts) CashDrawer.DENOMS (of_Z 0) = of_Z t.
Proof.
  intros H Ht. apply integer_fold; [apply incl_refl | lia | exact H | exact Ht].
Qed.

(** X3. When every entry under a face value is missing, empty or a string
    of decimal digits, and the total is below 2^53, the total is exact: it
    is the double of the integer sum of count times face value. *)
Theorem computeTotal_integers (counts : gmap string string) (t : Z) :
  CashDrawer.integer_total counts = Some t -> (t < 2 ^ 53)%Z ->
  CashDrawer.computeTotal counts = of_Z t.
Proof.
  intros H Ht. unfold CashDrawer.computeTotal.
  change pzero with (of_Z 0). now apply fold_integers.
Qed.

Lemma computeTotal_integers_witness :
  CashDrawer.computeTotal CashDrawer.example1 = of_Z 145.
Proof. apply computeTotal_integers; [reflexivity | reflexivity]. Defined.


Lemma amount_Number field n :
  CashDrawer.amount field = Some n -> CashDrawer.Number_or_0 field = of_Z n /\ (0 <= n)%Z.
Proof.
  unfold CashDrawer.amount, CashDrawer.Number_or_0.
  destruct (decide (field = "")); [intros [= <-]; split; [reflexivity | lia] |].
  apply Number_decimal.
Qed.

Lemma or_0_of_Z n : CashDrawer.or_0 (of_Z n) = of_Z n.
Proof.
  unfold CashDrawer.or_0. destruct (of_Z_rounded n) as [s H].
  destruct (of_Z n) as [[] | | |] eqn:E; try reflexivity; simpl.
  - exfalso. apply (proj2 (of_Z_good n)). exact E.
  - inversion H.
Qed.

(** X4. With counts and amounts in whole numbers, net cash is exact, and the
    net shown for the session that [handleSave] stores is the net cash shown
    when it was saved. *)
Theorem netCash_integers (openingCounts closingCounts : gmap string string)
    (stallFee payouts date notes new_id : string) (o c f p : Z) :
  CashDrawer.integer_total openingCounts = Some o -> CashDrawer.integer_total closingCounts = Some c ->
  CashDrawer.amount stallFee = Some f -> CashDrawer.amount payouts = Some p ->
  (c < 2 ^ 53)%Z -> (o + f + p < 2 ^ 53)%Z ->
  CashDrawer.netCash openingCounts closingCounts stallFee payouts = of_Z (c - o - f - p)
  /\ CashDrawer.net (CashDrawer.saved_session openingCounts closingCounts
                       stallFee payouts date notes new_id)
     = CashDrawer.netCash openingCounts closingCounts stallFee payouts.
Proof.
  intros Ho Hc Hf Hp Hcs Hos.
  destruct (amount_Number _ _ Hf) as [Ef Hf0].
  destruct (amount_Number _ _ Hp) as [Ep Hp0].
  assert (Ho0 : (0 <= o)%Z).
  { apply (integer_fold_mono openingCounts CashDrawer.faceValues 0 o);
      [repeat constructor | exact Ho]. }
  assert (Hc0 : (0 <= c)%Z).
  { apply (integer_fold_mono closingCounts CashDrawer.faceValues 0 c);
      [repeat constructor | exact Hc]. }
  assert (Hnet : CashDrawer.netCash openingCounts closingCounts stallFee payouts
                 = of_Z (c - o - f - p)).
  { unfold CashDrawer.netCash, CashDrawer.closingTotal, CashDrawer.openingTotal,
      CashDrawer.stallFeeNum, CashDrawer.payoutsNum.
    unfold CashDrawer.computeTotal. change pzero with (of_Z 0).
    rewrite (fold_integers _ _ Hc), (fold_integers _ _ Ho), Ef, Ep by lia.
    rewrite !sub_of_Z by (unfold safe; lia). reflexivity. }
  split; [exact Hnet |].
  rewrite Hnet. unfold CashDrawer.net, CashDrawer.saved_session.
  cbn [CashDrawer.closing_total CashDrawer.opening_total CashDrawer.stall_fee
         CashDrawer.payouts].
  unfold CashDrawer.closingTotal, CashDrawer.openingTotal,
    CashDrawer.stallFeeNum, CashDrawer.payoutsNum.
  unfold CashDrawer.computeTotal. change pzero with (of_Z 0).
  rewrite (fold_integers _ _ Hc), (fold_integers _ _ Ho), Ef, Ep by lia.
  rewrite !or_0_of_Z. rewrite !sub_of_Z by (unfold safe; lia). reflexivity.
Qed.

Lemma netCash_integers_witness :
  CashDrawer.netCash {["5" := "2"]} {["10" := "3"]} "2" "3" = of_Z (30 - 10 - 2 - 3)
  /\ CashDrawer.net (CashDrawer.saved_session {["5" := "2"]} {["10" := "3"]}
                       "2" "3" "2025-06-07" "" "s1")
     = CashDrawer.netCash {["5" := "2"]} {["10" := "3"]} "2" "3".
Proof.
  apply (netCash_integers {["5" := "2"]} {["10" := "3"]} "2" "3" "2025-06-07" "" "s1"
           10 30 2 3); reflexivity.
Defined.

End IntegerFacts.

Module InventoryIntegerFacts.
Import Float IntFacts Inventory.

(** X5. On whole quantities the two buttons, and any whole [delta], change the
    quantity by exactly [delta], and stop at 0. *)
Theorem adjustQuantity_integers (item : InventoryItem) (q delta : Z)
    (w : World) :
  quantity item = of_Z q -> (0 <= q)%Z -> safe q -> safe delta -> safe (q + delta) ->
  newQty item (of_Z delta) = of_Z (Z.max 0 (q + delta))
  /\ forall i, In i (items (adjustQuantity item (of_Z delta) None w)) ->
               id i = id item -> quantity i = of_Z (Z.max 0 (q + delta)).
Proof.
  intros Hq Hq0 Hsq Hsd Hs.
  assert (Hnew : newQty item (of_Z delta) = of_Z (Z.max 0 (q + delta))).
  { unfold newQty. rewrite Hq, add_of_Z by assumption. now apply Math_max_of_Z. }
  split; [exact Hnew |].
  intros i Hi Hid. rewrite <- Hnew. simpl in Hi.
  eapply InventoryFacts.update_quantity_written; eassumption.
Qed.

Lemma adjustQuantity_integers_witness :
  newQty sold_out (of_Z (-1)) = of_Z (Z.max 0 (0 + -1))
  /\ forall i, In i (items (adjustQuantity sold_out (of_Z (-1)) None
                              {| rows := [sold_out]; items := [sold_out];
                                 updatingQtyId := None; alerts := [] |})) ->
               id i = id sold_out -> quantity i = of_Z (Z.max 0 (0 + -1)).
Proof.
  apply (adjustQuantity_integers sold_out 0 (-1)); try reflexivity; lia.
Defined.

(** The test of [isLow] on whole numbers. *)
Lemma low_of_Z q t :
  safe q -> safe t ->
  ((of_Z t >? pzero) && (of_Z q <=? of_Z t)) = ((0 <? t) && (q <=? t))%Z.
Proof.
  intros Hq Ht. change (of_Z t >? pzero) with (of_Z 0 <? of_Z t).
  rewrite (ltb_of_Z 0 t), (leb_of_Z q t) by (assumption || (unfold safe; simpl; lia)).
  reflexivity.
Qed.

(** X6. On whole quantities and thresholds, an item is low exactly when the
    threshold is positive and the quantity does not exceed it, on the
    inventory page, in its count of low items and on the dashboard. *)
Theorem isLow_integers (q t : Z) :
  safe q -> safe t ->
  (forall item : InventoryItem,
     quantity item = of_Z q -> reorder_threshold item = of_Z t ->
     isLow item = ((0 <? t) && (q <=? t))%Z)
  /\ (forall item : Dashboard.InventoryItem,
        Dashboard.quantity item = of_Z q -> Dashboard.reorder_threshold item = of_Z t ->
        Dashboard.isLow item = ((0 <? t) && (q <=? t))%Z).
Proof.
  intros Hq Ht. pose proof (low_of_Z q t Hq Ht) as H.
  split; intros item Eq Et.
  - unfold isLow. rewrite Eq, Et. exact H.
  - unfold Dashboard.isLow. rewrite Eq, Et. exact H.
Qed.

Lemma isLow_integers_witness :
  (forall item : InventoryItem,
     quantity item = of_Z 2 -> reorder_threshold item = of_Z 5 ->
     isLow item = true)
  /\ (forall item : Dashboard.InventoryItem,
        Dashboard.quantity item = of_Z 2 -> Dashboard.reorder_threshold item = of_Z 5 ->
        Dashboard.isLow item = true).
Proof. apply (isLow_integers 2 5); unfold safe; simpl; lia. Defined.

End InventoryIntegerFacts.

Module RecurringFacts.
Import Float IntFacts NewEvent.

Lemma Math_max_of_Z2 a b :
  safe a -> safe b -> Math_max (of_Z a) (of_Z b) = of_Z (Z.max a b).
Proof.
  intros Ha Hb. pose proof (ltb_of_Z a b Ha Hb) as Hlt. unfold ltb in Hlt.
  pose proof (IntegerFacts.of_Z_not_NaN a) as Na.
  pose proof (IntegerFacts.of_Z_not_NaN b) as Nb.
  assert (Hmax : (if (a <? b)%Z then of_Z b else of_Z a) = of_Z (Z.max a b)).
  { destruct (Z.ltb_spec a b); f_equal; lia. }
  rewrite <- Hmax, <- Hlt.
  destruct (Z.eq_dec a 0) as [-> | Hna], (Z.eq_dec b 0) as [-> | Hnb].
  - reflexivity.
  - destruct (of_Z_finite b Hnb Hb) as (mb & eb & -> & _). reflexivity.
  - destruct (of_Z_finite a Hna Ha) as (ma & ea & -> & _). reflexivity.
  - destruct (of_Z_finite a Hna Ha) as (ma & ea & -> & _).
    destruct (of_Z_finite b Hnb Hb) as (mb & eb & -> & _). reflexivity.
Qed.

Lemma truthy_of_Z n : safe n -> truthy (of_Z n) = negb (n =? 0)%Z.
Proof.
  intros Hn. destruct (Z.eq_dec n 0) as [-> | Hnz]; [reflexivity |].
  destruct (of_Z_finite n Hnz Hn) as (m & e & -> & _).
  simpl. symmetry. apply negb_true_iff, Z.eqb_neq, Hnz.
Qed.

(** [Math.max(1, weeks || 1)] on a whole number of weeks. *)
Lemma totalWeeks_of_Z f n :
  weeks f = of_Z n -> safe n -> totalWeeks f = of_Z (Z.max 1 n).
Proof.
  intros Hw Hn. unfold totalWeeks. rewrite Hw, truthy_of_Z by assumption.
  destruct (Z.eqb_spec n 0) as [-> | Hnz]; [reflexivity |].
  simpl negb. cbv iota. apply Math_max_of_Z2; [unfold safe; simpl; lia | assumption].
Qed.

Section Loop.
Variables (tz : Date.TimeZone) (f : Form) (base : Date.t) (N : Z).
Hypothesis HN : totalWeeks f = of_Z N.
Hypothesis HsN : safe N.

Lemma continue i : (0 <= i <= N)%Z -> (of_Z i <? totalWeeks f) = (i <? N)%Z.
Proof.
  intros Hi. rewrite HN. apply ltb_of_Z; [| assumption].
  unfold safe in *. lia.
Qed.

(** The loop pushes one row for each [i] below the number of weeks. *)
Lemma weekly_length fuel : forall i acc rows,
  weekly tz f base fuel i acc = Some (Normal rows) ->
  (0 <= i <= N)%Z -> Z.of_nat (length acc) = i ->
  Z.of_nat (length rows) = N.
Proof.
  induction fuel as [| fuel IH]; intros i acc rows Hrun Hi Hacc; [discriminate |].
  cbn [weekly] in Hrun. rewrite continue in Hrun by assumption.
  destruct (Z.ltb_spec i N).
  - destruct (formatDateForDB _) as [s |]; [| discriminate].
    apply (IH _ _ _ Hrun); [lia |]. rewrite length_app. simpl. lia.
  - injection Hrun as <-. lia.
Qed.

(** With fuel above the number of weeks left, the loop ends. *)
Lemma weekly_ends fuel : forall i acc,
  (0 <= i <= N)%Z -> (N - i < Z.of_nat fuel)%Z ->
  weekly tz f base fuel i acc <> None.
Proof.
  induction fuel as [| fuel IH]; intros i acc Hi Hfuel; [simpl in Hfuel; lia |].
  cbn [weekly]. rewrite continue by assumption.
  destruct (Z.ltb_spec i N); [| discriminate].
  destruct (formatDateForDB _) as [s |]; [| discriminate].
  apply IH; lia.
Qed.

End Loop.

(** X2. A recurring submission for a whole number [n] of weeks ends when the
    fuel exceeds the number of rows, and when it inserts, it inserts exactly
    [max(1, n)] rows, in every time zone; each row carries the fields of the
    form. *)
Theorem handleSubmit_recurring_rows (tz : Date.TimeZone) (fuel : nat) (f : Form)
    (failure : option string) (n : Z) :
  isRecurring f = true -> weeks f = of_Z n -> safe n ->
  ((Z.max 1 n < Z.of_nat fuel)%Z -> handleSubmit tz fuel f failure <> None)
  /\ (forall rows, handleSubmit tz fuel f failure = Some (Inserted rows) ->
        Z.of_nat (length rows) = Z.max 1 n
        /\ Forall (fun r => r = row f (date r)) rows).
Proof.
  intros Hrec Hw Hn.
  pose proof (totalWeeks_of_Z f n Hw Hn) as HN.
  assert (HsN : safe (Z.max 1 n)) by (unfold safe in *; lia).
  split.
  - intros Hfuel. unfold handleSubmit, eventsToInsert. rewrite Hrec.
    destruct (decide _); [discriminate |].
    pose proof (weekly_ends tz f (Date.of_string (date_field f)) _ HN HsN fuel 0 []
                  ltac:(lia) ltac:(lia)) as Hends.
    destruct (weekly _ _ _ _ _ _) as [[rows | e] |]; [| discriminate | contradiction].
    destruct failure; discriminate.
  - intros rows Hrun. unfold handleSubmit in Hrun.
    destruct (eventsToInsert tz fuel f) as [[rows' | e] |] eqn:He; try discriminate.
    destruct failure; [discriminate |]. injection Hrun as ->.
    unfold eventsToInsert in He. destruct (decide _); [discriminate |].
    rewrite Hrec in He. split.
    + eapply weekly_length; [exact HN | exact HsN | exact He | lia | reflexivity].
    + eapply NewEventFacts.weekly_fields; [exact He | constructor].
Qed.

Lemma handleSubmit_recurring_rows_witness :
  ((Z.max 1 2 < Z.of_nat 3)%Z ->
   handleSubmit Date.New_York_2025 3 two_weeks None <> None)
  /\ (forall rows,
        handleSubmit Date.New_York_2025 3 two_weeks None = Some (Inserted rows) ->
        Z.of_nat (length rows) = Z.max 1 2
        /\ Forall (fun r => r = row two_weeks (date r)) rows).
Proof.
  apply (handleSubmit_recurring_rows Date.New_York_2025 3 two_weeks None 2);
    [reflexivity | reflexivity | unfold safe; simpl; lia].
Defined.

End RecurringFacts.

Module CivilFacts.
Import Date DateFacts.

Ltac months Hm :=
  match type of Hm with
  | (1 <= ?m <= 12)%Z =>
      assert (m = 1 \/ m = 2 \/ m = 3 \/ m = 4 \/ m = 5 \/ m = 6 \/ m = 7 \/ m = 8
              \/ m = 9 \/ m = 10 \/ m = 11 \/ m = 12)%Z as Hc by lia;
      clear Hm;
      repeat (destruct Hc as [-> | Hc]); [.. | subst m]
  end.

(** The months as the calendar has them. *)
Lemma days_in_month_length y m :
  (1 <= m <= 12)%Z -> days_in_month y m = month_length y m.
Proof.
  intros Hm. unfold days_in_month, month_length, leap, days_from_civil.
  months Hm; simpl;
    repeat match goal with
           | |- context [(?a =? ?b)%Z] => destruct (Z.eqb_spec a b)
           end; simpl; Z.div_mod_to_equations; lia.
Qed.

Lemma days_in_month_cases y m :
  (1 <= m <= 12)%Z -> (28 <= days_in_month y m <= 31)%Z.
Proof.
  intros Hm. rewrite days_in_month_length by exact Hm. unfold month_length.
  destruct (m =? 2)%Z; [destruct (leap y); lia |].
  destruct (_ || _); lia.
Qed.

Lemma era_of_days y' doe :
  (0 <= doe < 146097)%Z ->
  let z := (y' / 400 * 146097 + doe - 719468)%Z in
  ((z + 719468) / 146097 = y' / 400
   /\ z + 719468 - (z + 719468) / 146097 * 146097 = doe)%Z.
Proof. intros H z. subst z. Z.div_mod_to_equations. lia. Qed.

Lemma year_of_era yoe doy :
  (0 <= yoe <= 399)%Z -> (0 <= doy)%Z ->
  (doy < 365 * (yoe + 1) + (yoe + 1) / 4 - (yoe + 1) / 100 + (yoe + 1) / 400
         - (365 * yoe + yoe / 4 - yoe / 100))%Z ->
  let doe := (yoe * 365 + yoe / 4 - yoe / 100 + doy)%Z in
  ((doe - doe / 1460 + doe / 36524 - doe / 146096) / 365 = yoe
   /\ 0 <= doe < 146097)%Z.
Proof. intros H1 H2 H3 doe. subst doe. Z.div_mod_to_equations. lia. Qed.

Lemma civil_from_days_from_civil y m d :
  (1 <= m <= 12)%Z -> (1 <= d <= days_in_month y m)%Z ->
  civil_from_days (days_from_civil y m d) = (y, m, d).
Proof.
  intros Hm Hd. unfold days_in_month in Hd.
  unfold civil_from_days.
  set (z := days_from_civil y m d) in *.
  set (y' := if (m <=? 2)%Z then (y - 1)%Z else y).
  set (mp := if (2 <? m)%Z then (m - 3)%Z else (m + 9)%Z).
  set (yoe := (y' - y' / 400 * 400)%Z).
  set (doy := ((153 * mp + 2) / 5 + d - 1)%Z).
  assert (Hz : z = (y' / 400 * 146097 + (yoe * 365 + yoe / 4 - yoe / 100 + doy) - 719468)%Z)
    by reflexivity.
  assert (Hyoe : (0 <= yoe <= 399)%Z) by (subst yoe; Z.div_mod_to_equations; lia).
  assert (Hdoy : (0 <= doy
                  /\ doy < 365 * (yoe + 1) + (yoe + 1) / 4 - (yoe + 1) / 100
                           + (yoe + 1) / 400
                           - (365 * yoe + yoe / 4 - yoe / 100)
                  /\ (5 * doy + 2) / 153 = mp)%Z).
  { subst doy yoe y' mp. unfold days_from_civil in Hd. clear Hz z.
    months Hm; simpl in *; Z.div_mod_to_equations; lia. }
  destruct Hdoy as (Hdoy0 & Hdoy1 & Hmp).
  destruct (year_of_era yoe doy Hyoe Hdoy0 Hdoy1) as [Ey Hdoe].
  destruct (era_of_days y' _ Hdoe) as [Eera Edoe]. rewrite <- Hz in Eera, Edoe.
  cbv zeta. rewrite Edoe, Eera, Ey.
  replace (yoe * 365 + yoe / 4 - yoe / 100 + doy - (365 * yoe + yoe / 4 - yoe / 100))%Z
    with doy by lia.
  rewrite Hmp. subst doy yoe y' mp. clear - Hm.
  months Hm; simpl; (f_equal; [f_equal |]); lia.
Qed.

End CivilFacts.

Module IsoFacts.
Import Date DateFacts CivilFacts NumberFacts.

Lemma digit_of_char c v : digit_of 10 c = Some v -> (0 <= v <= 9)%Z /\ c = digit_char v.
Proof.
  unfold digit_of, digit_char. intros H.
  pose proof (N_ascii_embedding (N_of_ascii c)) as Hemb.
  destruct ((48 <=? _)%Z && (_ <=? 57)%Z) eqn:E1.
  - apply andb_true_iff in E1 as [H1 H2]. apply Z.leb_le in H1, H2.
    destruct (_ <? 10)%Z eqn:E; [| discriminate]. injection H as <-.
    split; [lia |]. replace (48 + (Z.of_N (N_of_ascii c) - 48))%Z with (Z.of_N (N_of_ascii c)) by lia.
    now rewrite N2Z.id, ascii_N_embedding.
  - exfalso. destruct ((97 <=? _)%Z && (_ <=? 102)%Z) eqn:E2.
    + apply andb_true_iff in E2 as [H1 H2]. apply Z.leb_le in H1, H2.
      destruct (Z.ltb_spec (Z.of_N (N_of_ascii c) - 87) 10); [lia | discriminate].
    + destruct ((65 <=? _)%Z && (_ <=? 70)%Z) eqn:E3.
      * apply andb_true_iff in E3 as [H1 H2]. apply Z.leb_le in H1, H2.
        destruct (Z.ltb_spec (Z.of_N (N_of_ascii c) - 55) 10); [lia | discriminate].
      * discriminate.
Qed.

Lemma digit_of_digit_char v : (0 <= v <= 9)%Z -> digit_of 10 (digit_char v) = Some v.
Proof.
  intros H.
  assert (v = 0 \/ v = 1 \/ v = 2 \/ v = 3 \/ v = 4 \/ v = 5 \/ v = 6 \/ v = 7
          \/ v = 8 \/ v = 9)%Z as Hc by lia.
  repeat (destruct Hc as [-> | Hc]; [reflexivity |]). subst. reflexivity.
Qed.

Lemma two_digits_value a b n :
  two_digits a b = Some n ->
  exists x y, (0 <= x <= 9 /\ 0 <= y <= 9 /\ n = 10 * x + y)%Z
              /\ a = digit_char x /\ b = digit_char y.
Proof.
  unfold two_digits. destruct (digit_of 10 a) as [x |] eqn:Ea; [| discriminate].
  destruct (digit_of 10 b) as [y |] eqn:Eb; [| discriminate]. intros [= <-].
  apply digit_of_char in Ea as [Hx ->], Eb as [Hy ->]. exists x, y. auto.
Qed.

Lemma In_decimal_digits v : (0 <= v <= 9)%Z -> In v decimal_digits.
Proof.
  intros H.
  assert (v = 0 \/ v = 1 \/ v = 2 \/ v = 3 \/ v = 4 \/ v = 5 \/ v = 6 \/ v = 7
          \/ v = 8 \/ v = 9)%Z as Hc by lia.
  unfold decimal_digits. simpl. intuition auto.
Qed.

Lemma pad2_all :
  forallb (fun a => forallb (fun b => pad_ok 2 (10 * a + b) [a; b])
                      decimal_digits) decimal_digits = true.
Proof. vm_compute. reflexivity. Qed.

Lemma pad4_all :
  forallb (fun a => forallb (fun b => forallb (fun c => forallb (fun d =>
    pad_ok 4 (1000 * a + 100 * b + 10 * c + d) [a; b; c; d])
    decimal_digits) decimal_digits) decimal_digits) decimal_digits = true.
Proof. vm_compute. reflexivity. Qed.

Lemma pad2_digits a b :
  (0 <= a <= 9)%Z -> (0 <= b <= 9)%Z ->
  pad 2 (10 * a + b) = String (digit_char a) (String (digit_char b) "").
Proof.
  intros Ha Hb. pose proof pad2_all as Hall. rewrite forallb_forall in Hall.
  specialize (Hall a (In_decimal_digits a Ha)). rewrite forallb_forall in Hall.
  apply String.eqb_eq, (Hall b (In_decimal_digits b Hb)).
Qed.

Lemma pad4_digits a b c d :
  (0 <= a <= 9)%Z -> (0 <= b <= 9)%Z -> (0 <= c <= 9)%Z -> (0 <= d <= 9)%Z ->
  pad 4 (1000 * a + 100 * b + 10 * c + d)
  = String (digit_char a) (String (digit_char b)
      (String (digit_char c) (String (digit_char d) ""))).
Proof.
  intros Ha Hb Hc Hd. pose proof pad4_all as Hall. rewrite forallb_forall in Hall.
  specialize (Hall a (In_decimal_digits a Ha)). rewrite forallb_forall in Hall.
  specialize (Hall b (In_decimal_digits b Hb)). rewrite forallb_forall in Hall.
  specialize (Hall c (In_decimal_digits c Hc)). rewrite forallb_forall in Hall.
  apply String.eqb_eq, (Hall d (In_decimal_digits d Hd)).
Qed.

Lemma string_of_chars s : string_of_list_ascii (chars s) = s.
Proof. induction s as [| c s IH]; simpl; [reflexivity | now rewrite IH]. Qed.

Lemma Day_midnight x : Day (x * msPerDay) = x.
Proof. unfold Day. apply Z.div_mul. discriminate. Qed.

Lemma TimeWithinDay_midnight x : TimeWithinDay (x * msPerDay) = 0%Z.
Proof. unfold TimeWithinDay. apply Z.mod_mul. discriminate. Qed.

(** What [new Date(s)] accepts as a date, and the time it yields. *)
Lemma of_string_Some s t :
  of_string s = Some t ->
  exists y1 y2 y3 y4 m1 m2 d1 d2,
    ((0 <= y1 <= 9) /\ (0 <= y2 <= 9) /\ (0 <= y3 <= 9) /\ (0 <= y4 <= 9)
     /\ (0 <= m1 <= 9) /\ (0 <= m2 <= 9) /\ (0 <= d1 <= 9) /\ (0 <= d2 <= 9))%Z
    /\ s = date_only y1 y2 y3 y4 m1 m2 d1 d2
    /\ (1 <= 10 * m1 + m2 <= 12)%Z
    /\ (1 <= 10 * d1 + d2
         <= days_in_month (1000 * y1 + 100 * y2 + 10 * y3 + y4) (10 * m1 + m2))%Z
    /\ t = (days_from_civil (1000 * y1 + 100 * y2 + 10 * y3 + y4) (10 * m1 + m2)
                            (10 * d1 + d2) * msPerDay)%Z.
Proof.
  unfold of_string. intros H. rewrite <- (string_of_chars s).
  destruct (chars s) as [| c1 [| c2 [| c3 [| c4 [| h1 [| c5 [| c6 [| h2 [| c7 [| c8 [| ? ?]]]]]]]]]]];
    try discriminate.
  destruct (two_digits c1 c2) as [yh |] eqn:E1; [| discriminate].
  destruct (two_digits c3 c4) as [yl |] eqn:E2; [| discriminate].
  destruct (two_digits c5 c6) as [m |] eqn:E3; [| discriminate].
  destruct (two_digits c7 c8) as [d |] eqn:E4; [| discriminate].
  apply two_digits_value in E1 as (y1 & y2 & (Hy1 & Hy2 & ->) & -> & ->).
  apply two_digits_value in E2 as (y3 & y4 & (Hy3 & Hy4 & ->) & -> & ->).
  apply two_digits_value in E3 as (m1 & m2 & (Hm1 & Hm2 & ->) & -> & ->).
  apply two_digits_value in E4 as (d1 & d2 & (Hd1 & Hd2 & ->) & -> & ->).
  cbv zeta in H.
  destruct (Ascii.eqb_spec h1 "-"%char) as [-> |]; [| discriminate].
  destruct (Ascii.eqb_spec h2 "-"%char) as [-> |]; [| discriminate].
  cbn [andb] in H.
  destruct (Z.leb_spec 1 (10 * m1 + m2)); [| discriminate].
  destruct (Z.leb_spec (10 * m1 + m2) 12); [| discriminate].
  destruct (Z.leb_spec 1 (10 * d1 + d2)); [| discriminate].
  cbn [andb] in H.
  match type of H with (if (?a <=? ?b)%Z then _ else _) = _ =>
    destruct (Z.leb_spec a b) as [Hd |]; [| discriminate] end.
  injection H as <-.
  exists y1, y2, y3, y4, m1, m2, d1, d2.
  repeat split; try lia; try reflexivity.
  - unfold days_in_month.
    replace (1000 * y1 + 100 * y2 + 10 * y3 + y4)%Z
      with (100 * (10 * y1 + y2) + (10 * y3 + y4))%Z by lia. exact Hd.
  - f_equal. f_equal. lia.
Qed.

(** The ISO string of the midnight that starts a calendar date of the years
    0 to 9999. *)
Lemma toISOString_midnight y1 y2 y3 y4 m1 m2 d1 d2 :
  ((0 <= y1 <= 9) /\ (0 <= y2 <= 9) /\ (0 <= y3 <= 9) /\ (0 <= y4 <= 9)
   /\ (0 <= m1 <= 9) /\ (0 <= m2 <= 9) /\ (0 <= d1 <= 9) /\ (0 <= d2 <= 9))%Z ->
  (1 <= 10 * m1 + m2 <= 12)%Z ->
  (1 <= 10 * d1 + d2
   <= days_in_month (1000 * y1 + 100 * y2 + 10 * y3 + y4) (10 * m1 + m2))%Z ->
  toISOString (Some (days_from_civil (1000 * y1 + 100 * y2 + 10 * y3 + y4)
                       (10 * m1 + m2) (10 * d1 + d2) * msPerDay)%Z)
  = Normal (date_only y1 y2 y3 y4 m1 m2 d1 d2 +:+ "T00:00:00.000Z").
Proof.
  intros (Hy1 & Hy2 & Hy3 & Hy4 & Hm1 & Hm2 & Hd1 & Hd2) Hm Hd.
  unfold toISOString, YearFromTime, MonthFromTime, DateFromTime.
  rewrite Day_midnight, TimeWithinDay_midnight.
  rewrite civil_from_days_from_civil by assumption. cbn [fst snd].
  replace ((0 <=? 1000 * y1 + 100 * y2 + 10 * y3 + y4)
           && (1000 * y1 + 100 * y2 + 10 * y3 + y4 <=? 9999))%Z with true
    by (symmetry; apply andb_true_iff; split; apply Z.leb_le; lia).
  replace (10 * m1 + m2 - 1 + 1)%Z with (10 * m1 + m2)%Z by lia.
  rewrite pad4_digits, !pad2_digits by assumption.
  reflexivity.
Qed.

End IsoFacts.

Module ValidFacts.
Import Date DateFacts CivilFacts.

Ltac decide_closed :=
  repeat match goal with
         | |- context [(?a <? ?b)%Z] =>
             let v := eval vm_compute in (a <? b)%Z in
             match v with true => idtac | false => idtac end;
             change (a <? b)%Z with v; cbv iota
         | |- context [(?a <=? ?b)%Z] =>
             let v := eval vm_compute in (a <=? b)%Z in
             match v with true => idtac | false => idtac end;
             change (a <=? b)%Z with v; cbv iota
         | |- context [(?a =? ?b)%Z] =>
             let v := eval vm_compute in (a =? b)%Z in
             match v with true => idtac | false => idtac end;
             change (a =? b)%Z with v; cbv iota
         end; cbn [orb andb negb].

(** A day number falls on a day of its month. *)
Lemma civil_from_days_valid z :
  let '(y, m, d) := civil_from_days z in
  (1 <= d <= days_in_month y m)%Z.
Proof.
  assert (Hm := days_from_civil_from_days z). revert Hm.
  unfold civil_from_days.
  set (doe := (z + 719468 - (z + 719468) / 146097 * 146097)%Z).
  set (era := ((z + 719468) / 146097)%Z).
  set (yoe := ((doe - doe / 1460 + doe / 36524 - doe / 146096) / 365)%Z).
  set (doy := (doe - (365 * yoe + yoe / 4 - yoe / 100))%Z).
  set (mp := ((5 * doy + 2) / 153)%Z).
  cbv zeta.
  assert (Hdoe : (0 <= doe < 146097)%Z)
    by (subst doe; Z.div_mod_to_equations; lia).
  assert (Hyoe : (0 <= yoe <= 399)%Z)
    by (subst yoe; Z.div_mod_to_equations; lia).
  assert (Hdoy : (0 <= doy <= 365)%Z)
    by (subst doy yoe; Z.div_mod_to_equations; lia).
  assert (Hleap : (doy = 365 -> leap (yoe + era * 400 + 1) = true)%Z).
  { intros E. unfold leap. subst doy yoe. clear mp.
    apply orb_true_iff.
    destruct (Z.eqb_spec ((((doe - doe / 1460 + doe / 36524 - doe / 146096) / 365
                            + era * 400 + 1) mod 400)) 0); [now right | left].
    apply andb_true_iff. split; [apply Z.eqb_eq | apply negb_true_iff, Z.eqb_neq];
      Z.div_mod_to_equations; lia. }
  assert (Hmp : (0 <= mp <= 11)%Z)
    by (subst mp; Z.div_mod_to_equations; lia).
  assert (Hd : (1 <= doy - (153 * mp + 2) / 5 + 1
                /\ (mp <= 10 -> doy - (153 * mp + 2) / 5 + 1
                                <= (153 * (mp + 1) + 2) / 5 - (153 * mp + 2) / 5)
                /\ (mp = 11 -> doy - (153 * mp + 2) / 5 + 1 <= doy - 336))%Z)
    by (subst mp; Z.div_mod_to_equations; lia).
  clearbody mp doy yoe era doe. intros [Hm _].
  rewrite days_in_month_length by exact Hm. unfold month_length.
  assert (mp = 0 \/ mp = 1 \/ mp = 2 \/ mp = 3 \/ mp = 4 \/ mp = 5 \/ mp = 6 \/ mp = 7
          \/ mp = 8 \/ mp = 9 \/ mp = 10 \/ mp = 11)%Z as Hc by lia.
  repeat (destruct Hc as [-> | Hc];
          [decide_closed; Z.div_mod_to_equations; lia |]).
  try subst mp. decide_closed.
  destruct (leap (yoe + era * 400 + 1)); [Z.div_mod_to_equations; lia |].
  assert (doy <> 365) by (intros E; now apply Hleap in E).
  Z.div_mod_to_equations; lia.
Qed.

End ValidFacts.

Module StoredDateFacts.
Import NewEvent Date DateFacts CivilFacts IsoFacts ValidFacts.

(** A date that [new Date] accepts is written back as it was read. *)
Lemma formatDateForDB_of_string s t :
  of_string s = Some t -> formatDateForDB (Some t) = Normal s.
Proof.
  intros H.
  apply of_string_Some in H
    as (y1 & y2 & y3 & y4 & m1 & m2 & d1 & d2 & Hdig & -> & Hm & Hd & ->).
  unfold formatDateForDB. rewrite toISOString_midnight by assumption.
  reflexivity.
Qed.

(** Reading the ISO form of a calendar date. *)
Lemma of_string_date_only y1 y2 y3 y4 m1 m2 d1 d2 :
  ((0 <= y1 <= 9) /\ (0 <= y2 <= 9) /\ (0 <= y3 <= 9) /\ (0 <= y4 <= 9)
   /\ (0 <= m1 <= 9) /\ (0 <= m2 <= 9) /\ (0 <= d1 <= 9) /\ (0 <= d2 <= 9))%Z ->
  (1 <= 10 * m1 + m2 <= 12)%Z ->
  (1 <= 10 * d1 + d2
   <= days_in_month (1000 * y1 + 100 * y2 + 10 * y3 + y4) (10 * m1 + m2))%Z ->
  of_string (date_only y1 y2 y3 y4 m1 m2 d1 d2)
  = Some (days_from_civil (1000 * y1 + 100 * y2 + 10 * y3 + y4)
            (10 * m1 + m2) (10 * d1 + d2) * msPerDay)%Z.
Proof.
  intros (Hy1 & Hy2 & Hy3 & Hy4 & Hm1 & Hm2 & Hd1 & Hd2) Hm Hd.
  unfold of_string, date_only, two_digits. cbn [chars string_of_list_ascii].
  rewrite !digit_of_digit_char by assumption. cbv zeta.
  replace (100 * (10 * y1 + y2) + (10 * y3 + y4))%Z
    with (1000 * y1 + 100 * y2 + 10 * y3 + y4)%Z by lia.
  unfold days_in_month in Hd.
  change (Ascii.eqb "-" "-") with true. cbn [andb].
  destruct (Z.leb_spec 1 (10 * m1 + m2)); [| lia].
  destruct (Z.leb_spec (10 * m1 + m2) 12); [| lia].
  destruct (Z.leb_spec 1 (10 * d1 + d2)); [| lia]. cbn [andb].
  match goal with |- (if (?a <=? ?b)%Z then _ else _) = _ =>
    destruct (Z.leb_spec a b); [reflexivity | lia] end.
Qed.

(** The years 0 to 9999 in day numbers. *)
Lemma year_in_range z :
  (-719528 <= z < 2932897)%Z ->
  let '(y, m, d) := civil_from_days z in (0 <= y <= 9999)%Z.
Proof.
  intros Hz. pose proof (days_from_civil_from_days z) as H.
  pose proof (civil_from_days_valid z) as Hv.
  destruct (civil_from_days z) as [[y m] d]. destruct H as [Hm H].
  pose proof (days_in_month_cases y m Hm) as Hdim.
  assert (Hd : (1 <= d <= 31)%Z) by lia.
  unfold days_from_civil in H. clear Hv Hdim.
  destruct (Z.leb_spec m 2); destruct (Z.ltb_spec 2 m); try lia;
    Z.div_mod_to_equations; lia.
Qed.

(** The date of a midnight of the years 0 to 9999, read back, is the
    midnight. *)
Lemma of_string_formatDateForDB z s :
  (-719528 <= z < 2932897)%Z ->
  formatDateForDB (Some (z * msPerDay)%Z) = Normal s ->
  of_string s = Some (z * msPerDay)%Z.
Proof.
  intros Hz. pose proof (days_from_civil_from_days z) as H.
  pose proof (civil_from_days_valid z) as Hv.
  pose proof (year_in_range z Hz) as Hy.
  destruct (civil_from_days z) as [[y m] d]. destruct H as [Hm H].
  pose proof (days_in_month_cases y m Hm) as Hdim.
  set (y1 := (y / 1000)%Z). set (y2 := (y / 100 mod 10)%Z).
  set (y3 := (y / 10 mod 10)%Z). set (y4 := (y mod 10)%Z).
  set (m1 := (m / 10)%Z). set (m2 := (m mod 10)%Z).
  set (d1 := (d / 10)%Z). set (d2 := (d mod 10)%Z).
  assert (Ey : y = (1000 * y1 + 100 * y2 + 10 * y3 + y4)%Z)
    by (subst y1 y2 y3 y4; Z.div_mod_to_equations; lia).
  assert (Em : m = (10 * m1 + m2)%Z) by (subst m1 m2; Z.div_mod_to_equations; lia).
  assert (Ed : d = (10 * d1 + d2)%Z) by (subst d1 d2; Z.div_mod_to_equations; lia).
  assert (Hdig : ((0 <= y1 <= 9) /\ (0 <= y2 <= 9) /\ (0 <= y3 <= 9) /\ (0 <= y4 <= 9)
                  /\ (0 <= m1 <= 9) /\ (0 <= m2 <= 9) /\ (0 <= d1 <= 9)
                  /\ (0 <= d2 <= 9))%Z)
    by (subst y1 y2 y3 y4 m1 m2 d1 d2; repeat split; Z.div_mod_to_equations; lia).
  clearbody y1 y2 y3 y4 m1 m2 d1 d2. subst y m d.
  rewrite <- H. unfold formatDateForDB.
  rewrite toISOString_midnight by assumption.
  intros [= <-]. now apply of_string_date_only.
Qed.

(** X7. A submission that does not recur, for a date that [new Date] accepts,
    inserts one row, dated as picked, in every time zone; all it can fail on
    is the store. *)
Theorem handleSubmit_single_date (tz : TimeZone) (fuel : nat) (f : Form)
    (failure : option string) (t0 : Z) :
  isRecurring f = false ->
  of_string (date_field f) = Some t0 ->
  handleSubmit tz fuel f failure
  = match failure with
    | None => Some (Inserted [row f (date_field f)])
    | Some message =>
        Some (Failed (if decide (message = "") then "Something went wrong" else message))
    end.
Proof.
  intros Hrec Hdate. unfold handleSubmit, eventsToInsert.
  destruct (decide (date_field f = "")) as [E |].
  - rewrite E in Hdate. discriminate.
  - rewrite Hrec, Hdate, (formatDateForDB_of_string _ _ Hdate). reflexivity.
Qed.

Lemma handleSubmit_single_date_witness :
  handleSubmit New_York_2025 0 one_off None
  = Some (Inserted [row one_off (date_field one_off)]).
Proof.
  exact (handleSubmit_single_date New_York_2025 0 one_off None 1741478400000
           eq_refl eq_refl).
Defined.

(** X8. In a zone that keeps one offset, the rows of a recurring submission
    carry dates that read back as the picked date and the days 7, 14, ...
    after it, up to the year 9999. *)
Theorem handleSubmit_weekly_dates offset fuel f failure rows t0 :
  isRecurring f = true ->
  of_string (date_field f) = Some t0 ->
  handleSubmit (fixed_zone offset) fuel f failure = Some (Inserted rows) ->
  forall i r, rows !! i = Some r ->
    (t0 + 7 * Z.of_nat i * msPerDay < 253402300800000)%Z ->
    of_string (date r) = Some (t0 + 7 * Z.of_nat i * msPerDay)%Z.
Proof.
  intros Hrec Hdate Hrun i r Hi Hbound.
  unfold handleSubmit in Hrun.
  destruct (eventsToInsert _ fuel f) as [[rows' | e] |] eqn:He; try discriminate.
  destruct failure; [discriminate |]. injection Hrun as ->.
  unfold eventsToInsert in He. destruct (decide _); [discriminate |].
  rewrite Hrec, Hdate in He.
  assert (Hrow : dated t0 (Z.of_nat i * 7) r /\ r = row f (date r)).
  { eapply NewEventFacts.weekly_fixed_zone; [exact He | reflexivity | | exact Hi].
    intros j r' Hj. now rewrite lookup_nil in Hj. }
  destruct Hrow as [Hd _]. unfold dated in Hd.
  apply of_string_Some in Hdate
    as (y1 & y2 & y3 & y4 & m1 & m2 & d1 & d2 & Hdig & _ & Hm & Hday & ->).
  set (z := days_from_civil (1000 * y1 + 100 * y2 + 10 * y3 + y4) (10 * m1 + m2)
              (10 * d1 + d2)) in *.
  assert (Hz : (-719528 <= z)%Z).
  { subst z. unfold days_from_civil. clear - Hdig Hm Hday.
    destruct (Z.leb_spec (10 * m1 + m2) 2); destruct (Z.ltb_spec 2 (10 * m1 + m2));
      try lia; Z.div_mod_to_equations; lia. }
  replace (z * msPerDay + 7 * Z.of_nat i * msPerDay)%Z
    with ((z + 7 * Z.of_nat i) * msPerDay)%Z in * by lia.
  replace (z * msPerDay + Z.of_nat i * 7 * msPerDay)%Z
    with ((z + 7 * Z.of_nat i) * msPerDay)%Z in Hd by lia.
  apply of_string_formatDateForDB; [| exact Hd].
  unfold msPerDay in Hbound. lia.
Qed.

Lemma handleSubmit_weekly_dates_witness :
  of_string (date (row two_weeks "2025-03-12"))
  = Some (1741132800000 + 7 * Z.of_nat 1 * msPerDay)%Z.
Proof.
  refine (handleSubmit_weekly_dates 0 3 two_weeks None
            [row two_weeks "2025-03-05"; row two_weeks "2025-03-12"]
            1741132800000 eq_refl _ _ 1%nat (row two_weeks "2025-03-12") eq_refl _);
    vm_compute; reflexivity.
Defined.

End StoredDateFacts.

Module TrimFacts.

Lemma drop_ws_split l :
  exists a, l = a ++ drop_ws l /\ white a
            /\ forall c r, drop_ws l = c :: r -> is_ws c = false.
Proof.
  induction l as [| c l (a & E & Ha & Hh)]; simpl.
  - exists []. repeat split; [constructor | discriminate].
  - destruct (is_ws c) eqn:Hc.
    + exists (c :: a). split; [simpl; now f_equal |]. split; [now constructor | exact Hh].
    + exists []. repeat split; [constructor |]. now intros ? ? [= <- _].
Qed.

Lemma drop_ws_white l : white l -> drop_ws l = [].
Proof. induction 1 as [| c l Hc _ IH]; simpl; [reflexivity | now rewrite Hc]. Qed.

Lemma drop_ws_head c r : is_ws c = false -> drop_ws (c :: r) = c :: r.
Proof. simpl. now intros ->. Qed.

(** [trim]: the white space at both ends goes, and nothing else. *)
Lemma trim_split l :
  exists a b, l = a ++ trim l ++ b /\ white a /\ white b
              /\ (forall c r, trim l = c :: r -> is_ws c = false)
              /\ (forall c r, trim l = r ++ [c] -> is_ws c = false).
Proof.
  unfold trim. destruct (drop_ws_split l) as (a & E & Ha & Hh).
  destruct (drop_ws_split (rev (drop_ws l))) as (b & E' & Hb & Hh').
  set (t := drop_ws (rev (drop_ws l))) in *.
  assert (El : drop_ws l = rev t ++ rev b).
  { rewrite <- rev_app_distr, <- E'. now rewrite rev_involutive. }
  exists a, (rev b). split; [now rewrite <- El |].
  split; [exact Ha |]. split; [now apply List.Forall_rev |]. split.
  - intros c r Hc. apply (Hh c (r ++ rev b)). now rewrite El, Hc.
  - intros c r Hc. apply (Hh' c (rev r)).
    rewrite <- (rev_involutive t), Hc, rev_app_distr. reflexivity.
Qed.

Lemma trim_white l : trim l = [] <-> white l.
Proof.
  split.
  - intros E. destruct (trim_split l) as (a & b & El & Ha & Hb & _).
    rewrite E in El. rewrite El. now apply List.Forall_app.
  - intros H. unfold trim. now rewrite (drop_ws_white l H).
Qed.

Lemma trim_fixed t :
  (forall c r, t = c :: r -> is_ws c = false) ->
  (forall c r, t = r ++ [c] -> is_ws c = false) ->
  trim t = t.
Proof.
  intros Hh Hl. unfold trim. destruct t as [| c r]; [reflexivity |].
  rewrite (drop_ws_head c r (Hh c r eq_refl)).
  destruct (rev (c :: r)) as [| c' r'] eqn:E.
  - apply (f_equal (@length _)) in E. rewrite length_rev in E. discriminate.
  - rewrite drop_ws_head; [now rewrite <- E, rev_involutive |].
    apply (Hl c' (rev r')). rewrite <- (rev_involutive (c :: r)), E. reflexivity.
Qed.

Lemma trim_trim l : trim (trim l) = trim l.
Proof.
  destruct (trim_split l) as (a & b & _ & _ & _ & Hh & Hl). now apply trim_fixed.
Qed.

Lemma chars_of_list l : chars (string_of_list_ascii l) = l.
Proof. induction l as [| c l IH]; simpl; [reflexivity | now rewrite IH]. Qed.

Lemma String_trim_idem s : String_trim (String_trim s) = String_trim s.
Proof. unfold String_trim. now rewrite chars_of_list, trim_trim. Qed.

(** [s.trim() || null] cleans [s], and cleaning what is clean changes
    nothing. *)
Lemma or_null_trim s :
  cleaned s (or_null (String_trim s))
  /\ (forall t, or_null (String_trim s) = Some t -> or_null (String_trim t) = Some t).
Proof.
  unfold cleaned, or_null, String_trim.
  destruct (trim_split (chars s)) as (a & b & El & Ha & Hb & Hh & Hl).
  destruct (decide (string_of_list_ascii (trim (chars s)) = "")) as [E | E].
  - apply (f_equal chars) in E. rewrite chars_of_list in E. simpl in E.
    split; [| discriminate]. split; [exact I |]. split; [| discriminate].
    split; [intros _; now apply trim_white | reflexivity].
  - split; [split; [| split] |].
    + split; [exact E |]. rewrite chars_of_list. split; assumption.
    + split; [discriminate |]. intros Hw. apply trim_white in Hw.
      rewrite Hw in E. now contradiction E.
    + intros t [= <-]. exists a, b. now rewrite chars_of_list.
    + intros t [= <-]. rewrite chars_of_list, trim_trim.
      destruct (decide _); [contradiction | reflexivity].
Qed.

(** Loading a cleaned field into the form and cleaning it again gives it
    back. *)
Lemma or_null_trim_reload s :
  or_null (String_trim (or_default (or_null (String_trim s)) ""))
  = or_null (String_trim s).
Proof.
  destruct (or_null (String_trim s)) as [t |] eqn:E; [| reflexivity].
  pose proof (proj2 (or_null_trim s) t E) as Ht.
  destruct (proj1 (or_null_trim s)) as [Hc _]. rewrite E in Hc. destruct Hc as [Hne _].
  simpl. destruct (decide (t = "")); [contradiction | exact Ht].
Qed.

Lemma or_default_string s : or_default (Some s) "" = s.
Proof. simpl. now destruct (decide (s = "")). Qed.

(** X9. Every optional column of a row that [handleSubmit] builds is the
    form's field cleaned: null when the field is white space only, and
    otherwise the field without the white space at its ends, never an empty
    string. *)
Theorem row_cleaned (f : NewEvent.Form) (d : string) :
  cleaned (NewEvent.clientName f) (NewEvent.client_name (NewEvent.row f d))
  /\ cleaned (NewEvent.clientEmail f) (NewEvent.client_email (NewEvent.row f d))
  /\ cleaned (NewEvent.clientPhone f) (NewEvent.client_phone (NewEvent.row f d))
  /\ cleaned (NewEvent.notes_field f) (NewEvent.notes (NewEvent.row f d)).
Proof. repeat split; apply or_null_trim. Qed.

(** X10. A row that [NewEvent] inserted, loaded into the edit form and saved
    without a change, is written back as it was, when its type and status
    are not empty. *)
Theorem update_loadEvent (f : NewEvent.Form) (d : string) :
  NewEvent.eventType f <> "" -> NewEvent.status_field f <> "" ->
  EditEvent.update (EditEvent.loadEvent (EditEvent.stored (NewEvent.row f d)))
  = NewEvent.row f d.
Proof.
  intros Ht Hs. unfold EditEvent.update, EditEvent.loadEvent, EditEvent.stored, NewEvent.row.
  cbn [EditEvent.title_field EditEvent.date_field EditEvent.location_field
       EditEvent.eventType EditEvent.clientName EditEvent.clientEmail
       EditEvent.clientPhone EditEvent.status_field EditEvent.notes_field
       EditEvent.title EditEvent.date EditEvent.location EditEvent.type
       EditEvent.client_name EditEvent.client_email EditEvent.client_phone
       EditEvent.status EditEvent.notes
       NewEvent.title NewEvent.date NewEvent.location NewEvent.type
       NewEvent.client_name NewEvent.client_email NewEvent.client_phone
       NewEvent.status NewEvent.notes].
  rewrite !or_null_trim_reload, !or_default_string.
  unfold or_default.
  destruct (decide (NewEvent.eventType f = "")); [contradiction |].
  destruct (decide (NewEvent.status_field f = "")); [contradiction |].
  reflexivity.
Qed.

Lemma update_loadEvent_witness :
  EditEvent.update (EditEvent.loadEvent
                      (EditEvent.stored (NewEvent.row NewEvent.one_off "2025-03-09")))
  = NewEvent.row NewEvent.one_off "2025-03-09".
Proof. apply update_loadEvent; discriminate. Defined.

End TrimFacts.

Module CountFacts.
Import Float IntFacts NumberFacts CashDrawerFacts IntegerFacts CashDrawer.

Lemma entry_insert counts v v' value :
  In v faceValues -> In v' faceValues ->
  entry (<[toString v := value]> counts) v'
  = if decide (v' = v) then amount value else entry counts v'.
Proof.
  intros Hv Hv'. unfold entry, amount.
  destruct (decide (v' = v)) as [-> | Hne].
  - rewrite lookup_insert_eq. reflexivity.
  - rewrite lookup_insert_ne; [reflexivity |].
    simpl in Hv, Hv'.
    repeat (destruct Hv as [<- | Hv]; [
      repeat (destruct Hv' as [<- | Hv']; [first [congruence | discriminate] |]);
      destruct Hv' |]).
    destruct Hv.
Qed.

Lemma integer_total_entries counts t :
  integer_total counts = Some t <->
  exists n100 n50 n20 n10 n5 n1,
    entry counts 100 = Some n100 /\ entry counts 50 = Some n50
    /\ entry counts 20 = Some n20 /\ entry counts 10 = Some n10
    /\ entry counts 5 = Some n5 /\ entry counts 1 = Some n1
    /\ t = (n100 * 100 + n50 * 50 + n20 * 20 + n10 * 10 + n5 * 5 + n1 * 1)%Z.
Proof.
  unfold integer_total, faceValues. cbn [fold_left].
  destruct (entry counts 100) as [n100 |], (entry counts 50) as [n50 |],
    (entry counts 20) as [n20 |], (entry counts 10) as [n10 |],
    (entry counts 5) as [n5 |], (entry counts 1) as [n1 |];
    (split; [intros [= <-] | intros (? & ? & ? & ? & ? & ? & H)]);
    try discriminate;
    try (decompose [and] H; discriminate).
  - do 6 eexists. repeat split; try reflexivity; lia.
  - destruct H as (H1 & H2 & H3 & H4 & H5 & H6 & ->). simplify_eq. f_equal; lia.
Qed.

(** X11. Typing a whole number into the field of a face value moves the total of
    that drawer by the change of the count times the face value, and leaves
    the other drawer alone. *)
Theorem handleCountChange_total (which : drawer) (v : Z) (value : string)
    (s : Counts) (t n0 n : Z) :
  In v faceValues ->
  integer_total (counts_of which s) = Some t ->
  entry (counts_of which s) v = Some n0 ->
  amount value = Some n ->
  (t + (n - n0) * v < 2 ^ 53)%Z ->
  computeTotal (counts_of which (handleCountChange which v value s))
  = of_Z (t + (n - n0) * v)
  /\ counts_of (other which) (handleCountChange which v value s)
     = counts_of (other which) s.
Proof.
  intros Hv Ht Hn0 Hn Hs.
  split; [| now destruct which].
  assert (E : counts_of which (handleCountChange which v value s)
              = <[toString v := value]> (counts_of which s)) by now destruct which.
  rewrite E. unfold computeTotal. change pzero with (of_Z 0).
  apply fold_integers; [| exact Hs].
  apply integer_total_entries in Ht
    as (n100 & n50 & n20 & n10 & n5 & n1 & E100 & E50 & E20 & E10 & E5 & E1 & ->).
  apply integer_total_entries.
  assert (H : forall v', In v' faceValues ->
            entry (<[toString v := value]> (counts_of which s)) v'
            = if decide (v' = v) then Some n else entry (counts_of which s) v').
  { intros v' Hv'. rewrite entry_insert by assumption. now rewrite Hn. }
  rewrite !H by (simpl; tauto).
  rewrite E100, E50, E20, E10, E5, E1.
  simpl in Hv.
  repeat (destruct Hv as [<- | Hv]; [
    repeat match goal with |- context [decide (?a = ?b)] =>
             destruct (decide (a = b)); try discriminate; try congruence end;
    do 6 eexists; repeat split; try reflexivity;
    match goal with H : entry _ _ = Some n0 |- _ => rewrite H in *; simplify_eq end;
    lia |]).
  destruct Hv.
Qed.

Lemma handleCountChange_total_witness :
  computeTotal (counts_of closing (handleCountChange closing 20 "3" drawer1))
  = of_Z (145 + (3 - 2) * 20)
  /\ counts_of (other closing) (handleCountChange closing 20 "3" drawer1)
     = counts_of (other closing) drawer1.
Proof.
  apply (handleCountChange_total closing 20 "3" drawer1 145 2 3);
    [simpl; tauto | reflexivity | reflexivity | reflexivity | reflexivity].
Defined.

End CountFacts.

Module GoalsPageFacts.
Import Goals GoalsFacts.

(** X12. The page says that there are no goals exactly when it has finished
    loading and there are none. *)
Theorem no_goals_yet_iff (loading : bool) (goals : list Goal) :
  fileable goals ->
  exists activeByMonth,
    groupActiveByMonth goals = Normal activeByMonth
    /\ (no_goals_yet loading activeByMonth (completedGoals goals) = true
        <-> loading = false /\ goals = []).
Proof.
  intros Hf. destruct (groupActiveByMonth_spec goals Hf) as (buckets & Hrun & _ & Hin & Hperm).
  exists buckets. split; [exact Hrun |]. unfold no_goals_yet. split.
  - intros H. apply andb_true_iff in H as [H Hc]. apply andb_true_iff in H as [Hl Hb].
    apply negb_true_iff in Hl. split; [exact Hl |].
    apply Nat.eqb_eq in Hb, Hc.
    destruct buckets; [| discriminate]. simpl in Hperm.
    apply Permutation_nil in Hperm.
    destruct goals as [| g goals]; [reflexivity | exfalso].
    unfold completedGoals in Hc. rewrite filter_cons in Hc, Hperm.
    destruct (is_done g) eqn:E.
    + destruct (decide (true = true)); [discriminate | congruence].
    + destruct (decide (false = false)); [discriminate | congruence].
  - intros [-> ->]. vm_compute in Hrun. injection Hrun as <-. reflexivity.
Qed.

Lemma no_goals_yet_iff_witness :
  exists activeByMonth,
    groupActiveByMonth example4 = Normal activeByMonth
    /\ (no_goals_yet false activeByMonth (completedGoals example4) = true
        <-> false = false /\ example4 = []).
Proof. exact (no_goals_yet_iff false example4 example4_fileable). Defined.

Lemma toggle_other key b l :
  ~ In key (List.map id l) ->
  map (fun g => if String.eqb (id g) key then with_done g b else g) l = l.
Proof.
  induction l as [| x l IH]; [reflexivity |]. simpl. intros H.
  destruct (String.eqb_spec (id x) key) as [E |]; [exfalso; auto |].
  f_equal. apply IH. auto.
Qed.

Lemma toggleDone_replaces goal b before after :
  List.NoDup (List.map id (before ++ goal :: after)) ->
  map (fun g => if String.eqb (id g) (id goal) then with_done g b else g)
      (before ++ goal :: after)
  = before ++ with_done goal b :: after.
Proof.
  intros Hnd. rewrite List.map_app in Hnd. simpl in Hnd.
  apply List.NoDup_remove_2 in Hnd.
  assert (Hb : ~ In (id goal) (List.map id before)) by (intros H; apply Hnd, in_or_app; auto).
  assert (Ha : ~ In (id goal) (List.map id after)) by (intros H; apply Hnd, in_or_app; auto).
  rewrite map_app. simpl. rewrite String.eqb_refl.
  now rewrite (toggle_other _ _ before Hb), (toggle_other _ _ after Ha).
Qed.

(** X13. With distinct ids, [toggleDone] flips the goal where it stands and
    touches no other; toggling the goal as it is then shown restores the
    list; a failed update changes nothing. *)
Theorem toggleDone_in_place (goal : Goal) (before after : list Goal) :
  List.NoDup (List.map id (before ++ goal :: after)) ->
  let goal' := with_done goal (negb (is_done goal)) in
  toggleDone goal None (before ++ goal :: after) = before ++ goal' :: after
  /\ toggleDone goal' None (before ++ goal' :: after) = before ++ goal :: after
  /\ forall message,
       toggleDone goal (Some message) (before ++ goal :: after) = before ++ goal :: after.
Proof.
  intros Hnd goal'. split; [| split; [| reflexivity]].
  - now apply toggleDone_replaces.
  - unfold toggleDone.
    rewrite (toggleDone_replaces goal' (negb (is_done goal')) before after).
    + f_equal. f_equal. subst goal'. destruct goal as [i t m d n].
      unfold with_done. simpl. now rewrite negb_involutive.
    + rewrite List.map_app in *. exact Hnd.
Qed.

Lemma toggleDone_in_place_witness :
  let goal' := with_done goal_january (negb (is_done goal_january)) in
  toggleDone goal_january None ([goal_march] ++ goal_january :: [goal_january_done])
  = [goal_march] ++ goal' :: [goal_january_done]
  /\ toggleDone goal' None ([goal_march] ++ goal' :: [goal_january_done])
     = [goal_march] ++ goal_january :: [goal_january_done]
  /\ forall message,
       toggleDone goal_january (Some message)
         ([goal_march] ++ goal_january :: [goal_january_done])
       = [goal_march] ++ goal_january :: [goal_january_done].
Proof.
  apply (toggleDone_in_place goal_january [goal_march] [goal_january_done]).
  repeat constructor; simpl; intuition discriminate.
Defined.

Lemma toggled_fileable goal before after :
  fileable (before ++ goal :: after) ->
  fileable (before ++ with_done goal true :: after).
Proof.
  unfold fileable. rewrite !List.Forall_app. intros [Hb Ha]. split; [exact Hb |].
  inversion Ha as [| ? ? _ Hafter]; subst. constructor; [discriminate | exact Hafter].
Qed.

(** X14. Ticking a goal that is not done moves it, and only it.  Before, the
    buckets that [groupActiveByMonth] returns hold it in the bucket of its
    month, at its place; afterwards that bucket holds the other goals of the
    month in their order (and is gone when there is none), the bucket of
    every other month is as it was, and the goal is among the completed
    goals at its place in the list. *)
Theorem toggleDone_completes (goal : Goal) (before after : list Goal) :
  List.NoDup (List.map id (before ++ goal :: after)) ->
  is_done goal = false ->
  fileable (before ++ goal :: after) ->
  let goals := before ++ goal :: after in
  let goals' := toggleDone goal None goals in
  exists buckets buckets',
    groupActiveByMonth goals = Normal buckets
    /\ groupActiveByMonth goals' = Normal buckets'
    /\ In (month goal,
           active_in (month goal) before ++ goal :: active_in (month goal) after)
          buckets
    /\ (forall b', In (month goal, b') buckets'
                   <-> b' = active_in (month goal) before ++ active_in (month goal) after
                       /\ b' <> [])
    /\ (forall m b, m <> month goal -> In (m, b) buckets' <-> In (m, b) buckets)
    /\ Forall (fun g => id g <> id goal) (concat (List.map snd buckets'))
    /\ completedGoals goals'
       = completedGoals before ++ with_done goal true :: completedGoals after.
Proof.
  intros Hnd Hd Hf goals goals'.
  assert (E : goals' = before ++ with_done goal true :: after).
  { subst goals' goals. unfold toggleDone.
    rewrite (toggleDone_replaces goal _ before after Hnd), Hd. reflexivity. }
  destruct (groupActiveByMonth_spec goals Hf) as (buckets & Hrun & _ & Hin & _).
  destruct (groupActiveByMonth_spec goals') as (buckets' & Hrun' & _ & Hin' & Hperm').
  { rewrite E. now apply toggled_fileable. }
  assert (Hbefore : forall m, active_in m goals
                    = active_in m before
                      ++ (if decide (month goal = m) then [goal] else [])
                      ++ active_in m after).
  { intros m. subst goals. unfold active_in. rewrite filter_app, filter_cons.
    destruct (decide (month goal = m)) as [Em | Em].
    - destruct (decide (is_done goal = false /\ month goal = m)) as [| H];
        [reflexivity | now contradiction H].
    - destruct (decide (is_done goal = false /\ month goal = m)) as [[_ H] |];
        [contradiction | reflexivity]. }
  assert (Hafter : forall m, active_in m goals' = active_in m before ++ active_in m after).
  { intros m. rewrite E. unfold active_in.
    rewrite filter_app, filter_cons_False by (intros [H _]; discriminate). reflexivity. }
  exists buckets, buckets'. split; [exact Hrun |]. split; [exact Hrun' |].
  split; [| split; [| split; [| split]]].
  - apply Hin. rewrite Hbefore. destruct (decide (month goal = month goal)); [| congruence].
    split; [reflexivity |]. intros H. now apply app_eq_nil in H as [_ H].
  - intros b'. rewrite Hin', Hafter. reflexivity.
  - intros m b Hm. rewrite Hin, Hin', Hafter, Hbefore.
    destruct (decide (month goal = m)); [congruence | reflexivity].
  - rewrite Hperm', E. rewrite List.map_app in Hnd. simpl in Hnd.
    apply List.NoDup_remove_2 in Hnd.
    apply List.Forall_forall. intros g Hg Eg.
    apply list_elem_of_In, list_elem_of_filter in Hg as [Hgd Hg].
    apply list_elem_of_In in Hg. apply in_app_or in Hg as [Hg | [<- | Hg]].
    + apply Hnd, in_or_app. left. rewrite <- Eg. now apply in_map.
    + discriminate.
    + apply Hnd, in_or_app. right. rewrite <- Eg. now apply in_map.
  - rewrite E. unfold completedGoals.
    rewrite filter_app, filter_cons_True by reflexivity. reflexivity.
Qed.

Lemma example4_split_fileable :
  fileable ([goal_march] ++ goal_january :: [goal_january_done]).
Proof. apply year_month_fileable. repeat constructor. Qed.

Lemma toggleDone_completes_witness :
  let goals := [goal_march] ++ goal_january :: [goal_january_done] in
  let goals' := toggleDone goal_january None goals in
  exists buckets buckets',
    groupActiveByMonth goals = Normal buckets
    /\ groupActiveByMonth goals' = Normal buckets'
    /\ In (month goal_january,
           active_in (month goal_january) [goal_march]
           ++ goal_january :: active_in (month goal_january) [goal_january_done])
          buckets
    /\ (forall b', In (month goal_january, b') buckets'
                   <-> b' = active_in (month goal_january) [goal_march]
                            ++ active_in (month goal_january) [goal_january_done]
                       /\ b' <> [])
    /\ (forall m b, m <> month goal_january -> In (m, b) buckets' <-> In (m, b) buckets)
    /\ Forall (fun g => id g <> id goal_january) (concat (List.map snd buckets'))
    /\ completedGoals goals'
       = completedGoals [goal_march] ++ with_done goal_january true
           :: completedGoals [goal_january_done].
Proof.
  apply (toggleDone_completes goal_january [goal_march] [goal_january_done]);
    [repeat constructor; simpl; intuition discriminate | reflexivity
    | exact example4_split_fileable].
Defined.

End GoalsPageFacts.

Module LabelFacts.
Import Date DateFacts CivilFacts IsoFacts ValidFacts Dashboard.

Lemma chars_append a b : chars (a +:+ b) = chars a ++ chars b.
Proof. induction a as [| c a IH]; simpl; [reflexivity | now rewrite IH]. Qed.

Lemma String_split_none sep l :
  (forall c, In c l -> c <> sep) -> String_split sep l = [l].
Proof.
  induction l as [| c l IH]; [reflexivity |]. intros H. simpl.
  destruct (Ascii.eqb_spec c sep) as [E |]; [exfalso; apply (H c); [now left | exact E] |].
  rewrite IH; [reflexivity |]. intros k Hk. apply H. now right.
Qed.

Lemma String_split_app sep a b :
  (forall c, In c a -> c <> sep) ->
  String_split sep (a ++ sep :: b) = a :: String_split sep b.
Proof.
  induction a as [| c a IH]; intros H; simpl.
  - now rewrite Ascii.eqb_refl.
  - destruct (Ascii.eqb_spec c sep) as [E |]; [exfalso; apply (H c); [now left | exact E] |].
    rewrite IH; [reflexivity |]. intros k Hk. apply H. now right.
Qed.

Lemma digit_char_not_dash v : (0 <= v <= 9)%Z -> digit_char v <> "-"%char.
Proof.
  intros H.
  assert (v = 0 \/ v = 1 \/ v = 2 \/ v = 3 \/ v = 4 \/ v = 5 \/ v = 6 \/ v = 7
          \/ v = 8 \/ v = 9)%Z as Hc by lia.
  repeat (destruct Hc as [-> | Hc]; [discriminate |]). subst. discriminate.
Qed.

Lemma name_lookup_all :
  forallb (fun a => forallb (fun b =>
    bool_decide (Array_get monthNames (parseInt [digit_char a; digit_char b])
                 = name_of (10 * a + b)))
    decimal_digits) decimal_digits = true.
Proof. vm_compute. reflexivity. Qed.

Lemma name_lookup m1 m2 :
  (0 <= m1 <= 9)%Z -> (0 <= m2 <= 9)%Z ->
  Array_get monthNames (parseInt [digit_char m1; digit_char m2]) = name_of (10 * m1 + m2).
Proof.
  intros H1 H2. pose proof name_lookup_all as Hall. rewrite forallb_forall in Hall.
  specialize (Hall m1 (In_decimal_digits m1 H1)). rewrite forallb_forall in Hall.
  specialize (Hall m2 (In_decimal_digits m2 H2)). now apply bool_decide_eq_true in Hall.
Qed.

Lemma formatMonthLabel_year_month_cases (year : string) (m1 m2 : Z) :
  year <> "" -> (forall c, In c (chars year) -> c <> "-"%char) ->
  (0 <= m1 <= 9)%Z -> (0 <= m2 <= 9)%Z ->
  let monthStr := year +:+ "-" +:+ string_of_list_ascii [digit_char m1; digit_char m2] in
  formatMonthLabel monthStr
  = (if ((1 <=? 10 * m1 + m2) && (10 * m1 + m2 <=? 12))%Z
     then nth (Z.to_nat (10 * m1 + m2)) monthNames ""
     else monthStr)
    +:+ " " +:+ string_of_list_ascii (skipn 2 (chars year)).
Proof.
  intros Hne Hdash H1 H2 monthStr. unfold formatMonthLabel.
  assert (Ec : chars monthStr = chars year ++ "-"%char :: [digit_char m1; digit_char m2]).
  { subst monthStr. now rewrite chars_append. }
  rewrite Ec, String_split_app by exact Hdash.
  rewrite String_split_none
    by (intros c [<- | [<- | []]]; now apply digit_char_not_dash).
  cbn [nth_error]. destruct (chars year) as [| c r] eqn:Ey.
  - destruct year; [now contradiction Hne | discriminate].
  - cbv zeta. rewrite name_lookup by assumption. unfold name_of.
    destruct ((1 <=? 10 * m1 + m2) && (10 * m1 + m2 <=? 12))%Z eqn:E.
    + apply andb_true_iff in E as [Ha Hb]. apply Z.leb_le in Ha, Hb.
      assert (10 * m1 + m2 = 1 \/ 10 * m1 + m2 = 2 \/ 10 * m1 + m2 = 3 \/ 10 * m1 + m2 = 4
              \/ 10 * m1 + m2 = 5 \/ 10 * m1 + m2 = 6 \/ 10 * m1 + m2 = 7
              \/ 10 * m1 + m2 = 8 \/ 10 * m1 + m2 = 9 \/ 10 * m1 + m2 = 10
              \/ 10 * m1 + m2 = 11 \/ 10 * m1 + m2 = 12)%Z as Hc by lia.
      repeat (destruct Hc as [-> | Hc]; [reflexivity |]). rewrite Hc. reflexivity.
    + destruct (10 * m1 + m2 =? 0)%Z; simpl;
        destruct (decide (monthStr = "")); reflexivity.
Qed.

(** X15. The label of a month: the name of the month, and the year from its third
    character on.  A month part outside 01 to 12 is not named: the label
    then starts with the whole string.  The dashboard and the goals page
    hold the same function. *)
Theorem formatMonthLabel_year_month (year : string) (m1 m2 : Z) :
  year <> "" -> (forall c, In c (chars year) -> c <> "-"%char) ->
  (0 <= m1 <= 9)%Z -> (0 <= m2 <= 9)%Z ->
  let monthStr := year +:+ "-" +:+ string_of_list_ascii [digit_char m1; digit_char m2] in
  let label :=
    (if ((1 <=? 10 * m1 + m2) && (10 * m1 + m2 <=? 12))%Z
     then nth (Z.to_nat (10 * m1 + m2)) monthNames ""
     else monthStr)
    +:+ " " +:+ string_of_list_ascii (skipn 2 (chars year)) in
  formatMonthLabel monthStr = label /\ Goals.formatMonthLabel monthStr = label.
Proof.
  intros Hne Hdash H1 H2 monthStr label.
  split; exact (formatMonthLabel_year_month_cases year m1 m2 Hne Hdash H1 H2).
Qed.

Lemma formatMonthLabel_year_month_witness :
  formatMonthLabel "2025-03" = "March 25" /\ Goals.formatMonthLabel "2025-03" = "March 25".
Proof.
  refine (formatMonthLabel_year_month "2025" 0 3 _ _ _ _);
    [discriminate | | lia | lia].
  intros c [<- | [<- | [<- | [<- | []]]]]; discriminate.
Defined.

(** The ISO string starts with the date, for the years 0 to 9999. *)
Lemma toISOString_date t :
  let '(y, m, d) := civil_from_days (Day t) in
  (0 <= y <= 9999)%Z ->
  exists rest,
    toISOString (Some t)
    = Normal (date_only (y / 1000) (y / 100 mod 10) (y / 10 mod 10) (y mod 10)
                        (m / 10) (m mod 10) (d / 10) (d mod 10) +:+ rest).
Proof.
  pose proof (days_from_civil_from_days (Day t)) as H.
  pose proof (civil_from_days_valid (Day t)) as Hv.
  unfold toISOString, YearFromTime, MonthFromTime, DateFromTime.
  destruct (civil_from_days (Day t)) as [[y m] d]. destruct H as [Hm _].
  pose proof (days_in_month_cases y m Hm) as Hdim. intros Hy. cbn [fst snd].
  replace ((0 <=? y) && (y <=? 9999))%Z with true
    by (symmetry; apply andb_true_iff; split; apply Z.leb_le; lia).
  replace (m - 1 + 1)%Z with m by lia.
  replace (pad 4 y) with (pad 4 (1000 * (y / 1000) + 100 * (y / 100 mod 10)
                                 + 10 * (y / 10 mod 10) + y mod 10))
    by (f_equal; Z.div_mod_to_equations; lia).
  replace (pad 2 m) with (pad 2 (10 * (m / 10) + m mod 10))
    by (f_equal; Z.div_mod_to_equations; lia).
  replace (pad 2 d) with (pad 2 (10 * (d / 10) + d mod 10))
    by (f_equal; Z.div_mod_to_equations; lia).
  rewrite pad4_digits by (Z.div_mod_to_equations; lia).
  rewrite (pad2_digits (m / 10)), (pad2_digits (d / 10)) by (Z.div_mod_to_equations; lia).
  eexists. reflexivity.
Qed.

(** X16. With no goal, the dashboard's label is the name of the current month
    (in UTC) and the last two digits of the year. *)
Theorem currentMonthLabel_today (t : Z) :
  (0 <= YearFromTime t <= 9999)%Z ->
  currentMonthLabel [] (Some t)
  = Normal (nth (Z.to_nat (MonthFromTime t + 1)) monthNames ""
            +:+ " " +:+ string_of_list_ascii
                          [digit_char (YearFromTime t / 10 mod 10);
                           digit_char (YearFromTime t mod 10)]).
Proof.
  unfold currentMonthLabel, YearFromTime, MonthFromTime.
  pose proof (toISOString_date t) as H.
  pose proof (days_from_civil_from_days (Day t)) as Hc.
  destruct (civil_from_days (Day t)) as [[y m] d]. destruct Hc as [Hm _].
  cbn [fst snd]. intros Hy. destruct (H Hy) as [rest ->]. cbn [bind].
  replace (m - 1 + 1)%Z with m by lia.
  change (substring 0 7 (date_only (y / 1000) (y / 100 mod 10) (y / 10 mod 10) (y mod 10)
                                   (m / 10) (m mod 10) (d / 10) (d mod 10) +:+ rest))
    with (string_of_list_ascii [digit_char (y / 1000); digit_char (y / 100 mod 10);
                                digit_char (y / 10 mod 10); digit_char (y mod 10)]
          +:+ "-" +:+ string_of_list_ascii [digit_char (m / 10); digit_char (m mod 10)]).
  rewrite formatMonthLabel_year_month_cases.
  - replace (10 * (m / 10) + m mod 10)%Z with m by (Z.div_mod_to_equations; lia).
    replace ((1 <=? m) && (m <=? 12))%Z with true
      by (symmetry; apply andb_true_iff; split; apply Z.leb_le; lia).
    reflexivity.
  - discriminate.
  - intros c [<- | [<- | [<- | [<- | []]]]]; apply digit_char_not_dash;
      Z.div_mod_to_equations; lia.
  - Z.div_mod_to_equations; lia.
  - Z.div_mod_to_equations; lia.
Qed.

Lemma currentMonthLabel_today_witness :
  currentMonthLabel [] (Some 1741478400000%Z) = Normal "March 25".
Proof. exact (currentMonthLabel_today 1741478400000 ltac:(vm_compute; split; discriminate)). Defined.

End LabelFacts.

Module EditFacts.
Import Float IntFacts NumberFacts InventoryIntegerFacts TrimFacts Inventory.

Lemma clean_fixed o : clean o -> or_null (String_trim (or_default o "")) = o.
Proof.
  destruct o as [t |]; [| reflexivity]. intros (Hne & Hh & Hl). simpl.
  destruct (decide (t = "")); [contradiction |].
  unfold String_trim. rewrite trim_fixed by assumption.
  rewrite IsoFacts.string_of_chars. unfold or_null.
  destruct (decide (t = "")); [contradiction | reflexivity].
Qed.

(** X17. Opening the editor on an item and saving without a change leaves the
    list as it was, when the item's notes are clean (as this page writes
    them) and no other item has its id. *)
Theorem saveEdit_startEdit (item : InventoryItem) (failure : option string)
    (items : list InventoryItem) :
  clean (notes item) ->
  (forall other, In other items -> id other = id item -> other = item) ->
  snd (saveEdit (id item) failure (startEdit item) items) = items.
Proof.
  intros Hc Hid. unfold saveEdit.
  destruct (decide _); [reflexivity |]. destruct failure; [reflexivity |].
  cbn [snd]. rewrite <- (map_id items) at 2.
  apply map_ext_in. intros other Hin.
  destruct (String.eqb_spec (id other) (id item)) as [E |]; [| reflexivity].
  rewrite (Hid other Hin E). unfold edited, startEdit. simpl.
  rewrite (clean_fixed _ Hc). now destruct item.
Qed.

Lemma saveEdit_startEdit_witness :
  snd (saveEdit (id oat_milk) None (startEdit oat_milk) [sold_out; oat_milk; cups])
  = [sold_out; oat_milk; cups].
Proof.
  apply saveEdit_startEdit.
  - split; [discriminate |]. split.
    + intros c r [= <- _]. reflexivity.
    + intros c r H. change (chars "keep cold") with (chars "keep col" ++ ["d"%char]) in H.
      apply app_inj_tail in H as [_ <-]. reflexivity.
  - intros other [<- | [<- | [<- | []]]] E; (reflexivity || discriminate E).
Defined.

(** X18. Saving an edit with whole numbers typed for quantity and threshold
    stores exactly these numbers, and the item is then low exactly when the
    threshold is positive and the quantity does not exceed it. *)
Theorem saveEdit_whole_numbers (itemId : string) (e : Edit)
    (items : list InventoryItem) (qs ts : string) (q t : Z) :
  editName e <> "" -> editUnit e <> "" ->
  editQuantity e = Str qs -> editThreshold e = Str ts ->
  decimal qs = Some q -> decimal ts = Some t ->
  (q < 2 ^ 53)%Z -> (t < 2 ^ 53)%Z ->
  List.Forall (fun item =>
                 id item = itemId ->
                 quantity item = of_Z q /\ reorder_threshold item = of_Z t
                 /\ isLow item = ((0 <? t) && (q <=? t))%Z)
              (snd (saveEdit itemId None e items)).
Proof.
  intros Hn Hu Eq Et Hq Ht Hqs Hts. apply List.Forall_forall. intros item Hin Hid.
  unfold saveEdit in Hin.
  destruct (decide _) as [[? | ?] |]; [contradiction | contradiction |].
  cbn [snd] in Hin. apply in_map_iff in Hin as (old & <- & _).
  simpl in Hid. destruct (String.eqb_spec (id old) itemId) as [E | E];
    [| now contradiction E].
  destruct (Number_decimal qs q Hq) as [Nq Hq0].
  destruct (Number_decimal ts t Ht) as [Nt Ht0].
  assert (Vq : field_value (editQuantity e) = of_Z q).
  { rewrite Eq. simpl. destruct (decide (qs = "")) as [-> |]; [discriminate | exact Nq]. }
  assert (Vt : field_value (editThreshold e) = of_Z t).
  { rewrite Et. simpl. destruct (decide (ts = "")) as [-> |]; [discriminate | exact Nt]. }
  unfold isLow, edited. cbn [quantity reorder_threshold]. rewrite Vq, Vt.
  repeat split. apply low_of_Z; unfold safe; lia.
Qed.

Lemma saveEdit_whole_numbers_witness :
  List.Forall (fun item =>
                 id item = "i7" ->
                 quantity item = of_Z 6 /\ reorder_threshold item = of_Z 2
                 /\ isLow item = ((0 <? 2) && (6 <=? 2))%Z)
              (snd (saveEdit "i7" None restock [sold_out])).
Proof.
  apply (saveEdit_whole_numbers "i7" restock [sold_out] "6" "2" 6 2);
    (discriminate || reflexivity).
Defined.

End EditFacts.

Module WindowFacts.
Import Date DateFacts CivilFacts IsoFacts ValidFacts StoredDateFacts LabelFacts Dashboard.

(** The first ten characters of the ISO string read back as the midnight
    that starts the day, in UTC. *)
Lemma of_string_toISOString t :
  (-62167219200000 <= t < 253402300800000)%Z ->
  exists iso,
    toISOString (Some t) = Normal iso
    /\ of_string (substring 0 10 iso) = Some (Day t * msPerDay)%Z.
Proof.
  intros Ht.
  assert (Hz : (-719528 <= Day t < 2932897)%Z)
    by (unfold Day, msPerDay; Z.div_mod_to_equations; lia).
  pose proof (toISOString_date t) as H.
  pose proof (days_from_civil_from_days (Day t)) as Hc.
  pose proof (civil_from_days_valid (Day t)) as Hv.
  pose proof (year_in_range (Day t) Hz) as Hy.
  destruct (civil_from_days (Day t)) as [[y m] d]. destruct Hc as [Hm Hc].
  pose proof (days_in_month_cases y m Hm) as Hdim.
  destruct (H Hy) as [rest ->]. eexists. split; [reflexivity |].
  replace (substring 0 10 (date_only (y / 1000) (y / 100 mod 10) (y / 10 mod 10) (y mod 10)
                                     (m / 10) (m mod 10) (d / 10) (d mod 10) +:+ rest))
    with (date_only (y / 1000) (y / 100 mod 10) (y / 10 mod 10) (y mod 10)
                    (m / 10) (m mod 10) (d / 10) (d mod 10))
    by (destruct rest; reflexivity).
  assert (Ey : y = (1000 * (y / 1000) + 100 * (y / 100 mod 10) + 10 * (y / 10 mod 10)
                    + y mod 10)%Z) by (Z.div_mod_to_equations; lia).
  assert (Em : m = (10 * (m / 10) + m mod 10)%Z) by (Z.div_mod_to_equations; lia).
  assert (Ed : d = (10 * (d / 10) + d mod 10)%Z) by (Z.div_mod_to_equations; lia).
  rewrite of_string_date_only.
  - rewrite <- Ey, <- Em, <- Ed, Hc. reflexivity.
  - repeat split; Z.div_mod_to_equations; lia.
  - rewrite <- Em. exact Hm.
  - rewrite <- Ey, <- Em, <- Ed. exact Hv.
Qed.

(** X19. In a zone that keeps one offset, when the two readings of the clock
    fall on the same local day, the dashboard asks for the events from
    today's date in UTC to a date thirty or thirty-one days later: thirty
    days after the UTC day of the second reading, which is the UTC day of
    the first or the day after it. *)
Theorem window_span (offset now now' : Z) :
  (now <= now')%Z ->
  Day (now + offset) = Day (now' + offset) ->
  (-62167219200000 <= now)%Z -> (now' + 30 * msPerDay < 253402300800000)%Z ->
  exists todayStr in30Str span,
    window (fixed_zone offset) now now' = Normal (todayStr, in30Str)
    /\ of_string todayStr = Some (Day now * msPerDay)%Z
    /\ of_string in30Str = Some (Day now * msPerDay + span * msPerDay)%Z
    /\ span = (30 + (Day now' - Day now))%Z
    /\ (30 <= span <= 31)%Z.
Proof.
  intros Hle Hday Hn Hb'. unfold window.
  assert (Eg : getDate (fixed_zone offset) (Some now)
               = getDate (fixed_zone offset) (Some now')).
  { unfold getDate, DateFromTime, LocalTime. simpl. now rewrite Hday. }
  rewrite Eg, setDate_fixed_zone.
  unfold TimeClip. unfold msPerDay in Hb'.
  destruct (Z.leb_spec (Z.abs (now' + 30 * msPerDay)) 8640000000000000) as [_ | Hbig];
    [| unfold msPerDay in Hbig; lia].
  destruct (of_string_toISOString now) as (iso & -> & E1); [lia |].
  destruct (of_string_toISOString (now' + 30 * msPerDay)) as (iso' & -> & E2);
    [unfold msPerDay; lia |].
  exists (substring 0 10 iso), (substring 0 10 iso'), (30 + (Day now' - Day now))%Z.
  split; [reflexivity |]. split; [exact E1 |]. split; [| split; [reflexivity |]].
  - rewrite E2. f_equal. unfold Day, msPerDay. Z.div_mod_to_equations. lia.
  - unfold Day, msPerDay in *. Z.div_mod_to_equations. lia.
Qed.

Lemma window_span_witness :
  exists todayStr in30Str span,
    window (fixed_zone (-18000000)) 1741564799999 1741564800001
    = Normal (todayStr, in30Str)
    /\ of_string todayStr = Some (Day 1741564799999 * msPerDay)%Z
    /\ of_string in30Str = Some (Day 1741564799999 * msPerDay + span * msPerDay)%Z
    /\ span = (30 + (Day 1741564800001 - Day 1741564799999))%Z
    /\ (30 <= span <= 31)%Z.
Proof.
  apply (window_span (-18000000) 1741564799999 1741564800001);
    [lia | reflexivity | lia | unfold msPerDay; lia].
Defined.

(** The window of the witness: from 9 March to 9 April 2025, thirty-one
    days, as midnight in UTC passes between the two readings. *)
Example window_across_midnight :
  window (fixed_zone (-18000000)) 1741564799999 1741564800001
  = Normal ("2025-03-09", "2025-04-09").
Proof. vm_compute. reflexivity. Qed.

(** X20. The date that a cash session starts with is today's date in UTC,
    in every time zone: it reads back as the midnight, in UTC, that starts
    the day of [now]. *)
Theorem todayStr_utc (now : Z) :
  (-62167219200000 <= now < 253402300800000)%Z ->
  exists s, CashDrawer.todayStr now = Normal s
            /\ of_string s = Some (Day now * msPerDay)%Z.
Proof.
  intros H. unfold CashDrawer.todayStr.
  destruct (of_string_toISOString now H) as (iso & -> & E).
  exists (substring 0 10 iso). split; [reflexivity | exact E].
Qed.

Lemma todayStr_utc_witness :
  exists s, CashDrawer.todayStr 1741222800000 = Normal s
            /\ of_string s = Some (Day 1741222800000 * msPerDay)%Z.
Proof. apply todayStr_utc. lia. Defined.

End WindowFacts.

Module ListFacts.
Import Inventory.

Lemma filter_other key l :
  ~ In key (List.map id l) -> filter (fun i : InventoryItem => id i <> key) l = l.
Proof.
  induction l as [| x l IH]; [reflexivity |]. simpl. intros H.
  rewrite filter_cons_True by (intros E; apply H; now left).
  f_equal. apply IH. auto.
Qed.

Lemma lowCount_app a b : lowCount (a ++ b) = (lowCount a + lowCount b)%nat.
Proof. unfold lowCount. now rewrite filter_app, length_app. Qed.

Lemma lowCount_cons item l :
  lowCount (item :: l) = ((if isLow item then 1 else 0) + lowCount l)%nat.
Proof.
  unfold lowCount, isLow. rewrite filter_cons.
  destruct (decide _) as [E | E].
  - rewrite E. reflexivity.
  - destruct (_ && _); [now contradiction E | reflexivity].
Qed.

(** X21. With distinct ids, deleting an item removes it and no other, the
    count of low items drops by one exactly when the item was low, and a
    failed delete changes nothing. *)
Theorem deleteItem_lowCount (item : InventoryItem) (before after : list InventoryItem) :
  List.NoDup (List.map id (before ++ item :: after)) ->
  deleteItem (id item) None (before ++ item :: after) = before ++ after
  /\ (lowCount (deleteItem (id item) None (before ++ item :: after))
      + (if isLow item then 1 else 0))%nat
     = lowCount (before ++ item :: after)
  /\ forall message,
       deleteItem (id item) (Some message) (before ++ item :: after)
       = before ++ item :: after.
Proof.
  intros Hnd. rewrite List.map_app in Hnd. simpl in Hnd.
  apply List.NoDup_remove_2 in Hnd.
  assert (Hb : ~ In (id item) (List.map id before)) by (intros H; apply Hnd, in_or_app; auto).
  assert (Ha : ~ In (id item) (List.map id after)) by (intros H; apply Hnd, in_or_app; auto).
  assert (E : deleteItem (id item) None (before ++ item :: after) = before ++ after).
  { unfold deleteItem. rewrite filter_app, filter_cons_False by (intros H; now apply H).
    now rewrite (filter_other _ before Hb), (filter_other _ after Ha). }
  split; [exact E |]. split; [| reflexivity].
  rewrite E, !lowCount_app, lowCount_cons. lia.
Qed.

Lemma deleteItem_lowCount_witness :
  deleteItem (id oat_milk) None ([sold_out] ++ oat_milk :: [cups]) = [sold_out] ++ [cups]
  /\ (lowCount (deleteItem (id oat_milk) None ([sold_out] ++ oat_milk :: [cups]))
      + (if isLow oat_milk then 1 else 0))%nat
     = lowCount ([sold_out] ++ oat_milk :: [cups])
  /\ forall message,
       deleteItem (id oat_milk) (Some message) ([sold_out] ++ oat_milk :: [cups])
       = [sold_out] ++ oat_milk :: [cups].
Proof.
  apply (deleteItem_lowCount oat_milk [sold_out] [cups]).
  repeat constructor; simpl; intuition discriminate.
Defined.

(** X22. The filters of the inventory page: with all categories and "low
    only" off everything is shown; with "low only" on, as many items as the
    heading counts as low; and under any filters the items shown are items
    of the list, in their order, of the chosen category and low if asked. *)
Theorem filteredItems_shown (items : list InventoryItem) (categoryFilter : string)
    (showLowOnly : bool) :
  filteredItems items "all" false = items
  /\ length (filteredItems items "all" true) = lowCount items
  /\ sublist (filteredItems items categoryFilter showLowOnly) items
  /\ List.Forall (fun item =>
                    (categoryFilter = "all" \/ category item = categoryFilter)
                    /\ (showLowOnly = true -> isLow item = true))
       (filteredItems items categoryFilter showLowOnly).
Proof.
  unfold filteredItems, lowCount. repeat split.
  - induction items as [| x l IH]; [reflexivity |].
    rewrite filter_cons_True by reflexivity. now rewrite IH.
  - f_equal. apply list_filter_iff. intros x. unfold isLow.
    destruct ((reorder_threshold x >? pzero) && (quantity x <=? reorder_threshold x));
      simpl; split; (reflexivity || discriminate || auto).
  - apply sublist_filter.
  - apply List.Forall_forall. intros item Hin.
    apply list_elem_of_In, list_elem_of_filter in Hin as [H _].
    destruct (bool_decide (categoryFilter <> "all")) eqn:E1;
      destruct (bool_decide (category item <> categoryFilter)) eqn:E2;
      simpl in H; try discriminate;
      destruct showLowOnly, (isLow item); simpl in H; try discriminate.
    all: split; [| congruence || reflexivity || auto].
    all: try (apply bool_decide_eq_false in E2; right; now destruct (decide (category item = categoryFilter)); [| contradiction E2]).
    all: try (apply bool_decide_eq_false in E1; left; now destruct (decide (categoryFilter = "all")); [| contradiction E1]).
Qed.

End ListFacts.
